(** * EditPro preset engine

    A shallow embedding of [processImage] (utils/presetEngine.ts) together
    with the data declarations of data/presets.ts, and the properties of the
    image-adjustment pipeline that the design document states about it.

    Conventions of the embedding.

    - A JavaScript number is modelled by an exact rational ([Q]).  Rounding
      of IEEE doubles and the non-finite values are not represented; every
      arithmetic expression of the source is kept with its own association,
      so the only idealisation is the exactness of each operation.  The one
      division by a non-constant is in the vibrance block; its denominator
      vanishes only when texture or clarity have driven max + min to 0 or
      to 510 with max and min distinct, where JavaScript yields an infinity
      and [Qdiv] yields 0.  Whatever the number, the store brings it into
      [0,255], and none of the statements below rests on that case.  Where
      an exact number lies half way between two integers, the byte a
      browser stores may be the other neighbour, its number carrying the
      rounding of the operations before; the description of the tone stage
      therefore leaves the neighbour open.
    - An [ImageData.data] array (a [Uint8ClampedArray]) is a [list Z] of
      interleaved R,G,B,A bytes.  A store into it goes through
      [toUint8Clamp], the conversion the language prescribes for such arrays.
    - The 2D canvas is an interface ([Canvas]): drawing with a CSS filter,
      blurring, gradient and rectangle fills, text and encoding are services
      of the browser, and the contents of a canvas are identified with the
      bytes [getImageData] returns for it. *)

From Stdlib Require Import ZArith QArith Qround Qminmax Qabs Lqa Lia String List.
From stdpp Require Import base option list gmap strings.
Import ListNotations.

Local Open Scope Q_scope.

(** ** JavaScript numbers and typed-array stores *)

Module JsNum.

(** [x < y] as a boolean test. *)
Definition Qltb (x y : Q) : bool := negb (Qle_bool y x).

(** [x !== y] on numbers. *)
Definition Qneqb (x y : Q) : bool := negb (Qeq_bool x y).

(** [x || d] for an optional number: [undefined] and [0] are falsy. *)
Definition orElse (x : option Q) (d : Q) : Q :=
  match x with
  | Some v => if Qeq_bool v 0 then d else v
  | None => d
  end.

(** [Math.max(a, b, c)] and [Math.min(a, b, c)]. *)
Definition max3 (a b c : Q) : Q := Qmax (Qmax a b) c.
Definition min3 (a b c : Q) : Q := Qmin (Qmin a b) c.

(** [Math.max(0, Math.min(255, x))]. *)
Definition clamp255 (x : Q) : Q := Qmax 0 (Qmin 255 x).

(** ToUint8Clamp: clamp to [0,255], then round to the nearest integer,
    ties to the even one. *)
Definition toUint8Clamp (x : Q) : Z :=
  let clamped := Qmin (Qmax x 0) 255 in
  let f := Qfloor clamped in
  if Qltb clamped (inject_Z f + 0.5) then f
  else if Qltb (inject_Z f + 0.5) clamped then (f + 1)%Z
  else if Z.even f then f else (f + 1)%Z.

(** [buf[i]] read as a number.  The blurred buffers are read at indices of
    the working buffer, which has the same dimensions, so the default is
    never reached on buffers a canvas returns. *)
Definition sample (buf : list Z) (i : nat) : Q :=
  inject_Z (default 0%Z (buf !! i)).

(** A byte of a [Uint8ClampedArray]. *)
Definition is_byte (z : Z) : Prop := (0 <= z <= 255)%Z.

End JsNum.
Export JsNum.

(** ** data/presets.ts *)

Inductive Category := Cinematic | Nature | Artistic | Retouching | NeuralAI.

(** The string literals ['grain'], ['vignette'], ['volumetric'] and
    ['neural-bokeh']. *)
Inductive OverlayType := OGrain | OVignette | OVolumetric | ONeuralBokeh.

Module Overlay.
Record t := { type : OverlayType; intensity : Q; color : option string }.
End Overlay.

Module FrequencySeparation.
Record t := { radius : Q; intensity : Q; toneSmoothing : option bool }.
End FrequencySeparation.

Module TonalRange.
Record t := { whites : Q; blacks : Q; highlights : Q; shadows : Q;
              dehaze : option Q }.
End TonalRange.

Module ToneCurve.
Record t := { highlights : Q; lights : Q; darks : Q; shadows : Q }.
End ToneCurve.

Module ColorBalance.
Record t := { temp : Q; tint : Q }.
End ColorBalance.

Module Glow.
Record t := { intensity : Q; radius : Q }.
End Glow.

Record PresetSettings := {
  id : string;
  name : string;
  category : Category;
  filters : string;
  overlay : option Overlay.t;
  aiSubjectOnly : option bool;
  frequencySeparation : option FrequencySeparation.t;
  tonalRange : option TonalRange.t;
  toneCurve : option ToneCurve.t;
  colorBalance : option ColorBalance.t;
  glow : option Glow.t;
  presetDisabledSections : option (gmap string bool)
}.

(** The numeric and the string members of [ManualSettings], by name. *)
Inductive NumKey :=
| Exposure | Contrast | Saturation | Sharpness | Highlights | Shadows
| Whites | Blacks | Texture | Clarity | Dehaze | Temp | Tint
| WhiteOverlay | BlackOverlay | SkinSoftening
| Brightness | NoiseReduction | Hue | LevelsBlack | LevelsWhite
| AutoBrush | Curves | Vibrance | SkinTone | DodgeBurn
| SharpenRadius | SharpenDetail | Vignette | Grain
| WatermarkOpacity | WatermarkSize.

Inductive StrKey := TintShadows | TintHighlights | WatermarkText | WatermarkColor.

(** A settings object.  A member the object does not carry reads as
    [undefined] ([None]); the destructuring in [processImage] then takes the
    default written there. *)
Record ManualSettings := {
  num : NumKey -> option Q;
  str : StrKey -> option string;
  disabledSections : option (gmap string bool)
}.

#[global] Instance NumKey_eq_dec : EqDecision NumKey.
Proof. solve_decision. Defined.

#[global] Instance StrKey_eq_dec : EqDecision StrKey.
Proof. solve_decision. Defined.

(** [{ ...m, [k]: v }] for a numeric member, a string member, and one flag
    of [disabledSections]. *)
Definition setNum (k : NumKey) (v : Q) (m : ManualSettings) : ManualSettings :=
  {| num := fun k' => if decide (k' = k) then Some v else num m k';
     str := str m;
     disabledSections := disabledSections m |}.

Definition setStr (k : StrKey) (v : string) (m : ManualSettings) : ManualSettings :=
  {| num := num m;
     str := fun k' => if decide (k' = k) then Some v else str m k';
     disabledSections := disabledSections m |}.

Definition setDisabled (key : string) (flag : bool) (m : ManualSettings)
  : ManualSettings :=
  {| num := num m;
     str := str m;
     disabledSections := Some (<[key := flag]> (default ∅ (disabledSections m))) |}.

(** The object [{}]. *)
Definition emptySettings : ManualSettings :=
  {| num := fun _ => None; str := fun _ => None; disabledSections := None |}.

(** ** The browser services used by the engine *)

Inductive CompositeOp := SourceOver | Screen | Multiply.

(** A decoded image: what [ctx.drawImage(img, 0, 0)] followed by
    [ctx.getImageData(0, 0, img.width, img.height)] yields. *)
Record Image := { width : Z; height : Z; data : list Z }.

Class Canvas := {
  (** [img.src = imageSrc]: the decoded bitmap delivered with the [load]
      event, or [None] when the browser fires [error] instead. *)
  loadImage : string -> option Image;
  (** [bctx.filter = filters + ` contrast(c) saturate(s)`;
      bctx.drawImage(canvas, 0, 0); bctx.getImageData(..)]. *)
  drawFiltered : Z -> Z -> string -> Q -> Q -> list Z -> list Z;
  (** [ctx.filter = `blur(${radius}px)`; ctx.drawImage(bufferCanvas, 0, 0);
      ctx.getImageData(..).data] on a clear canvas. *)
  drawBlurred : Z -> Z -> Q -> list Z -> list Z;
  (** [fillRect] of the whole canvas with the radial gradient of the
      vignette, whose outer stop is [rgba(0,0,0,alpha)]. *)
  fillVignette : Z -> Z -> Q -> list Z -> list Z;
  (** [fillRect] of the whole canvas with [rgba(c,c,c,alpha)] under the
      given [globalCompositeOperation]. *)
  fillOverlay : Z -> Z -> CompositeOp -> Z -> Q -> list Z -> list Z;
  (** [fillText(text, width - fontSize, height - fontSize)] with the font
      size, colour and [globalAlpha] given, and the drop shadow. *)
  fillWatermark : Z -> Z -> string -> Q -> string -> Q -> list Z -> list Z;
  (** [bufferCanvas.toDataURL('image/jpeg', 0.95)]. *)
  toDataURL : Z -> Z -> list Z -> string
}.

(** ** utils/presetEngine.ts *)

(** [for (let i = 0; i < data.length; i += 4)] with a body that reads
    [data[i]], [data[i+1]], [data[i+2]] and stores three new values at the
    same places.  [data[i+3]] is neither read nor written.  The length of an
    [ImageData] array is a multiple of four. *)
Fixpoint pixelLoop (body : nat -> Q -> Q -> Q -> Q * Q * Q) (i : nat)
    (data : list Z) : list Z :=
  match data with
  | r :: g :: b :: a :: rest =>
      let '(r', g', b') := body i (inject_Z r) (inject_Z g) (inject_Z b) in
      toUint8Clamp r' :: toUint8Clamp g' :: toUint8Clamp b' :: a
        :: pixelLoop body (i + 4) rest
  | _ => data
  end.

(** [!disabledSections[key]] negated: the flag, with a missing key falsy. *)
Definition isDisabled (disabledSections : gmap string bool) (key : string) : bool :=
  default false (disabledSections !! key).

Definition applyWB (r g b t tn : Q) : Q * Q * Q :=
  let r := r + t * 0.5 in
  let b := b - t * 0.5 in
  let g := g - tn * 0.5 in
  let r := r + tn * 0.25 in
  let b := b + tn * 0.25 in
  (r, g, b).

(** Step 1, the body of the first loop. *)
Definition toneBody (preset : PresetSettings)
    (exposure whites blacks dehaze temp tint : Q) (r g b : Q) : Q * Q * Q :=
  let '(r, g, b) :=
    applyWB r g b
      (orElse (ColorBalance.temp <$> colorBalance preset) 0 + temp)
      (orElse (ColorBalance.tint <$> colorBalance preset) 0 + tint) in
  let r := r * exposure * whites in
  let g := g * exposure * whites in
  let b := b * exposure * whites in
  let bOffset := (blacks - 1) * 50 in
  let r := r + bOffset in
  let g := g + bOffset in
  let b := b + bOffset in
  let '(r, g, b) :=
    if Qneqb dehaze 0 then
      let dFactor := dehaze * 0.3 in
      ((r - 128) * (1 + dFactor) + 128 + dehaze * 15,
       (g - 128) * (1 + dFactor) + 128 + dehaze * 15,
       (b - 128) * (1 + dFactor) + 128 + dehaze * 15)
    else (r, g, b) in
  (clamp255 r, clamp255 g, clamp255 b).

Definition toneStage (preset : PresetSettings)
    (disabledSections : gmap string bool)
    (exposure whites blacks dehaze temp tint : Q) (data : list Z) : list Z :=
  if negb (isDisabled disabledSections "basic") then
    pixelLoop (fun _ => toneBody preset exposure whites blacks dehaze temp tint)
      0 data
  else data.

Definition detailBody (blurredData : list Z) (intensity : Q)
    (i : nat) (r g b : Q) : Q * Q * Q :=
  (r + (r - sample blurredData i) * intensity,
   g + (g - sample blurredData (i + 1)) * intensity,
   b + (b - sample blurredData (i + 2)) * intensity).

(** The unsharp mask of the detail panel; [blurredData] is the buffer
    blurred at [sharpenRadius]. *)
Definition detailStage (disabledSections : gmap string bool)
    (sharpness sharpenDetail : Q) (blurredData : list Z) (pixels : list Z)
  : list Z :=
  if negb (isDisabled disabledSections "detail") && Qltb 0 sharpness then
    let intensity := sharpness * (0.5 + sharpenDetail / 50) in
    pixelLoop (detailBody blurredData intensity) 0 pixels
  else pixels.

(** Texture and clarity. *)
Definition presence (fineBlurred mediumBlurred : list Z) (texture clarity : Q)
    (i : nat) (r g b : Q) : Q * Q * Q :=
  let '(r, g, b) :=
    if Qneqb texture 0 then
      (r + (r - sample fineBlurred i) * texture * 0.8,
       g + (g - sample fineBlurred (i + 1)) * texture * 0.8,
       b + (b - sample fineBlurred (i + 2)) * texture * 0.8)
    else (r, g, b) in
  if Qneqb clarity 0 then
    (r + (r - sample mediumBlurred i) * clarity * 0.5,
     g + (g - sample mediumBlurred (i + 1)) * clarity * 0.5,
     b + (b - sample mediumBlurred (i + 2)) * clarity * 0.5)
  else (r, g, b).

(** The vibrance block. *)
Definition vibranceBlock (vibrance : Q) (r g b : Q) : Q * Q * Q :=
  if Qneqb vibrance 1 then
    let max := max3 r g b in
    let min := min3 r g b in
    let l := (max + min) / 510 in
    let s :=
      if Qeq_bool max min then 0
      else if Qltb 0.5 l then (max - min) / (510 - max - min)
      else (max - min) / (max + min) in
    let saturationMultiplier := (1 - s) * (vibrance - 1) in
    let vFactor := 1 + saturationMultiplier in
    (l * 255 + (r - l * 255) * vFactor,
     l * 255 + (g - l * 255) * vFactor,
     l * 255 + (b - l * 255) * vFactor)
  else (r, g, b).

Definition isSkin (r g b : Q) : bool :=
  Qltb 95 r && Qltb 40 g && Qltb 20 b && Qltb g r && Qltb b r
  && Qltb 15 (Qabs (r - g)).

Definition blendFactor (skinSoftening texture : Q) : Q :=
  (skinSoftening * 0.6 + (if Qltb texture 0 then Qabs texture else 0)) * 0.8.

(** The skin retouch block. *)
Definition retouchBlock (disabledSections : gmap string bool)
    (fsBlurred : list Z) (skinSoftening texture dodgeBurn : Q)
    (i : nat) (r g b : Q) : Q * Q * Q :=
  if negb (isDisabled disabledSections "retouch") then
    if isSkin r g b then
      let blend := blendFactor skinSoftening texture in
      let r := r * (1 - blend) + sample fsBlurred i * blend in
      let g := g * (1 - blend) + sample fsBlurred (i + 1) * blend in
      let b := b * (1 - blend) + sample fsBlurred (i + 2) * blend in
      if Qltb 0 dodgeBurn then
        let boost := 1 + ((r + g + b) / 3 - 128) / 128 * dodgeBurn * 0.4 in
        (r * boost, g * boost, b * boost)
      else (r, g, b)
    else (r, g, b)
  else (r, g, b).

(** The body of the second loop over [pixels]. *)
Definition pixelBody (disabledSections : gmap string bool)
    (fineBlurred mediumBlurred fsBlurred : list Z)
    (texture clarity vibrance skinSoftening dodgeBurn : Q)
    (i : nat) (r g b : Q) : Q * Q * Q :=
  let '(r, g, b) := presence fineBlurred mediumBlurred texture clarity i r g b in
  let '(r, g, b) := vibranceBlock vibrance r g b in
  let '(r, g, b) :=
    retouchBlock disabledSections fsBlurred skinSoftening texture dodgeBurn
      i r g b in
  (clamp255 r, clamp255 g, clamp255 b).

Definition pixelStage (disabledSections : gmap string bool)
    (fineBlurred mediumBlurred fsBlurred : list Z)
    (texture clarity vibrance skinSoftening dodgeBurn : Q)
    (pixels : list Z) : list Z :=
  pixelLoop
    (pixelBody disabledSections fineBlurred mediumBlurred fsBlurred
       texture clarity vibrance skinSoftening dodgeBurn)
    0 pixels.

(** [preset.frequencySeparation?.radius || 8]. *)
Definition fsRadius (preset : PresetSettings) : Q :=
  orElse (FrequencySeparation.radius <$> frequencySeparation preset) 8.

(** The promise returned by [processImage], and the events of the [Image]
    element it creates. *)
Inductive PromiseState :=
| Pending
| Fulfilled (value : string)
| Rejected (reason : string).

Inductive ImageEvent :=
| load (img : Image)
| error.

(** The event handlers set on the element; an event without a handler is
    dropped. *)
Record Handlers := {
  onload : option (Image -> PromiseState -> PromiseState);
  onerror : option (PromiseState -> PromiseState)
}.

Definition dispatch (h : Handlers) (ev : ImageEvent) (st : PromiseState)
  : PromiseState :=
  match ev with
  | load img => match onload h with Some f => f img st | None => st end
  | error => match onerror h with Some f => f st | None => st end
  end.

(** [resolve(value)]: settles a pending promise, and is ignored afterwards. *)
Definition resolve (value : string) (st : PromiseState) : PromiseState :=
  match st with
  | Pending => Fulfilled value
  | _ => st
  end.

(** The constants bound by the destructuring of [manualSettings || {}]
    ([highlights] and [shadows] are bound there as well and never read). *)
Module Locals.
Record t := {
  exposure : Q; whites : Q; blacks : Q; contrast : Q;
  saturation : Q; vibrance : Q;
  texture : Q; clarity : Q; dehaze : Q; temp : Q; tint : Q;
  sharpness : Q; skinSoftening : Q;
  dodgeBurn : Q;
  sharpenRadius : Q; sharpenDetail : Q; vignette : Q;
  watermarkText : string; watermarkOpacity : Q; watermarkSize : Q;
  watermarkColor : string;
  whiteOverlay : Q; blackOverlay : Q; disabledSections : gmap string bool
}.
End Locals.

Definition destructure (manualSettings : option ManualSettings) : Locals.t :=
  let m := default emptySettings manualSettings in
  {| Locals.exposure := default 1 (num m Exposure);
     Locals.whites := default 1 (num m Whites);
     Locals.blacks := default 1 (num m Blacks);
     Locals.contrast := default 1 (num m Contrast);
     Locals.saturation := default 1 (num m Saturation);
     Locals.vibrance := default 1 (num m Vibrance);
     Locals.texture := default 0 (num m Texture);
     Locals.clarity := default 0 (num m Clarity);
     Locals.dehaze := default 0 (num m Dehaze);
     Locals.temp := default 0 (num m Temp);
     Locals.tint := default 0 (num m Tint);
     Locals.sharpness := default 0 (num m Sharpness);
     Locals.skinSoftening := default 0 (num m SkinSoftening);
     Locals.dodgeBurn := default 0 (num m DodgeBurn);
     Locals.sharpenRadius := default 1.0 (num m SharpenRadius);
     Locals.sharpenDetail := default 25 (num m SharpenDetail);
     Locals.vignette := default 0 (num m Vignette);
     Locals.watermarkText := default ""%string (str m WatermarkText);
     Locals.watermarkOpacity := default 0.8 (num m WatermarkOpacity);
     Locals.watermarkSize := default 20 (num m WatermarkSize);
     Locals.watermarkColor := default "#ffffff"%string (str m WatermarkColor);
     Locals.whiteOverlay := default 0 (num m WhiteOverlay);
     Locals.blackOverlay := default 0 (num m BlackOverlay);
     Locals.disabledSections := default ∅ (disabledSections m) |}.

Section Engine.
Context `{Canvas}.

(** Step 1, basic and colour correction: the bytes of [canvas] after it. *)
Definition basicStep (preset : PresetSettings) (L : Locals.t)
    (data : list Z) : list Z :=
  toneStage preset (Locals.disabledSections L)
    (Locals.exposure L) (Locals.whites L) (Locals.blacks L)
    (Locals.dehaze L) (Locals.temp L) (Locals.tint L) data.

(** Step 2, the CSS base: [canvas] drawn into [bufferCanvas] through the
    preset's filter string followed by the manual contrast and
    saturation. *)
Definition cssBase (preset : PresetSettings) (L : Locals.t) (w h : Z)
    (canvas : list Z) : list Z :=
  drawFiltered w h (filters preset) (Locals.contrast L) (Locals.saturation L)
    canvas.

(** Step 3, the pixel engine: the three blurred copies of [bufferCanvas],
    the unsharp mask and the second loop; the result is put back into
    [bufferCanvas]. *)
Definition pixelEngine (preset : PresetSettings) (L : Locals.t) (w h : Z)
    (bufferCanvas : list Z) : list Z :=
  let pixels := bufferCanvas in
  let fineBlurred := drawBlurred w h 2 bufferCanvas in
  let mediumBlurred := drawBlurred w h 12 bufferCanvas in
  let fsBlurred := drawBlurred w h (fsRadius preset) bufferCanvas in
  let pixels :=
    detailStage (Locals.disabledSections L)
      (Locals.sharpness L) (Locals.sharpenDetail L)
      (drawBlurred w h (Locals.sharpenRadius L) bufferCanvas) pixels in
  pixelStage (Locals.disabledSections L) fineBlurred mediumBlurred fsBlurred
    (Locals.texture L) (Locals.clarity L) (Locals.vibrance L)
    (Locals.skinSoftening L) (Locals.dodgeBurn L) pixels.

(** Step 4, effects and overlays: the manual vignette, then the tonal
    overlays. *)
Definition effectsStep (L : Locals.t) (w h : Z) (bufferCanvas : list Z)
  : list Z :=
  let bufferCanvas :=
    if Qltb 0 (Locals.vignette L)
    then fillVignette w h (Locals.vignette L) bufferCanvas
    else bufferCanvas in
  if negb (isDisabled (Locals.disabledSections L) "effects") then
    let bufferCanvas :=
      if Qltb 0 (Locals.whiteOverlay L)
      then fillOverlay w h Screen 255 (Locals.whiteOverlay L * 0.3) bufferCanvas
      else bufferCanvas in
    if Qltb 0 (Locals.blackOverlay L)
    then fillOverlay w h Multiply 0 (Locals.blackOverlay L) bufferCanvas
    else bufferCanvas
  else bufferCanvas.

(** The watermark or signature. *)
Definition watermarkStep (L : Locals.t) (w h : Z) (bufferCanvas : list Z)
  : list Z :=
  if negb (isDisabled (Locals.disabledSections L) "watermark")
     && negb (String.eqb (Locals.watermarkText L) "")
     && Qltb 0 (Locals.watermarkOpacity L)
  then
    let fontSize := (inject_Z w / 100) * Locals.watermarkSize L in
    fillWatermark w h (Locals.watermarkText L) fontSize
      (Locals.watermarkColor L) (Locals.watermarkOpacity L) bufferCanvas
  else bufferCanvas.

(** The contents of [bufferCanvas] at the end of the [onload] handler. *)
Definition render (preset : PresetSettings)
    (manualSettings : option ManualSettings) (img : Image) : list Z :=
  let L := destructure manualSettings in
  let w := width img in
  let h := height img in
  let canvas := basicStep preset L (data img) in
  let bufferCanvas := cssBase preset L w h canvas in
  let bufferCanvas := pixelEngine preset L w h bufferCanvas in
  let bufferCanvas := effectsStep L w h bufferCanvas in
  watermarkStep L w h bufferCanvas.

(** [img.onload]: the whole pipeline, ending in [resolve]. *)
Definition onloadHandler (preset : PresetSettings)
    (manualSettings : option ManualSettings) (img : Image)
    (st : PromiseState) : PromiseState :=
  resolve (toDataURL (width img) (height img) (render preset manualSettings img)) st.

(** The element as [processImage] sets it up: [onload] is assigned,
    [onerror] is not. *)
Definition imageHandlers (preset : PresetSettings)
    (manualSettings : option ManualSettings) : Handlers :=
  {| onload := Some (onloadHandler preset manualSettings);
     onerror := None |}.

(** The state of the returned promise once the browser has delivered the
    outcome of loading [imageSrc]. *)
Definition processImage (imageSrc : string) (preset : PresetSettings)
    (manualSettings : option ManualSettings) : PromiseState :=
  let ev :=
    match loadImage imageSrc with
    | Some img => load img
    | None => error
    end in
  dispatch (imageHandlers preset manualSettings) ev Pending.

End Engine.


(** Delivery of a sequence of events to the element. *)
Definition deliver (h : Handlers) (evs : list ImageEvent) (st : PromiseState)
  : PromiseState :=
  fold_left (fun st ev => dispatch h ev st) evs st.

(** ** The tone stage as the design document words it *)

Module ToneSpec.

(** The preset's contribution to the white balance; a preset without
    [colorBalance] contributes nothing. *)
Definition presetTemp (preset : PresetSettings) : Q :=
  match colorBalance preset with
  | Some cb => ColorBalance.temp cb
  | None => 0
  end.

Definition presetTint (preset : PresetSettings) : Q :=
  match colorBalance preset with
  | Some cb => ColorBalance.tint cb
  | None => 0
  end.

(** (1) r += 0.5 T, b -= 0.5 T, g -= 0.5 Tn, r += 0.25 Tn, b += 0.25 Tn. *)
Definition whiteBalance (T Tn : Q) (r g b : Q) : Q * Q * Q :=
  (r + 0.5 * T + 0.25 * Tn, g - 0.5 * Tn, b - 0.5 * T + 0.25 * Tn).

(** (2) times exposure.whites, (3) plus (blacks - 1).50, (4) the dehaze
    map when dehaze is not 0, and last the clamp to [0,255]. *)
Definition gain (exposure whites c : Q) : Q := c * (exposure * whites).

Definition offset (blacks c : Q) : Q := c + (blacks - 1) * 50.

Definition dehazeMap (dehaze c : Q) : Q :=
  if Qeq_bool dehaze 0 then c
  else (c - 128) * (1 + 0.3 * dehaze) + 128 + 15 * dehaze.

Definition clamp (c : Q) : Q :=
  if Qltb c 0 then 0 else if Qltb 255 c then 255 else c.

Definition channel (exposure whites blacks dehaze c : Q) : Q :=
  clamp (dehazeMap dehaze (offset blacks (gain exposure whites c))).

Definition pixel (preset : PresetSettings)
    (exposure whites blacks dehaze temp tint : Q) (r g b : Q) : Q * Q * Q :=
  let T := presetTemp preset + temp in
  let Tn := presetTint preset + tint in
  let '(r, g, b) := whiteBalance T Tn r g b in
  (channel exposure whites blacks dehaze r,
   channel exposure whites blacks dehaze g,
   channel exposure whites blacks dehaze b).

End ToneSpec.

(** ** Section toggles *)

(** The keys the editor toggles. *)
Definition sectionKeys : list string :=
  ["basic"; "detail"; "grading"; "effects"; "retouch"; "watermark"]%string.

(** The settings with the parameters of one section put back to the values
    that make them inert: 1 for factors, 0 for amounts, the empty text.  The
    parameters of a section are the controls of its panel in the editor
    (App.tsx): for [basic] these are temp and tint, the six tone sliders
    and the five sliders under Presence. *)
Definition resetSection (key : string) (m : ManualSettings) : ManualSettings :=
  if String.eqb key "basic" then
    setNum Temp 0 (setNum Tint 0
      (setNum Exposure 1 (setNum Contrast 1 (setNum Highlights 1
        (setNum Shadows 1 (setNum Whites 1 (setNum Blacks 1
          (setNum Texture 0 (setNum Clarity 0 (setNum Dehaze 0
            (setNum Vibrance 1 (setNum Saturation 1 m))))))))))))
  else if String.eqb key "detail" then
    setNum Sharpness 0 (setNum SharpenRadius 1.0 (setNum SharpenDetail 25
      (setNum NoiseReduction 0 m)))
  else if String.eqb key "grading" then
    setStr TintShadows "#000000" (setStr TintHighlights "#ffffff" m)
  else if String.eqb key "effects" then
    setNum Vignette 0 (setNum Grain 0 (setNum WhiteOverlay 0
      (setNum BlackOverlay 0 m)))
  else if String.eqb key "retouch" then
    setNum SkinSoftening 0 (setNum SkinTone 0 (setNum DodgeBurn 0 m))
  else if String.eqb key "watermark" then
    setStr WatermarkText "" (setNum WatermarkOpacity 0.8
      (setNum WatermarkSize 20 (setStr WatermarkColor "#ffffff" m)))
  else m.

(** ** Presets that differ in the structured members *)

(** The preset with [tonalRange], [toneCurve], [glow] and [overlay]
    replaced; [None] removes the member. *)
Definition withStructured (tr : option TonalRange.t) (tc : option ToneCurve.t)
    (gl : option Glow.t) (ov : option Overlay.t) (p : PresetSettings)
  : PresetSettings :=
  {| id := id p; name := name p; category := category p; filters := filters p;
     overlay := ov;
     aiSubjectOnly := aiSubjectOnly p;
     frequencySeparation := frequencySeparation p;
     tonalRange := tr;
     toneCurve := tc;
     colorBalance := colorBalance p;
     glow := gl;
     presetDisabledSections := presetDisabledSections p |}.

Definition withFrequencySeparation (fs : option FrequencySeparation.t)
    (p : PresetSettings) : PresetSettings :=
  {| id := id p; name := name p; category := category p; filters := filters p;
     overlay := overlay p;
     aiSubjectOnly := aiSubjectOnly p;
     frequencySeparation := fs;
     tonalRange := tonalRange p;
     toneCurve := toneCurve p;
     colorBalance := colorBalance p;
     glow := glow p;
     presetDisabledSections := presetDisabledSections p |}.

Definition withColorBalance (cb : option ColorBalance.t)
    (p : PresetSettings) : PresetSettings :=
  {| id := id p; name := name p; category := category p; filters := filters p;
     overlay := overlay p;
     aiSubjectOnly := aiSubjectOnly p;
     frequencySeparation := frequencySeparation p;
     tonalRange := tonalRange p;
     toneCurve := toneCurve p;
     colorBalance := cb;
     glow := glow p;
     presetDisabledSections := presetDisabledSections p |}.

(** ** Worked inputs *)

(** A preset with an empty filter string and no structured member. *)
Definition barePreset : PresetSettings :=
  {| id := "bare"; name := "Bare"; category := Artistic; filters := "";
     overlay := None; aiSubjectOnly := None; frequencySeparation := None;
     tonalRange := None; toneCurve := None; colorBalance := None;
     glow := None; presetDisabledSections := None |}.

(** The same preset warming the picture by 20. *)
Definition warmPreset : PresetSettings :=
  withColorBalance (Some {| ColorBalance.temp := 20; ColorBalance.tint := 0 |})
    barePreset.

(** A retouching preset whose frequency-separation radius is 0. *)
Definition zeroRadiusFS : FrequencySeparation.t :=
  {| FrequencySeparation.radius := 0;
     FrequencySeparation.intensity := 0.85;
     FrequencySeparation.toneSmoothing := None |}.

Definition zeroRadiusPreset : PresetSettings :=
  withFrequencySeparation (Some zeroRadiusFS) barePreset.

(** A uniform picture: every pixel has the three colour channels at [v]
    and takes its alpha from the list. *)
Definition uniform (v : Z) (alphas : list Z) : list Z :=
  flat_map (fun a => [v; v; v; a]) alphas.

(** A 4 x 4 opaque mid-gray picture, and a single opaque gray pixel. *)
Definition midGray4x4 : Image :=
  {| width := 4; height := 4; data := uniform 128 (repeat 255%Z 16) |}.

Definition grayPixel : Image :=
  {| width := 1; height := 1; data := [100; 100; 100; 255]%Z |}.

Definition encodeBytes (buf : list Z) : string :=
  string_of_list_ascii (map (fun z => Ascii.ascii_of_N (Z.to_N z)) buf).

(** A backend for worked examples.  Pictures are looked up by their source
    string, every drawing service hands the bytes on as they are (what a
    browser does with the neutral recipe [contrast(1) saturate(1)] on opaque
    pixels), and the encoding spells the bytes out. *)
Definition plainCanvas (images : gmap string Image) : Canvas :=
  {| loadImage := fun src => images !! src;
     drawFiltered := fun _ _ _ _ _ buf => buf;
     drawBlurred := fun _ _ _ buf => buf;
     fillVignette := fun _ _ _ buf => buf;
     fillOverlay := fun _ _ _ _ _ buf => buf;
     fillWatermark := fun _ _ _ _ _ _ buf => buf;
     toDataURL := fun _ _ buf => encodeBytes buf |}.

(** The pictures the examples load; any other source fails to decode. *)
Definition gallery : gmap string Image :=
  <["gray.png" := grayPixel]> (<["midgray.png" := midGray4x4]> ∅).


(** ** A backend on which the services act *)

(** [buf[4 p + c]], with nothing outside the picture. *)
Definition channelAt (buf : list Z) (p : Z) (c : nat) : Z :=
  if (p <? 0)%Z then 0%Z
  else default 0%Z (buf !! (4 * Z.to_nat p + c)%nat).

(** A box blur along the buffer: every channel of a pixel becomes the mean
    of that channel over the pixels at most [ceil radius] places away, the
    places outside the picture counting as transparent black. *)
Definition boxBlur (radius : Q) (buf : list Z) : list Z :=
  let R := Z.max 0 (Qceiling radius) in
  imap (fun j _ =>
          let p := Z.of_nat (j / 4) in
          let c := (j mod 4)%nat in
          (foldr Z.add 0
             (map (fun d => channelAt buf (p + d) c) (seqZ (- R) (2 * R + 1)))
           / (2 * R + 1))%Z)
    buf.

(** [contrast(c) saturate(s)] of CSS on the colour channels; the recipe of
    the preset is not interpreted. *)
Definition cssContrastSaturate (c s : Q) (buf : list Z) : list Z :=
  pixelLoop
    (fun _ r g b =>
       let r := clamp255 ((r - 127.5) * c + 127.5) in
       let g := clamp255 ((g - 127.5) * c + 127.5) in
       let b := clamp255 ((b - 127.5) * c + 127.5) in
       ((0.213 + 0.787 * s) * r + (0.715 - 0.715 * s) * g
        + (0.072 - 0.072 * s) * b,
        (0.213 - 0.213 * s) * r + (0.715 + 0.285 * s) * g
        + (0.072 - 0.072 * s) * b,
        (0.213 - 0.213 * s) * r + (0.715 - 0.715 * s) * g
        + (0.072 + 0.928 * s) * b))
    0 buf.

(** A fill of the whole canvas with the colour [(c,c,c)] at [alpha] under
    a compositing operation, on opaque pixels:
    screen(a,b) = 255 - (255 - a)(255 - b)/255, multiply(a,b) = a b/255. *)
Definition compose (op : CompositeOp) (c : Z) (alpha : Q) (x : Q) : Q :=
  let mixed :=
    match op with
    | SourceOver => inject_Z c
    | Screen => 255 - (255 - x) * (255 - inject_Z c) / 255
    | Multiply => x * inject_Z c / 255
    end in
  x * (1 - alpha) + mixed * alpha.

Definition composeAll (op : CompositeOp) (c : Z) (alpha : Q) (buf : list Z)
  : list Z :=
  pixelLoop
    (fun _ r g b => (compose op c alpha r, compose op c alpha g,
                     compose op c alpha b))
    0 buf.

(** The same fill on the first and the last pixel only, which stand for
    the rim of the picture and for the corner that takes the signature. *)
Definition composeRim (lastOnly : bool) (c : Z) (alpha : Q) (buf : list Z)
  : list Z :=
  pixelLoop
    (fun i r g b =>
       if (negb lastOnly && Nat.eqb i 0) || Nat.eqb (i + 4) (length buf) then
         (compose SourceOver c alpha r, compose SourceOver c alpha g,
          compose SourceOver c alpha b)
       else (r, g, b))
    0 buf.

(** A second backend for worked examples, whose services act on the
    picture: the filter pass applies the manual contrast and saturation,
    the blur is the box blur, the vignette darkens the rim, the overlays
    are composited by their closed forms and the signature whitens the
    last pixel.  It is a stand-in that tells the calls of the engine
    apart, not a model of a browser. *)
Definition sketchCanvas (images : gmap string Image) : Canvas :=
  {| loadImage := fun src => images !! src;
     drawFiltered := fun _ _ _ c s buf => cssContrastSaturate c s buf;
     drawBlurred := fun _ _ radius buf => boxBlur radius buf;
     fillVignette := fun _ _ alpha buf => composeRim false 0 alpha buf;
     fillOverlay := fun _ _ op c alpha buf => composeAll op c alpha buf;
     fillWatermark := fun _ _ _ _ _ opacity buf => composeRim true 255 opacity buf;
     toDataURL := fun _ _ buf => encodeBytes buf |}.

(** A row of three pixels, the first of them skin, and a row of 27 pixels
    of one skin colour. *)
Definition skinRow : Image :=
  {| width := 3; height := 1;
     data := [200; 150; 100; 255; 120; 110; 100; 255; 40; 60; 200; 255]%Z |}.

Definition flatSkinRow : Image :=
  {| width := 27; height := 1;
     data := concat (replicate 27 [200; 150; 100; 255]%Z) |}.

(** The pictures of [gallery] and the two rows. *)
Definition studio : gmap string Image :=
  <["skin.png" := skinRow]> (<["flat.png" := flatSkinRow]> gallery).

(** Skin softening at half strength and nothing else. *)
Definition softened : option ManualSettings :=
  Some (setNum SkinSoftening 0.5 emptySettings).

(** Settings that move the controls of one panel each: the tone sliders of
    Basic, the unsharp mask, the two tint colours, the two overlays, the
    retouch sliders (over a positive texture), and the signature. *)
Definition toned : ManualSettings :=
  setNum Exposure 1.2 (setNum Dehaze 0.5 (setNum Blacks 0.9
    (setNum Temp 10 emptySettings))).

Definition sharpened : ManualSettings :=
  setNum Sharpness 1.5 (setNum SharpenRadius 2 emptySettings).

Definition graded : ManualSettings :=
  setStr TintShadows "#102030" (setStr TintHighlights "#f0e0d0" emptySettings).

Definition overlaid : ManualSettings :=
  setNum WhiteOverlay 0.5 (setNum BlackOverlay 0.3 emptySettings).

Definition sculpted : ManualSettings :=
  setNum SkinSoftening 0.5 (setNum DodgeBurn 0.5
    (setNum Texture 0.3 emptySettings)).

Definition signed : ManualSettings :=
  setStr WatermarkText "Akins_studio" (setNum WatermarkOpacity 0.5
    emptySettings).

(** Texture, clarity, sharpening and skin softening at work together. *)
Definition strong : ManualSettings :=
  setNum Texture 1 (setNum Clarity (-1) (setNum Sharpness 2
    (setNum SkinSoftening 1 emptySettings))).

(** ** Predicates used in the statements *)

(** [z] is an integer nearest to [v]. *)
Definition nearestTo (v : Q) (z : Z) : Prop := Qabs (inject_Z z - v) <= 0.5.

(** A blurred copy shows, on the colour channels of the pixel at index [i],
    what the picture shows there. *)
Definition agreesAt (blurred pixels : list Z) (i : nat) : Prop :=
  sample blurred i = sample pixels i
  /\ sample blurred (i + 1) = sample pixels (i + 1)
  /\ sample blurred (i + 2) = sample pixels (i + 2).


(** ** Members of the settings object that [processImage] does not bind *)

(** The numeric members of [ManualSettings] that are absent from the
    destructuring or bound there and never read. *)
Definition unreadNumKeys : list NumKey :=
  [Highlights; Shadows; Brightness; NoiseReduction; Hue; LevelsBlack;
   LevelsWhite; AutoBrush; Curves; SkinTone; Grain].

(** Two presets that differ in everything the pipeline does not read: the
    second is a retouching preset with a name, an overlay, a subject flag
    and a frequency separation of default radius. *)
Definition namedPreset : PresetSettings :=
  {| id := "auto-retouch"; name := "Auto-Retouch"; category := Retouching;
     filters := "";
     overlay := Some {| Overlay.type := OVignette; Overlay.intensity := 0.1;
                        Overlay.color := None |};
     aiSubjectOnly := Some true;
     frequencySeparation :=
       Some {| FrequencySeparation.radius := 8;
               FrequencySeparation.intensity := 0.85;
               FrequencySeparation.toneSmoothing := Some true |};
     tonalRange := None; toneCurve := None; colorBalance := None;
     glow := None; presetDisabledSections := Some (<["basic" := true]> ∅) |}.

(** ** utils/aiEngine.ts *)

(** The loop of [createMask] over [segmentation.data], from index [i] on.
    A store beyond the end of the mask is dropped, as for every typed
    array. *)
Fixpoint maskLoop (segData : list Z) (i : nat) (mask : list Z) : list Z :=
  match segData with
  | [] => mask
  | s :: rest =>
      let isSubject := Z.eqb s 1 in
      let idx := (i * 4)%nat in
      let mask := <[idx := if isSubject then 255%Z else 0%Z]> mask in
      let mask := <[(idx + 1)%nat := if isSubject then 255%Z else 0%Z]> mask in
      let mask := <[(idx + 2)%nat := if isSubject then 255%Z else 0%Z]> mask in
      let mask := <[(idx + 3)%nat := if isSubject then 255%Z else 0%Z]> mask in
      maskLoop rest (S i) mask
  end.

(** [createMask(segmentation, width, height)], with [segData] for
    [segmentation.data]: the mask starts as [width * height * 4] zero
    bytes. *)
Definition createMask (segData : list Z) (width height : nat) : list Z :=
  maskLoop segData 0 (replicate (width * height * 4) 0%Z).

(** What [createMask] stores for the pixel [p]. *)
Definition maskValue (segData : list Z) (p : nat) : Z :=
  match segData !! p with
  | Some s => if Z.eqb s 1 then 255%Z else 0%Z
  | None => 0%Z
  end.

(** ** The table of data/presets.ts *)

(** A preset of the table, by its members in the order [id], [name],
    [category], [filters], [overlay], [frequencySeparation], [tonalRange],
    [toneCurve], [colorBalance], [glow]; no preset of the table has
    [aiSubjectOnly] or [disabledSections]. *)
Definition mkPreset (id name : string) (category : Category) (filters : string)
    (overlay : option Overlay.t)
    (frequencySeparation : option FrequencySeparation.t)
    (tonalRange : option TonalRange.t) (toneCurve : option ToneCurve.t)
    (colorBalance : option ColorBalance.t) (glow : option Glow.t)
  : PresetSettings :=
  {| id := id; name := name; category := category; filters := filters;
     overlay := overlay; aiSubjectOnly := None;
     frequencySeparation := frequencySeparation;
     tonalRange := tonalRange; toneCurve := toneCurve;
     colorBalance := colorBalance; glow := glow;
     presetDisabledSections := None |}.

(** [{ type, intensity }], [{ radius, intensity, toneSmoothing? }],
    [{ whites, blacks, highlights, shadows, dehaze? }] and
    [{ highlights, lights, darks, shadows }]. *)
Definition overlayOf (type : OverlayType) (intensity : Q) : option Overlay.t :=
  Some {| Overlay.type := type; Overlay.intensity := intensity;
          Overlay.color := None |}.

Definition fsOf (radius intensity : Q) (toneSmoothing : option bool)
  : option FrequencySeparation.t :=
  Some {| FrequencySeparation.radius := radius;
          FrequencySeparation.intensity := intensity;
          FrequencySeparation.toneSmoothing := toneSmoothing |}.

Definition tonalRangeOf (whites blacks highlights shadows : Q)
    (dehaze : option Q) : option TonalRange.t :=
  Some {| TonalRange.whites := whites; TonalRange.blacks := blacks;
          TonalRange.highlights := highlights; TonalRange.shadows := shadows;
          TonalRange.dehaze := dehaze |}.

Definition toneCurveOf (highlights lights darks shadows : Q)
  : option ToneCurve.t :=
  Some {| ToneCurve.highlights := highlights; ToneCurve.lights := lights;
          ToneCurve.darks := darks; ToneCurve.shadows := shadows |}.

Definition presets : list PresetSettings := [
  mkPreset "neural-bokeh-pro" "Neural Bokeh Pro" NeuralAI
    "brightness(1.05) saturate(1.1)"
    (overlayOf ONeuralBokeh 0.6) None None None None None;
  mkPreset "atmospheric-ray-tracing" "Atmospheric Ray-Tracing" Artistic
    "brightness(1.1) contrast(1.1) saturate(1.2)"
    (overlayOf OVolumetric 0.4) None None None None None;
  mkPreset "auto-retouch-pro" "Auto-Retouch Pro" Retouching
    "brightness(1.05) contrast(1.02) saturate(1.02)"
    (overlayOf OVignette 0.1) (fsOf 6 0.85 None) None None None None;
  mkPreset "skin-smooth-glow" "Skin Smooth & Glow" Retouching
    "brightness(1.08) contrast(0.95) saturate(1.05)"
    (overlayOf OVignette 0.05) (fsOf 12 0.9 None) None None None None;
  mkPreset "pro-portrait-polished" "Pro Portrait Polished" Retouching
    "brightness(1.1) contrast(1.05) saturate(1.05)"
    None (fsOf 8 0.75 None) None None None None;
  mkPreset "mathematic-skin-sculpt" "Mathematic Skin Sculpt" Retouching
    "brightness(1.05) contrast(1.02)"
    None (fsOf 10 0.8 None) None None None None;
  mkPreset "cinematic-gold" "Cinematic Gold" Cinematic
    "brightness(1.05) contrast(1.15) saturate(0.95) sepia(0.2) hue-rotate(-5deg)"
    (overlayOf OVignette 0.1) None None None None None;
  mkPreset "dark-moody-forest" "Dark Moody Forest" Nature
    "brightness(0.85) contrast(1.25) saturate(0.7) sepia(0.1) hue-rotate(10deg)"
    (overlayOf OVignette 0.25) None None None None None;
  mkPreset "bright-airy-wedding" "Bright & Airy Wedding" Artistic
    "brightness(1.2) contrast(0.9) saturate(1.1) sepia(0.05)"
    None None None None None None;
  mkPreset "vibrant-city" "Vibrant City" Cinematic
    "brightness(1.02) contrast(1.3) saturate(1.35)"
    None None None None None None;
  mkPreset "fine-art-bw" "Fine Art B&W" Artistic
    "grayscale(1) contrast(1.45) brightness(1.1)"
    (overlayOf OGrain 0.15) None None None None None;
  mkPreset "vintage-film" "Vintage Film" Artistic
    "sepia(0.3) brightness(1.05) contrast(0.9) saturate(0.85) blur(0.2px)"
    (overlayOf OGrain 0.35) None None None None None;
  mkPreset "warm-sunset" "Warm Sunset" Nature
    "sepia(0.4) saturate(1.4) brightness(1.1) contrast(1.1) hue-rotate(-10deg)"
    None None None None None None;
  mkPreset "cool-arctic" "Cool Arctic" Nature
    "brightness(1.15) contrast(1.1) saturate(0.85) hue-rotate(180deg) sepia(0.1)"
    None None None None None None;
  mkPreset "emerald-forest" "Emerald Forest" Nature
    "brightness(0.95) contrast(1.2) saturate(1.3) hue-rotate(20deg)"
    None None None None None None;
  mkPreset "deep-blue-sea" "Deep Blue Sea" Nature
    "brightness(1) contrast(1.2) saturate(1.5) hue-rotate(190deg)"
    None None None None None None;
  mkPreset "golden-hour-glow" "Golden Hour Glow" Artistic
    "sepia(0.5) saturate(1.5) brightness(1.15) contrast(1.05)"
    None None None None None None;
  mkPreset "pastel-dream" "Pastel Dream" Artistic
    "brightness(1.3) contrast(0.8) saturate(1.1) sepia(0.1)"
    None None None None None None;
  mkPreset "gritty-noir" "Gritty Noir" Artistic
    "grayscale(1) contrast(1.8) brightness(0.9)"
    (overlayOf OVignette 0.4) None None None None None;
  mkPreset "soft-portrait" "Soft Portrait" Retouching
    "brightness(1.1) contrast(0.95) saturate(1.05)"
    None (fsOf 15 0.6 None) None None None None;
  mkPreset "night-life-glow" "Night Life Glow" Cinematic
    "brightness(1.2) contrast(1.4) saturate(1.5) hue-rotate(-20deg)"
    None None None None None None;
  mkPreset "eye-detail-enhancer" "Eye & Detail Enhancer" Retouching
    "contrast(1.2) brightness(1.05)"
    None None None None None None;
  mkPreset "fashion-high-end" "Fashion High-End" Retouching
    "contrast(1.4) brightness(1.1) saturate(1.2)"
    None (fsOf 4 0.95 None) None None None None;
  mkPreset "soft-dreamy-skin" "Soft Dreamy Skin" Retouching
    "brightness(1.2) contrast(0.8) saturate(0.9)"
    None (fsOf 25 1.0 None) None None None None;
  mkPreset "studio-master-pro" "ðŸ‘‘ Studio Master Pro" Retouching
    "brightness(1.05)"
    None (fsOf 8 0.8 (Some true))
    (tonalRangeOf 1.12 0.86 0.62 1.32 (Some (-0.02)))
    (toneCurveOf 8 5 (-6) (-10))
    (Some {| ColorBalance.temp := 4; ColorBalance.tint := 2 |})
    (Some {| Glow.intensity := 0.25; Glow.radius := 25 |});
  mkPreset "pro-base" "Pro Base (Exposure)" Cinematic
    "brightness(1.02) contrast(1.02)"
    None None (tonalRangeOf 1.05 0.95 0.9 1.1 None) None None None;
  mkPreset "pro-skin-polish" "Pro Skin Polish" Retouching
    "brightness(1.05)"
    None (fsOf 10 0.7 None) None None None None;
  mkPreset "pro-glow-cinematic" "Pro Glow Cinematic" Artistic
    "brightness(1.1) saturate(1.1)"
    (overlayOf OVolumetric 0.2) None None (toneCurveOf 5 2 (-2) (-5)) None
    None;
  mkPreset "pro-sharpen-details" "Pro Sharpen" Retouching
    "contrast(1.05)"
    None None None None None None;
  mkPreset "ultra-studio-pro" "Ultra-Studio Pro" Retouching
    "brightness(1.1) contrast(1.15) saturate(1.2)"
    (overlayOf OVignette 0.15) (fsOf 8 0.85 None) None None None None
]%string.

(** ** App.tsx: settings *)

Definition DEFAULT_MANUAL_SETTINGS : ManualSettings :=
  {| num := fun k =>
       Some match k with
            | Exposure => 1 | Contrast => 1 | Saturation => 1
            | Sharpness => 0 | Highlights => 1 | Shadows => 1
            | Whites => 1 | Blacks => 1
            | Texture => 0 | Clarity => 0 | Dehaze => 0
            | Temp => 0 | Tint => 0
            | WhiteOverlay => 0 | BlackOverlay => 0
            | SkinSoftening => 0
            | Brightness => 1 | NoiseReduction => 0 | Hue => 0
            | LevelsBlack => 0 | LevelsWhite => 255
            | AutoBrush => 0 | Curves => 0 | Vibrance => 1
            | SkinTone => 0 | DodgeBurn => 0
            | SharpenRadius => 1.0 | SharpenDetail => 25
            | Vignette => 0 | Grain => 0
            | WatermarkOpacity => 0.8 | WatermarkSize => 20
            end;
     str := fun k =>
       Some match k with
            | TintShadows => "#000000"
            | TintHighlights => "#ffffff"
            | WatermarkText => "Akins_studio"
            | WatermarkColor => "#ffffff"
            end%string;
     disabledSections := Some ∅ |}.

(** [{ ...a, ...b }]: the members of [b], and those of [a] that [b] does
    not carry. *)
Definition spread (a b : ManualSettings) : ManualSettings :=
  {| num := fun k => match num b k with Some v => Some v | None => num a k end;
     str := fun k => match str b k with Some v => Some v | None => str a k end;
     disabledSections :=
       match disabledSections b with
       | Some ds => Some ds
       | None => disabledSections a
       end |}.

(** The updater of [toggleSection(sectionId)].  Reading a flag of an
    absent [disabledSections] throws; that is [None]. *)
Definition toggleSection (sectionId : string) (prev : ManualSettings)
  : option ManualSettings :=
  match disabledSections prev with
  | Some ds =>
      Some {| num := num prev; str := str prev;
              disabledSections :=
                Some (<[sectionId := negb (default false (ds !! sectionId))]> ds) |}
  | None => None
  end.

(** A settings object that carries every member. *)
Definition complete (m : ManualSettings) : Prop :=
  (forall k, is_Some (num m k)) /\ (forall k, is_Some (str m k))
  /\ is_Some (disabledSections m).

(** ** App.tsx: the preset kept across sessions *)

(** The initial value of [selectedPreset], with [saved] the result of
    [localStorage.getItem('mass-editor-preset')] and [presets] the table:
    [presets.find(p => p.id === saved) || presets[0]] when [saved] is
    truthy, [presets[0]] otherwise. *)
Definition initialPreset (presets : list PresetSettings) (saved : option string)
  : option PresetSettings :=
  match saved with
  | Some s =>
      if String.eqb s "" then head presets
      else match find (fun p => String.eqb (id p) s) presets with
           | Some p => Some p
           | None => head presets
           end
  | None => head presets
  end.

(** ** App.tsx: undo and redo *)

Module Entry.
Record t := { preset : PresetSettings; manual : ManualSettings }.
End Entry.

(** The four pieces of state the history handlers read and set. *)
Record AppState := {
  selectedPreset : PresetSettings;
  manualSettings : ManualSettings;
  history : list Entry.t;
  redoStack : list Entry.t
}.

Definition current (s : AppState) : Entry.t :=
  {| Entry.preset := selectedPreset s; Entry.manual := manualSettings s |}.

(** [l.slice(-n)]: the last [n] elements. *)
Definition sliceLast {A : Type} (n : nat) (l : list A) : list A :=
  drop (length l - n) l.

Definition pushToHistory (s : AppState) : AppState :=
  {| selectedPreset := selectedPreset s;
     manualSettings := manualSettings s;
     history := sliceLast 50 (history s ++ [current s]);
     redoStack := [] |}.

Definition undo (s : AppState) : AppState :=
  match last (history s) with
  | None => s
  | Some last =>
      {| selectedPreset := Entry.preset last;
         manualSettings := spread DEFAULT_MANUAL_SETTINGS (Entry.manual last);
         history := take (length (history s) - 1) (history s);
         redoStack := current s :: redoStack s |}
  end.

Definition redo (s : AppState) : AppState :=
  match redoStack s with
  | [] => s
  | next :: rest =>
      {| selectedPreset := Entry.preset next;
         manualSettings := spread DEFAULT_MANUAL_SETTINGS (Entry.manual next);
         history := history s ++ [current s];
         redoStack := rest |}
  end.

Definition selectPreset (p : PresetSettings) (s : AppState) : AppState :=
  let s := pushToHistory s in
  {| selectedPreset := p;
     manualSettings := manualSettings s;
     history := history s;
     redoStack := redoStack s |}.

(** [setManualSettings(p => ({ ...p, [key]: value }))], the handler of the
    sliders. *)
Definition updateManual (settings : ManualSettings) (s : AppState) : AppState :=
  {| selectedPreset := selectedPreset s;
     manualSettings := spread (manualSettings s) settings;
     history := history s;
     redoStack := redoStack s |}.

(** What happens to the state: the user selects a preset, moves a slider,
    toggles a section, undoes or redoes, or the catalogue is loaded and the
    settings stored with its first image are laid over the defaults. *)
Inductive Action :=
| SelectPreset (p : PresetSettings)
| UpdateManual (settings : ManualSettings)
| ToggleSection (sectionId : string)
| LoadCatalog (stored : ManualSettings)
| Undo
| Redo.

Definition step (s : AppState) (a : Action) : AppState :=
  match a with
  | SelectPreset p => selectPreset p s
  | UpdateManual settings => updateManual settings s
  | ToggleSection sectionId =>
      match toggleSection sectionId (manualSettings s) with
      | Some m =>
          {| selectedPreset := selectedPreset s;
             manualSettings := m;
             history := history s;
             redoStack := redoStack s |}
      | None => s
      end
  | LoadCatalog stored =>
      {| selectedPreset := selectedPreset s;
         manualSettings := spread DEFAULT_MANUAL_SETTINGS stored;
         history := history s;
         redoStack := redoStack s |}
  | Undo => undo s
  | Redo => redo s
  end.

(** The state when the editor opens, with the preset restored from the
    store. *)
Definition initialState (p : PresetSettings) : AppState :=
  {| selectedPreset := p;
     manualSettings := DEFAULT_MANUAL_SETTINGS;
     history := [];
     redoStack := [] |}.

(** ** App.tsx: the catalogue and its selection *)

Record FileWithId := { fileId : string; fileName : string; preview : string }.

(** [images.find(img => img.id === (selectedImageId || images[0]?.id))]. *)
Definition selectedImage (images : list FileWithId)
    (selectedImageId : option string) : option FileWithId :=
  let wanted :=
    match selectedImageId with
    | Some s => if String.eqb s "" then fileId <$> head images else Some s
    | None => fileId <$> head images
    end in
  match wanted with
  | Some w => find (fun img => String.eqb (fileId img) w) images
  | None => None
  end.

(** [removeImage(id)]: the images left and the selection afterwards. *)
Definition removeImage (id : string) (images : list FileWithId)
    (selectedImageId : option string) : list FileWithId * option string :=
  let filtered := filter (fun img => fileId img <> id) images in
  let selectedImageId :=
    match filtered with
    | first :: _ =>
        if decide (selectedImageId = Some id) then Some (fileId first)
        else selectedImageId
    | [] => None
    end in
  (filtered, selectedImageId).

(** A session for the worked examples: the editor opened on the bare
    preset, then the warm preset selected. *)
Definition sampleSession : AppState :=
  selectPreset warmPreset (initialState barePreset).

Definition sampleCatalogue : list FileWithId :=
  [ {| fileId := "a1"; fileName := "one.jpg"; preview := "blob:1" |};
    {| fileId := "b2"; fileName := "two.jpg"; preview := "blob:2" |} ]%string.

(** ** App.tsx: the assistant *)

Inductive Suggestion := BrightnessBoost | SkinPolish | LookingGood.

(** [x < t] for a member that may be absent ([undefined < t] is false). *)
Definition below (x : option Q) (t : Q) : bool :=
  match x with
  | Some v => Qltb v t
  | None => false
  end.

(** The suggestion [analyze] sets for the current settings. *)
Definition analyze (manualSettings : ManualSettings) : Suggestion :=
  if below (num manualSettings Exposure) 0.8 then BrightnessBoost
  else if below (num manualSettings SkinSoftening) 0.2 then SkinPolish
  else LookingGood.

(** The [action] of a suggestion, applied to the settings. *)
Definition accept (sg : Suggestion) (p : ManualSettings) : ManualSettings :=
  match sg with
  | BrightnessBoost => setNum Exposure 1.2 p
  | SkinPolish => setNum SkinSoftening 0.6 p
  | LookingGood => setNum Saturation 1.1 p
  end.

(** ** App.tsx: export *)

(** The character [','] (code 44). *)
Definition comma : Ascii.ascii := Ascii.ascii_of_nat 44.

(** [s.split(',')]. *)
Fixpoint splitComma (s : string) : list string :=
  match s with
  | EmptyString => [EmptyString]
  | String c rest =>
      if Ascii.eqb c comma then EmptyString :: splitComma rest
      else match splitComma rest with
           | h :: t => String c h :: t
           | [] => [String c EmptyString]
           end
  end.

(** How [processAndDownload] ends: it returns at once on an empty
    catalogue, it builds the archive and clicks the download link, or it
    stays at an [await] that never resumes, with [isProcessing] still set
    and [processedCount] at the number given.  A rejected promise would
    throw out of the loop. *)
Inductive ExportOutcome :=
| NothingToExport
| Downloaded (zip : gmap string string)
| Hung (processedCount : nat) (zip : gmap string string)
| Thrown (processedCount : nat).

Section ExportLoop.
Context `{Canvas}.

(** The loop over [images].  The object URL made for [item.file] reads the
    blob that [item.preview] reads, and stands for it here.  An entry
    added under a name already in the archive replaces it. *)
Fixpoint exportLoop (preset : PresetSettings) (manualSettings : ManualSettings)
    (items : list FileWithId) (zip : gmap string string)
    (processedCount : nat) : ExportOutcome :=
  match items with
  | [] => Downloaded zip
  | item :: rest =>
      match processImage (preview item) preset (Some manualSettings) with
      | Fulfilled processedDataUrl =>
          let zip :=
            match splitComma processedDataUrl with
            | _ :: base64Data :: _ =>
                <[("edited_" ++ fileName item)%string := base64Data]> zip
            | _ => zip
            end in
          exportLoop preset manualSettings rest zip (S processedCount)
      | Pending => Hung processedCount zip
      | Rejected _ => Thrown processedCount
      end
  end.

Definition processAndDownload (preset : PresetSettings)
    (manualSettings : ManualSettings) (images : list FileWithId)
  : ExportOutcome :=
  match images with
  | [] => NothingToExport
  | _ => exportLoop preset manualSettings images ∅ 0
  end.

End ExportLoop.

(** A string without [',']. *)
Fixpoint commaFree (s : string) : bool :=
  match s with
  | EmptyString => true
  | String c rest => negb (Ascii.eqb c comma) && commaFree rest
  end.

(** A backend for the export examples: the picture behind ["blob:1"]
    decodes, and every canvas encodes to the same short JPEG data URL. *)
Definition exportCanvas : Canvas :=
  {| loadImage := fun src =>
       if String.eqb src "blob:1" then Some grayPixel else None;
     drawFiltered := fun _ _ _ _ _ buf => buf;
     drawBlurred := fun _ _ _ buf => buf;
     fillVignette := fun _ _ _ buf => buf;
     fillOverlay := fun _ _ _ _ _ buf => buf;
     fillWatermark := fun _ _ _ _ _ _ buf => buf;
     toDataURL := fun _ _ _ => "data:image/jpeg;base64,QUJD"%string |}.

Definition firstImage : FileWithId :=
  {| fileId := "a1"; fileName := "one.jpg"; preview := "blob:1" |}.
(** ** Properties of the number model *)

Lemma Qltb_true (x y : Q) : Qltb x y = true <-> x < y.
Proof.
  unfold Qltb. rewrite negb_true_iff.
  split; intros Hxy.
  - apply Qnot_le_lt. intros Hle. apply Qle_bool_iff in Hle. congruence.
  - destruct (Qle_bool y x) eqn:E; [|reflexivity].
    apply Qle_bool_iff in E. lra.
Qed.

Lemma Qltb_false (x y : Q) : Qltb x y = false <-> y <= x.
Proof.
  unfold Qltb. rewrite negb_false_iff. apply Qle_bool_iff.
Qed.

Lemma Qneqb_false (x y : Q) : Qneqb x y = false <-> x == y.
Proof.
  unfold Qneqb. rewrite negb_false_iff. apply Qeq_bool_iff.
Qed.

#[global] Instance Qltb_proper : Proper (Qeq ==> Qeq ==> eq) Qltb.
Proof. intros x x' Hx y y' Hy. unfold Qltb. now rewrite Hx, Hy. Qed.

Lemma clamp255_range (x : Q) : 0 <= clamp255 x <= 255.
Proof.
  unfold clamp255.
  destruct (Q.min_spec 255 x) as [[? E1]|[? E1]];
    destruct (Q.max_spec 0 (Qmin 255 x)) as [[? E2]|[? E2]]; lra.
Qed.

Lemma clamp255_id (x : Q) : 0 <= x <= 255 -> clamp255 x == x.
Proof.
  intros [H0 H1]. unfold clamp255.
  destruct (Q.min_spec 255 x) as [[? E1]|[? E1]];
    destruct (Q.max_spec 0 (Qmin 255 x)) as [[? E2]|[? E2]]; lra.
Qed.

#[global] Instance clamp255_proper : Proper (Qeq ==> Qeq) clamp255.
Proof. intros x y E. unfold clamp255. now rewrite E. Qed.

#[global] Instance toUint8Clamp_proper : Proper (Qeq ==> eq) toUint8Clamp.
Proof.
  intros x y E. unfold toUint8Clamp.
  assert (Ec : Qmin (Qmax x 0) 255 == Qmin (Qmax y 0) 255) by now rewrite E.
  rewrite (Qfloor_comp _ _ Ec).
  set (f := Qfloor (Qmin (Qmax y 0) 255)).
  now rewrite !Ec.
Qed.

Lemma toUint8Clamp_range (x : Q) : is_byte (toUint8Clamp x).
Proof.
  unfold toUint8Clamp, is_byte.
  set (c := Qmin (Qmax x 0) 255).
  assert (Hc : 0 <= c <= 255).
  { unfold c.
    destruct (Q.max_spec x 0) as [[? E1]|[? E1]];
      destruct (Q.min_spec (Qmax x 0) 255) as [[? E2]|[? E2]]; lra. }
  assert (Hlo : (0 <= Qfloor c)%Z).
  { change 0%Z with (Qfloor 0). apply Qfloor_resp_le. apply Hc. }
  assert (Hhi : (Qfloor c <= 255)%Z).
  { change 255%Z with (Qfloor 255). apply Qfloor_resp_le. apply Hc. }
  assert (Hup : inject_Z (Qfloor c) + 0.5 <= c -> (Qfloor c <= 254)%Z).
  { intros Hh. rewrite <- (Qfloor_Z (Qfloor c)).
    change 254%Z with (Qfloor 254.5). apply Qfloor_resp_le. lra. }
  destruct (Qltb c (inject_Z (Qfloor c) + 0.5)) eqn:E1; [lia|].
  apply Qltb_false in E1.
  destruct (Qltb (inject_Z (Qfloor c) + 0.5) c) eqn:E2;
    [specialize (Hup E1); lia|].
  destruct (Z.even (Qfloor c)); [lia|]. specialize (Hup E1). lia.
Qed.

Lemma byte_Q (z : Z) : is_byte z -> 0 <= inject_Z z <= 255.
Proof.
  intros [H0 H1]. split.
  - change 0 with (inject_Z 0). now rewrite <- Zle_Qle.
  - change 255 with (inject_Z 255). now rewrite <- Zle_Qle.
Qed.

(** Storing a byte back leaves it as it is. *)
Lemma toUint8Clamp_byte (z : Z) : is_byte z -> toUint8Clamp (inject_Z z) = z.
Proof.
  intros [H0 H1]. unfold toUint8Clamp.
  assert (Ec : Qmin (Qmax (inject_Z z) 0) 255 == inject_Z z).
  { destruct (byte_Q z (conj H0 H1)).
    destruct (Q.max_spec (inject_Z z) 0) as [[? E1]|[? E1]];
      destruct (Q.min_spec (Qmax (inject_Z z) 0) 255) as [[? E2]|[? E2]]; lra. }
  rewrite (Qfloor_comp _ _ Ec), Qfloor_Z, !Ec.
  replace (Qltb (inject_Z z) (inject_Z z + 0.5)) with true; [reflexivity|].
  symmetry. apply Qltb_true. lra.
Qed.

Lemma toUint8Clamp_clamp255 (x : Q) : toUint8Clamp (clamp255 x) = toUint8Clamp x.
Proof.
  unfold toUint8Clamp.
  assert (Ec : Qmin (Qmax (clamp255 x) 0) 255 == Qmin (Qmax x 0) 255).
  { unfold clamp255.
    destruct (Q.min_spec 255 x) as [[? E1]|[? E1]];
      destruct (Q.max_spec 0 (Qmin 255 x)) as [[? E2]|[? E2]];
      destruct (Q.max_spec (Qmax 0 (Qmin 255 x)) 0) as [[? E3]|[? E3]];
      destruct (Q.min_spec (Qmax (Qmax 0 (Qmin 255 x)) 0) 255) as [[? E4]|[? E4]];
      destruct (Q.max_spec x 0) as [[? E5]|[? E5]];
      destruct (Q.min_spec (Qmax x 0) 255) as [[? E6]|[? E6]]; lra. }
  rewrite (Qfloor_comp _ _ Ec). now rewrite !Ec.
Qed.

(** The byte stored for a number is within one half of the number once
    clamped. *)
Lemma toUint8Clamp_near (x : Q) :
  inject_Z (toUint8Clamp x) - 0.5 <= Qmin (Qmax x 0) 255
  <= inject_Z (toUint8Clamp x) + 0.5.
Proof.
  unfold toUint8Clamp.
  set (c := Qmin (Qmax x 0) 255).
  pose proof (Qfloor_le c) as Hlo. pose proof (Qlt_floor c) as Hhi.
  rewrite inject_Z_plus in Hhi. change (inject_Z 1) with 1 in Hhi.
  destruct (Qltb c (inject_Z (Qfloor c) + 0.5)) eqn:E1.
  - apply Qltb_true in E1. lra.
  - apply Qltb_false in E1.
    destruct (Qltb (inject_Z (Qfloor c) + 0.5) c) eqn:E2.
    + rewrite inject_Z_plus. change (inject_Z 1) with 1. lra.
    + apply Qltb_false in E2.
      destruct (Z.even (Qfloor c));
        [|rewrite inject_Z_plus; change (inject_Z 1) with 1]; lra.
Qed.

(** ** Properties of the pixel loop *)

(** Induction over a buffer, one pixel at a time. *)
Lemma buffer_ind (P : list Z -> Prop) :
  P [] -> (forall x, P [x]) -> (forall x y, P [x; y]) ->
  (forall x y z, P [x; y; z]) ->
  (forall r g b a rest, P rest -> P (r :: g :: b :: a :: rest)) ->
  forall data, P data.
Proof.
  intros H0 H1 H2 H3 H4.
  fix IH 1.
  intros [|r [|g [|b [|a rest]]]];
    [apply H0 | apply H1 | apply H2 | apply H3 | apply H4, IH].
Qed.

Lemma pixelLoop_length body i data :
  length (pixelLoop body i data) = length data.
Proof.
  revert i. induction data as [| | | |r g b a rest IH] using buffer_ind;
    intros i; simpl; try reflexivity.
  destruct (body i (inject_Z r) (inject_Z g) (inject_Z b)) as [[r' g'] b'].
  simpl. now rewrite IH.
Qed.

Lemma pixelLoop_bytes body i data :
  Forall is_byte data -> Forall is_byte (pixelLoop body i data).
Proof.
  revert i. induction data as [| | | |r g b a rest IH] using buffer_ind;
    intros i Hd; simpl; try assumption.
  destruct (body i (inject_Z r) (inject_Z g) (inject_Z b)) as [[r' g'] b'].
  inversion Hd as [|? ? _ Hd1]; subst. inversion Hd1 as [|? ? _ Hd2]; subst.
  inversion Hd2 as [|? ? _ Hd3]; subst. inversion Hd3 as [|? ? Ha Hd4]; subst.
  repeat (constructor; [apply toUint8Clamp_range|]).
  constructor; [assumption|]. now apply IH.
Qed.

(** The loop never touches [data[i+3]]. *)
Lemma pixelLoop_alpha body i data (j : nat) :
  (j mod 4 = 3)%nat -> pixelLoop body i data !! j = data !! j.
Proof.
  revert i j. induction data as [| | | |r g b a rest IH] using buffer_ind;
    intros i j Hj; simpl; try reflexivity.
  destruct (body i (inject_Z r) (inject_Z g) (inject_Z b)) as [[r' g'] b'].
  destruct j as [|[|[|[|j]]]]; try discriminate; try reflexivity.
  simpl. apply IH.
  replace (S (S (S (S j)))) with (j + 1 * 4)%nat in Hj by lia.
  now rewrite Nat.Div0.mod_add in Hj.
Qed.

(** Two bodies that compute equal numbers store the same bytes. *)
Lemma pixelLoop_ext body1 body2 i data :
  (forall k r g b,
      let '(r1, g1, b1) := body1 k r g b in
      let '(r2, g2, b2) := body2 k r g b in
      r1 == r2 /\ g1 == g2 /\ b1 == b2) ->
  pixelLoop body1 i data = pixelLoop body2 i data.
Proof.
  intros Hb. revert i.
  induction data as [| | | |r g b a rest IH] using buffer_ind;
    intros i; simpl; try reflexivity.
  specialize (Hb i (inject_Z r) (inject_Z g) (inject_Z b)).
  destruct (body1 i (inject_Z r) (inject_Z g) (inject_Z b)) as [[r1 g1] b1].
  destruct (body2 i (inject_Z r) (inject_Z g) (inject_Z b)) as [[r2 g2] b2].
  destruct Hb as (Er & Eg & Eb).
  now rewrite Er, Eg, Eb, IH.
Qed.

(** A body that returns the numbers it was given leaves a buffer of bytes
    as it is. *)
Lemma pixelLoop_id body i data :
  (forall k r g b,
      0 <= r <= 255 -> 0 <= g <= 255 -> 0 <= b <= 255 ->
      let '(r', g', b') := body k r g b in r' == r /\ g' == g /\ b' == b) ->
  Forall is_byte data ->
  pixelLoop body i data = data.
Proof.
  intros Hb. revert i.
  induction data as [| | | |r g b a rest IH] using buffer_ind;
    intros i Hd; simpl; try reflexivity.
  inversion Hd as [|? ? Hr Hd1]; subst. inversion Hd1 as [|? ? Hg Hd2]; subst.
  inversion Hd2 as [|? ? Hbl Hd3]; subst. inversion Hd3 as [|? ? Ha Hd4]; subst.
  specialize (Hb i (inject_Z r) (inject_Z g) (inject_Z b)
                 (byte_Q _ Hr) (byte_Q _ Hg) (byte_Q _ Hbl)).
  destruct (body i (inject_Z r) (inject_Z g) (inject_Z b)) as [[r' g'] b'].
  destruct Hb as (Er & Eg & Eb).
  rewrite Er, Eg, Eb, !toUint8Clamp_byte, IH by assumption. reflexivity.
Qed.

(** What the loop leaves at the pixel with index [4 k]: the three numbers
    of the body, stored, and the alpha byte that was there. *)
Lemma pixelLoop_lookup body (k : nat) :
  forall (i : nat) (data : list Z) (r g b a : Z),
    data !! (4 * k)%nat = Some r -> data !! (4 * k + 1)%nat = Some g ->
    data !! (4 * k + 2)%nat = Some b -> data !! (4 * k + 3)%nat = Some a ->
    let '(r', g', b') :=
      body (i + 4 * k)%nat (inject_Z r) (inject_Z g) (inject_Z b) in
    pixelLoop body i data !! (4 * k)%nat = Some (toUint8Clamp r')
    /\ pixelLoop body i data !! (4 * k + 1)%nat = Some (toUint8Clamp g')
    /\ pixelLoop body i data !! (4 * k + 2)%nat = Some (toUint8Clamp b')
    /\ pixelLoop body i data !! (4 * k + 3)%nat = Some a.
Proof.
  induction k as [|k IH]; intros i data r g b a Hr Hg Hb Ha.
  - destruct data as [|r0 [|g0 [|b0 [|a0 rest]]]]; try discriminate.
    injection Hr as ->. injection Hg as ->. injection Hb as ->.
    injection Ha as ->.
    replace (i + 4 * 0)%nat with i by lia.
    change (4 * 0)%nat with 0%nat. cbn [pixelLoop].
    destruct (body i (inject_Z r) (inject_Z g) (inject_Z b)) as [[r' g'] b'].
    repeat split.
  - replace (4 * S k)%nat with (S (S (S (S (4 * k))))) in * by lia.
    destruct data as [|r0 [|g0 [|b0 [|a0 rest]]]]; try discriminate.
    change (rest !! (4 * k)%nat = Some r) in Hr.
    change (rest !! (4 * k + 1)%nat = Some g) in Hg.
    change (rest !! (4 * k + 2)%nat = Some b) in Hb.
    change (rest !! (4 * k + 3)%nat = Some a) in Ha.
    specialize (IH (i + 4)%nat rest r g b a Hr Hg Hb Ha).
    replace (i + 4 + 4 * k)%nat with (i + S (S (S (S (4 * k)))))%nat in IH
      by lia.
    cbn [pixelLoop].
    destruct (body i (inject_Z r0) (inject_Z g0) (inject_Z b0))
      as [[r0' g0'] b0'].
    destruct (body (i + S (S (S (S (4 * k)))))%nat
                (inject_Z r) (inject_Z g) (inject_Z b)) as [[r' g'] b'].
    exact IH.
Qed.

(** ** The scenarios of the design document, run on the model *)

(** Ties go to the even neighbour; everything else to the nearest. *)
Example toUint8Clamp_rounding :
  map toUint8Clamp [-3; 0.5; 1.5; 2.5; 153.6; 254.5; 255.5; 300]
  = [0; 0; 2; 2; 154; 254; 255; 255]%Z.
Proof. vm_compute. reflexivity. Qed.

(** [dehaze = 0.5] on (100,100,100): (100 - 128) * 1.15 + 128 + 7.5 = 103.3
    in each channel, stored as 103. *)
Example dehaze_scenario :
  (let '(r, g, b) := toneBody barePreset 1 1 1 0.5 0 0 100 100 100 in
   r == 103.3 /\ g == 103.3 /\ b == 103.3)
  /\ toneStage barePreset ∅ 1 1 1 0.5 0 0 [100; 100; 100; 255]%Z
     = [103; 103; 103; 255]%Z.
Proof. vm_compute. repeat split. Qed.

(** A skin pixel (200,150,100) with [skinSoftening = 0.5], [texture = 0],
    and (180,140,110) in the wide blur: the blend is 0.24 and red becomes
    200 * 0.76 + 180 * 0.24 = 195.2. *)
Example skin_blend_scenario :
  isSkin 200 150 100 = true
  /\ blendFactor 0.5 0 == 0.24
  /\ (let '(r, g, b) :=
        retouchBlock ∅ [180; 140; 110; 255]%Z 0.5 0 0 0 200 150 100 in
      r == 195.2 /\ g == 147.6 /\ b == 102.4).
Proof. vm_compute. repeat split. Qed.

(** ** The byte invariant *)

(** C1.  Whatever the preset and the settings, the tone loop and the
    combined presence / vibrance / retouch loop hand back a buffer whose
    every channel lies in [0,255], given a buffer of bytes (which is what
    [getImageData] supplies).  In particular every value the loops write
    lies in that range. *)
Theorem stage_outputs_are_bytes
    (preset : PresetSettings) (disabledSections : gmap string bool)
    (exposure whites blacks dehaze temp tint : Q)
    (fineBlurred mediumBlurred fsBlurred : list Z)
    (texture clarity vibrance skinSoftening dodgeBurn : Q)
    (data : list Z) :
  Forall is_byte data ->
  Forall is_byte
    (toneStage preset disabledSections exposure whites blacks dehaze temp tint
       data)
  /\ Forall is_byte
       (pixelStage disabledSections fineBlurred mediumBlurred fsBlurred
          texture clarity vibrance skinSoftening dodgeBurn data).
Proof.
  intros Hd. split.
  - unfold toneStage.
    destruct (negb (isDisabled disabledSections "basic"));
      [now apply pixelLoop_bytes | assumption].
  - unfold pixelStage. now apply pixelLoop_bytes.
Qed.

Lemma stage_outputs_are_bytes_witness :
  Forall is_byte
    (toneStage warmPreset ∅ 1.2 1 1 0.5 0 0 [250; 3; 128; 255]%Z)
  /\ Forall is_byte
       (pixelStage ∅ [0; 0; 0; 255]%Z [255; 255; 255; 255]%Z [9; 9; 9; 255]%Z
          1 1 2 1 1 [250; 3; 128; 255]%Z).
Proof.
  apply (stage_outputs_are_bytes warmPreset ∅ 1.2 1 1 0.5 0 0
           [0; 0; 0; 255]%Z [255; 255; 255; 255]%Z [9; 9; 9; 255]%Z
           1 1 2 1 1 [250; 3; 128; 255]%Z).
  repeat constructor; unfold is_byte; lia.
Defined.

(** ** Alpha *)

(** C9.  The tone loop, the unsharp-mask loop and the combined presence /
    vibrance / retouch loop keep the length of the buffer and leave every
    alpha byte (index 3 modulo 4) as it was. *)
Theorem pixel_loops_preserve_alpha
    (preset : PresetSettings) (disabledSections : gmap string bool)
    (exposure whites blacks dehaze temp tint : Q)
    (sharpness sharpenDetail : Q) (blurredData : list Z)
    (fineBlurred mediumBlurred fsBlurred : list Z)
    (texture clarity vibrance skinSoftening dodgeBurn : Q)
    (data : list Z) (j : nat) :
  (j mod 4 = 3)%nat ->
  toneStage preset disabledSections exposure whites blacks dehaze temp tint
    data !! j = data !! j
  /\ detailStage disabledSections sharpness sharpenDetail blurredData data !! j
     = data !! j
  /\ pixelStage disabledSections fineBlurred mediumBlurred fsBlurred
       texture clarity vibrance skinSoftening dodgeBurn data !! j
     = data !! j.
Proof.
  intros Hj. unfold toneStage, detailStage, pixelStage. repeat split.
  - destruct (negb (isDisabled disabledSections "basic"));
      [now apply pixelLoop_alpha | reflexivity].
  - destruct (negb (isDisabled disabledSections "detail") && Qltb 0 sharpness);
      [now apply pixelLoop_alpha | reflexivity].
  - now apply pixelLoop_alpha.
Qed.

Lemma pixel_loops_preserve_alpha_witness :
  toneStage warmPreset ∅ 1.2 1 1 0.5 0 0 [250; 3; 128; 77]%Z !! 3%nat
  = [250; 3; 128; 77]%Z !! 3%nat
  /\ detailStage ∅ 2 25 [0; 0; 0; 0]%Z [250; 3; 128; 77]%Z !! 3%nat
     = [250; 3; 128; 77]%Z !! 3%nat
  /\ pixelStage ∅ [0; 0; 0; 255]%Z [255; 255; 255; 255]%Z [9; 9; 9; 255]%Z
       1 1 2 1 1 [250; 3; 128; 77]%Z !! 3%nat
     = [250; 3; 128; 77]%Z !! 3%nat.
Proof.
  apply (pixel_loops_preserve_alpha warmPreset ∅ 1.2 1 1 0.5 0 0 2 25
           [0; 0; 0; 0]%Z [0; 0; 0; 255]%Z [255; 255; 255; 255]%Z
           [9; 9; 9; 255]%Z 1 1 2 1 1 [250; 3; 128; 77]%Z 3%nat).
  reflexivity.
Defined.

(** ** The retouch blend factor *)

Lemma blendFactor_cases (skinSoftening texture : Q) :
  (texture < 0 /\ blendFactor skinSoftening texture
                  == (skinSoftening * 0.6 - texture) * 0.8)
  \/ (0 <= texture /\ blendFactor skinSoftening texture
                      == skinSoftening * 0.6 * 0.8).
Proof.
  unfold blendFactor.
  destruct (Qltb texture 0) eqn:E.
  - left. apply Qltb_true in E. split; [assumption|].
    rewrite Qabs_neg by lra. ring.
  - right. apply Qltb_false in E. split; [assumption|]. ring.
Qed.

(** The factor is largest where skinSoftening is 1 and texture is -1. *)
Lemma blendFactor_corner : blendFactor 1 (-1) == (1 * 0.6 + 1) * 0.8.
Proof. vm_compute. reflexivity. Qed.

(** C6, as far as it holds.  For skinSoftening in [0,1] and texture in
    [-1,1] the blend factor is never negative and never above the value it
    takes at skinSoftening = 1, texture = -1.  It lies in [0,1] exactly when
    skinSoftening * 0.6 + max(0, -texture) is at most 1.25, and so for every
    texture from -0.65 up. *)
Theorem blendFactor_bounds (skinSoftening texture : Q) :
  0 <= skinSoftening <= 1 -> -1 <= texture <= 1 ->
  0 <= blendFactor skinSoftening texture <= blendFactor 1 (-1)
  /\ (blendFactor skinSoftening texture <= 1
      <-> skinSoftening * 0.6 + Qmax 0 (- texture) <= 1.25)
  /\ (-0.65 <= texture -> 0 <= blendFactor skinSoftening texture <= 1).
Proof.
  intros Hs Ht. rewrite blendFactor_corner.
  destruct (blendFactor_cases skinSoftening texture) as [[Hn E]|[Hp E]];
    rewrite E.
  - assert (Em : Qmax 0 (- texture) == - texture)
      by (apply Q.max_r; lra).
    rewrite Em. repeat split; intros; lra.
  - assert (Em : Qmax 0 (- texture) == 0) by (apply Q.max_l; lra).
    rewrite Em. repeat split; intros; lra.
Qed.

Lemma blendFactor_bounds_witness :
  0 <= blendFactor 0.5 (-0.5) <= blendFactor 1 (-1)
  /\ (blendFactor 0.5 (-0.5) <= 1 <-> 0.5 * 0.6 + Qmax 0 (- -0.5) <= 1.25)
  /\ (-0.65 <= -0.5 -> 0 <= blendFactor 0.5 (-0.5) <= 1).
Proof.
  apply (blendFactor_bounds 0.5 (-0.5)); split; vm_compute; discriminate.
Defined.

(** C6 as stated fails: at skinSoftening = 1 and texture = -1, both inside
    their ranges, the factor is 1.28. *)
Lemma blendFactor_exceeds_one :
  0 <= 1 <= 1 /\ -1 <= -1 <= 1 /\ blendFactor 1 (-1) == 1.28
  /\ ~ (0 <= blendFactor 1 (-1) <= 1).
Proof.
  repeat split; try (vm_compute; discriminate).
  intros [_ Hle]. vm_compute in Hle. apply Hle. reflexivity.
Qed.

(** ** Vibrance on gray *)

(** C7.  On a pixel with r = g = b the vibrance block returns the three
    channels it was given, whatever the vibrance. *)
Theorem vibrance_gray_unchanged (vibrance c : Q) :
  let '(r, g, b) := vibranceBlock vibrance c c c in
  r == c /\ g == c /\ b == c.
Proof.
  unfold vibranceBlock.
  destruct (Qneqb vibrance 1); [|repeat split; reflexivity].
  assert (Hmax : max3 c c c == c) by (unfold max3; now rewrite !Q.max_id).
  assert (Hmin : min3 c c c == c) by (unfold min3; now rewrite !Q.min_id).
  assert (E : Qeq_bool (max3 c c c) (min3 c c c) = true).
  { apply Qeq_bool_iff. now rewrite Hmax, Hmin. }
  rewrite E, Hmax, Hmin.
  assert (Hl : (c + c) / 510 * 255 == c) by field.
  rewrite Hl. repeat split; ring.
Qed.


(** ** The tone stage against its description *)

Lemma orElse_zero (x : option Q) :
  orElse x 0 == match x with Some v => v | None => 0 end.
Proof.
  destruct x as [v|]; simpl; [|reflexivity].
  destruct (Qeq_bool v 0) eqn:E; [|reflexivity].
  apply Qeq_bool_iff in E. now rewrite E.
Qed.

Lemma presetTemp_orElse (preset : PresetSettings) :
  orElse (ColorBalance.temp <$> colorBalance preset) 0
  == ToneSpec.presetTemp preset.
Proof.
  rewrite orElse_zero. unfold ToneSpec.presetTemp.
  destruct (colorBalance preset); reflexivity.
Qed.

Lemma presetTint_orElse (preset : PresetSettings) :
  orElse (ColorBalance.tint <$> colorBalance preset) 0
  == ToneSpec.presetTint preset.
Proof.
  rewrite orElse_zero. unfold ToneSpec.presetTint.
  destruct (colorBalance preset); reflexivity.
Qed.

Lemma spec_clamp_clamp255 (c : Q) : ToneSpec.clamp c == clamp255 c.
Proof.
  unfold ToneSpec.clamp, clamp255.
  destruct (Qltb c 0) eqn:E1; [apply Qltb_true in E1|apply Qltb_false in E1];
    [|destruct (Qltb 255 c) eqn:E2;
      [apply Qltb_true in E2|apply Qltb_false in E2]];
    destruct (Q.min_spec 255 c) as [[? F1]|[? F1]];
    destruct (Q.max_spec 0 (Qmin 255 c)) as [[? F2]|[? F2]]; lra.
Qed.

(** The numbers the first loop hands to the store are those of the
    description, channel by channel. *)
Lemma toneBody_matches_spec (preset : PresetSettings)
    (exposure whites blacks dehaze temp tint r g b : Q) :
  let '(r1, g1, b1) := toneBody preset exposure whites blacks dehaze temp tint r g b in
  let '(r2, g2, b2) :=
    ToneSpec.pixel preset exposure whites blacks dehaze temp tint r g b in
  r1 == r2 /\ g1 == g2 /\ b1 == b2.
Proof.
  unfold toneBody, ToneSpec.pixel, applyWB, ToneSpec.whiteBalance,
    ToneSpec.channel.
  pose proof (presetTemp_orElse preset) as HT.
  pose proof (presetTint_orElse preset) as HTn.
  set (T0 := orElse (ColorBalance.temp <$> colorBalance preset) 0) in *.
  set (Tn0 := orElse (ColorBalance.tint <$> colorBalance preset) 0) in *.
  unfold ToneSpec.dehazeMap, ToneSpec.offset, ToneSpec.gain, Qneqb.
  destruct (Qeq_bool dehaze 0); simpl;
    repeat split; rewrite spec_clamp_clamp255; apply clamp255_proper;
    rewrite <- ?HT, <- ?HTn; ring.
Qed.

(** The numbers the first loop hands to the store lie in [0,255]. *)
Lemma toneBody_range (preset : PresetSettings)
    (exposure whites blacks dehaze temp tint r g b : Q) :
  let '(r', g', b') :=
    toneBody preset exposure whites blacks dehaze temp tint r g b in
  0 <= r' <= 255 /\ 0 <= g' <= 255 /\ 0 <= b' <= 255.
Proof.
  unfold toneBody, applyWB. cbv zeta.
  destruct (Qneqb dehaze 0); repeat split; apply clamp255_range.
Qed.

(** A number of [0,255] is stored as an integer nearest to it. *)
Lemma toUint8Clamp_nearest (x v : Q) :
  0 <= x <= 255 -> x == v -> nearestTo v (toUint8Clamp x).
Proof.
  intros Hx E. unfold nearestTo.
  pose proof (toUint8Clamp_near x) as Hn.
  assert (Ec : Qmin (Qmax x 0) 255 == x).
  { destruct (Q.max_spec x 0) as [[? E1]|[? E1]];
      destruct (Q.min_spec (Qmax x 0) 255) as [[? E2]|[? E2]]; lra. }
  rewrite Ec in Hn. rewrite <- E.
  apply Qabs_Qle_condition. lra.
Qed.

(** C2.  With [basic] enabled the tone stage leaves, at every pixel, the
    channels obtained from the pixel's own channels by white balance with T
    and Tn the sums of the preset's and the manual temp and tint, then the
    factor exposure.whites, then the offset (blacks - 1).50, then the dehaze
    map when dehaze is not 0, then the clamp to [0,255]: the numbers handed
    to the store are these, and each byte found in the buffer afterwards is
    an integer nearest to its number (which of the two is stored when the
    number lies half way between them is left open), beside the alpha byte
    that was there.  With [basic] disabled the stage returns the buffer as
    it is.  The length of the buffer is kept in both cases. *)
Theorem toneStage_matches_spec
    (preset : PresetSettings) (disabledSections : gmap string bool)
    (exposure whites blacks dehaze temp tint : Q) (data : list Z) :
  (forall r g b : Q,
      let '(r1, g1, b1) :=
        toneBody preset exposure whites blacks dehaze temp tint r g b in
      let '(r2, g2, b2) :=
        ToneSpec.pixel preset exposure whites blacks dehaze temp tint r g b in
      r1 == r2 /\ g1 == g2 /\ b1 == b2)
  /\ length
       (toneStage preset disabledSections exposure whites blacks dehaze temp
          tint data)
     = length data
  /\ if isDisabled disabledSections "basic" then
       toneStage preset disabledSections exposure whites blacks dehaze temp
         tint data
       = data
     else
       forall (k : nat) (r g b a : Z),
         data !! (4 * k)%nat = Some r -> data !! (4 * k + 1)%nat = Some g ->
         data !! (4 * k + 2)%nat = Some b ->
         data !! (4 * k + 3)%nat = Some a ->
         let '(rs, gs, bs) :=
           ToneSpec.pixel preset exposure whites blacks dehaze temp tint
             (inject_Z r) (inject_Z g) (inject_Z b) in
         exists r' g' b' : Z,
           toneStage preset disabledSections exposure whites blacks dehaze
             temp tint data !! (4 * k)%nat = Some r'
           /\ toneStage preset disabledSections exposure whites blacks dehaze
                temp tint data !! (4 * k + 1)%nat = Some g'
           /\ toneStage preset disabledSections exposure whites blacks dehaze
                temp tint data !! (4 * k + 2)%nat = Some b'
           /\ toneStage preset disabledSections exposure whites blacks dehaze
                temp tint data !! (4 * k + 3)%nat = Some a
           /\ nearestTo rs r' /\ nearestTo gs g' /\ nearestTo bs b'.
Proof.
  split; [intros r g b; apply toneBody_matches_spec|].
  split.
  { unfold toneStage.
    destruct (negb (isDisabled disabledSections "basic"));
      [apply pixelLoop_length | reflexivity]. }
  unfold toneStage.
  destruct (isDisabled disabledSections "basic"); cbn [negb];
    [reflexivity|].
  intros k r g b a Hr Hg Hb Ha.
  pose proof (pixelLoop_lookup
                (fun _ : nat =>
                   toneBody preset exposure whites blacks dehaze temp tint)
                k 0%nat data r g b a Hr Hg Hb Ha) as Hl.
  pose proof (toneBody_matches_spec preset exposure whites blacks dehaze temp
                tint (inject_Z r) (inject_Z g) (inject_Z b)) as Hs.
  pose proof (toneBody_range preset exposure whites blacks dehaze temp tint
                (inject_Z r) (inject_Z g) (inject_Z b)) as Hrg.
  cbv beta in Hl.
  destruct (toneBody preset exposure whites blacks dehaze temp tint
              (inject_Z r) (inject_Z g) (inject_Z b)) as [[r1 g1] b1].
  destruct (ToneSpec.pixel preset exposure whites blacks dehaze temp tint
              (inject_Z r) (inject_Z g) (inject_Z b)) as [[rs gs] bs].
  destruct Hl as (L0 & L1 & L2 & L3).
  destruct Hs as (Er & Eg & Eb).
  destruct Hrg as (Rr & Rg & Rb).
  exists (toUint8Clamp r1), (toUint8Clamp g1), (toUint8Clamp b1).
  repeat split; try assumption; now apply toUint8Clamp_nearest.
Qed.

(** The statement on a warm pixel of two, where every step of the stage
    acts: the numbers are 170.23, 131.59 and 46.03, stored as 170, 132 and
    46. *)
Lemma toneStage_matches_spec_witness :
  (forall r g b : Q,
      let '(r1, g1, b1) := toneBody warmPreset 1.2 1 0.9 0.5 10 4 r g b in
      let '(r2, g2, b2) := ToneSpec.pixel warmPreset 1.2 1 0.9 0.5 10 4 r g b in
      r1 == r2 /\ g1 == g2 /\ b1 == b2)
  /\ length
       (toneStage warmPreset ∅ 1.2 1 0.9 0.5 10 4
          [9; 9; 9; 7; 120; 110; 60; 255]%Z)
     = length [9; 9; 9; 7; 120; 110; 60; 255]%Z
  /\ if isDisabled ∅ "basic" then
       toneStage warmPreset ∅ 1.2 1 0.9 0.5 10 4
         [9; 9; 9; 7; 120; 110; 60; 255]%Z
       = [9; 9; 9; 7; 120; 110; 60; 255]%Z
     else
       forall (k : nat) (r g b a : Z),
         [9; 9; 9; 7; 120; 110; 60; 255]%Z !! (4 * k)%nat = Some r ->
         [9; 9; 9; 7; 120; 110; 60; 255]%Z !! (4 * k + 1)%nat = Some g ->
         [9; 9; 9; 7; 120; 110; 60; 255]%Z !! (4 * k + 2)%nat = Some b ->
         [9; 9; 9; 7; 120; 110; 60; 255]%Z !! (4 * k + 3)%nat = Some a ->
         let '(rs, gs, bs) :=
           ToneSpec.pixel warmPreset 1.2 1 0.9 0.5 10 4
             (inject_Z r) (inject_Z g) (inject_Z b) in
         exists r' g' b' : Z,
           toneStage warmPreset ∅ 1.2 1 0.9 0.5 10 4
             [9; 9; 9; 7; 120; 110; 60; 255]%Z !! (4 * k)%nat = Some r'
           /\ toneStage warmPreset ∅ 1.2 1 0.9 0.5 10 4
                [9; 9; 9; 7; 120; 110; 60; 255]%Z !! (4 * k + 1)%nat = Some g'
           /\ toneStage warmPreset ∅ 1.2 1 0.9 0.5 10 4
                [9; 9; 9; 7; 120; 110; 60; 255]%Z !! (4 * k + 2)%nat = Some b'
           /\ toneStage warmPreset ∅ 1.2 1 0.9 0.5 10 4
                [9; 9; 9; 7; 120; 110; 60; 255]%Z !! (4 * k + 3)%nat = Some a
           /\ nearestTo rs r' /\ nearestTo gs g' /\ nearestTo bs b'.
Proof.
  exact (toneStage_matches_spec warmPreset ∅ 1.2 1 0.9 0.5 10 4
           [9; 9; 9; 7; 120; 110; 60; 255]%Z).
Defined.

(** The stage on that buffer, and on a pixel whose number lies half way:
    (28 - 128) * 1.15 + 128 + 7.5 = 20.5, to which 20 and 21 are both
    nearest. *)
Example toneStage_worked :
  toneStage warmPreset ∅ 1.2 1 0.9 0.5 10 4 [9; 9; 9; 7; 120; 110; 60; 255]%Z
  = [17; 0; 0; 7; 170; 132; 46; 255]%Z
  /\ (let '(rs, gs, bs) :=
        ToneSpec.pixel warmPreset 1.2 1 0.9 0.5 10 4 120 110 60 in
      rs == 170.23 /\ gs == 131.59 /\ bs == 46.03)
  /\ (let '(rs, gs, bs) := ToneSpec.pixel barePreset 1 1 1 0.5 0 0 28 28 28 in
      rs == 20.5 /\ nearestTo rs 20 /\ nearestTo rs 21).
Proof.
  vm_compute. repeat split; discriminate.
Qed.

(** ** The mid-gray scenario *)

Lemma pixelLoop_uniform body i (v v' : Z) (alphas : list Z) :
  (forall k, let '(r, g, b) := body k (inject_Z v) (inject_Z v) (inject_Z v) in
             toUint8Clamp r = v' /\ toUint8Clamp g = v' /\ toUint8Clamp b = v') ->
  pixelLoop body i (uniform v alphas) = uniform v' alphas.
Proof.
  intros Hb. revert i.
  induction alphas as [|a alphas IH]; intros i; simpl; [reflexivity|].
  specialize (Hb i).
  destruct (body i (inject_Z v) (inject_Z v) (inject_Z v)) as [[r g] b].
  destruct Hb as (-> & -> & ->).
  unfold uniform in IH. now rewrite IH.
Qed.

(** C8.  On a picture whose every pixel is (128,128,128), with a preset
    that has an empty filter string and no colour balance, exposure 1.2 and
    nothing else set, the tone stage leaves every colour channel at 154; and
    on a backend whose filter pass with the neutral recipe hands the bytes
    on, the picture rendered at the end is that same buffer. *)
Theorem midgray_exposure_scenario `{Canvas}
    (preset : PresetSettings) (img : Image) (alphas : list Z) :
  filters preset = ""%string ->
  colorBalance preset = None ->
  data img = uniform 128 alphas ->
  (forall buf, drawFiltered (width img) (height img) "" 1 1 buf = buf) ->
  basicStep preset (destructure (Some (setNum Exposure 1.2 emptySettings)))
    (data img)
  = uniform 154 alphas
  /\ render preset (Some (setNum Exposure 1.2 emptySettings)) img
     = uniform 154 alphas.
Proof.
  intros Hf Hcb Hd Hdraw.
  assert (Htone :
    basicStep preset (destructure (Some (setNum Exposure 1.2 emptySettings)))
      (data img) = uniform 154 alphas).
  { rewrite Hd. unfold basicStep, toneStage. simpl.
    apply pixelLoop_uniform. intros _.
    unfold toneBody. rewrite Hcb. vm_compute. repeat split. }
  split; [exact Htone|].
  unfold render. cbv zeta. rewrite Htone.
  unfold cssBase. rewrite Hf. simpl. rewrite Hdraw.
  unfold pixelEngine, detailStage, effectsStep, watermarkStep. simpl.
  unfold pixelStage. apply pixelLoop_uniform. intros k.
  vm_compute. repeat split.
Qed.

Lemma midgray_exposure_scenario_witness :
  @basicStep barePreset
    (destructure (Some (setNum Exposure 1.2 emptySettings))) (data midGray4x4)
  = uniform 154 (repeat 255%Z 16)
  /\ @render (plainCanvas gallery) barePreset
       (Some (setNum Exposure 1.2 emptySettings)) midGray4x4
     = uniform 154 (repeat 255%Z 16).
Proof.
  apply (@midgray_exposure_scenario (plainCanvas gallery) barePreset midGray4x4
           (repeat 255%Z 16)); reflexivity.
Defined.

(** ** Section toggles *)

Lemma isDisabled_insert_eq (ds : gmap string bool) (k : string) (f : bool) :
  isDisabled (<[k := f]> ds) k = f.
Proof. unfold isDisabled. now rewrite lookup_insert_eq. Qed.

Lemma isDisabled_insert_ne (ds : gmap string bool) (k k' : string) (f : bool) :
  k <> k' -> isDisabled (<[k := f]> ds) k' = isDisabled ds k'.
Proof. intros Hk. unfold isDisabled. now rewrite lookup_insert_ne. Qed.

(** Two settings objects render the same picture as soon as each step
    computes the same for both. *)
Lemma render_stepwise `{Canvas} (preset : PresetSettings)
    (mA mB : option ManualSettings) (img : Image) :
  basicStep preset (destructure mA) (data img)
  = basicStep preset (destructure mB) (data img) ->
  (forall c, cssBase preset (destructure mA) (width img) (height img) c
             = cssBase preset (destructure mB) (width img) (height img) c) ->
  (forall c, pixelEngine preset (destructure mA) (width img) (height img) c
             = pixelEngine preset (destructure mB) (width img) (height img) c) ->
  (forall c, effectsStep (destructure mA) (width img) (height img) c
             = effectsStep (destructure mB) (width img) (height img) c) ->
  (forall c, watermarkStep (destructure mA) (width img) (height img) c
             = watermarkStep (destructure mB) (width img) (height img) c) ->
  render preset mA img = render preset mB img.
Proof.
  intros E1 E2 E3 E4 E5. unfold render. cbv zeta.
  now rewrite E1, E2, E3, E4, E5.
Qed.

(** The second loop reads one flag only. *)
Lemma pixelStage_flag (ds ds' : gmap string bool)
    (fineBlurred mediumBlurred fsBlurred : list Z)
    (texture clarity vibrance skinSoftening dodgeBurn : Q) (pixels : list Z) :
  isDisabled ds "retouch" = isDisabled ds' "retouch" ->
  pixelStage ds fineBlurred mediumBlurred fsBlurred
    texture clarity vibrance skinSoftening dodgeBurn pixels
  = pixelStage ds' fineBlurred mediumBlurred fsBlurred
      texture clarity vibrance skinSoftening dodgeBurn pixels.
Proof.
  intros E. unfold pixelStage, pixelBody, retouchBlock. now rewrite E.
Qed.

(** Reading a member through [setNum] or [setStr] at given keys. *)
Ltac decide_keys :=
  repeat match goal with
    | |- context [decide (?a = ?b)] =>
        first [ rewrite (decide_True (P := a = b)) by reflexivity
              | rewrite (decide_False (P := a = b)) by discriminate ]
    end.

(** A step that reads nothing the two settings objects differ in. *)
Ltac same_step :=
  intros;
  unfold basicStep, cssBase, pixelEngine, effectsStep, watermarkStep,
    toneStage, detailStage;
  cbn -[pixelStage pixelLoop isDisabled Qltb];
  rewrite ?isDisabled_insert_ne by discriminate;
  first [ reflexivity
        | apply pixelStage_flag;
          rewrite !isDisabled_insert_ne by discriminate; reflexivity ].

Lemma toneBody_neutral (preset : PresetSettings) (r g b : Q) :
  ToneSpec.presetTemp preset == 0 -> ToneSpec.presetTint preset == 0 ->
  0 <= r <= 255 -> 0 <= g <= 255 -> 0 <= b <= 255 ->
  let '(r', g', b') := toneBody preset 1 1 1 0 0 0 r g b in
  r' == r /\ g' == g /\ b' == b.
Proof.
  intros HT HTn Hr Hg Hb.
  pose proof (toneBody_matches_spec preset 1 1 1 0 0 0 r g b) as Hs.
  destruct (toneBody preset 1 1 1 0 0 0 r g b) as [[r' g'] b'].
  unfold ToneSpec.pixel, ToneSpec.whiteBalance, ToneSpec.channel,
    ToneSpec.dehazeMap, ToneSpec.offset, ToneSpec.gain in Hs.
  change (Qeq_bool 0 0) with true in Hs. cbv beta iota zeta in Hs.
  destruct Hs as (Er & Eg & Eb).
  rewrite Er, Eg, Eb, !spec_clamp_clamp255.
  repeat split; rewrite clamp255_id; lra.
Qed.

Lemma retouchBlock_neutral (ds : gmap string bool) (fsBlurred : list Z)
    (texture : Q) (i : nat) (r g b : Q) :
  0 <= texture ->
  let '(r', g', b') := retouchBlock ds fsBlurred 0 texture 0 i r g b in
  r' == r /\ g' == g /\ b' == b.
Proof.
  intros Ht. unfold retouchBlock.
  destruct (negb (isDisabled ds "retouch")); [|repeat split; reflexivity].
  destruct (isSkin r g b); [|repeat split; reflexivity].
  replace (Qltb 0 0) with false by reflexivity.
  destruct (blendFactor_cases 0 texture) as [[Hn _]|[_ E]]; [lra|].
  cbv zeta. rewrite E. repeat split; ring.
Qed.

Lemma retouchBlock_disabled (ds : gmap string bool) (fsBlurred : list Z)
    (skinSoftening texture dodgeBurn : Q) (i : nat) (r g b : Q) :
  isDisabled ds "retouch" = true ->
  retouchBlock ds fsBlurred skinSoftening texture dodgeBurn i r g b = (r, g, b).
Proof. intros E. unfold retouchBlock. now rewrite E. Qed.

(** At texture 0, clarity 0 and vibrance 1 the second loop skips the
    presence and the vibrance blocks, and texture adds nothing to the
    blend. *)
Lemma pixelStage_presence_off (ds : gmap string bool)
    (fineBlurred mediumBlurred fsBlurred : list Z)
    (texture clarity vibrance skinSoftening dodgeBurn : Q) (pixels : list Z) :
  texture == 0 -> clarity == 0 -> vibrance == 1 ->
  pixelStage ds fineBlurred mediumBlurred fsBlurred
    texture clarity vibrance skinSoftening dodgeBurn pixels
  = pixelStage ds fineBlurred mediumBlurred fsBlurred
      0 0 1 skinSoftening dodgeBurn pixels.
Proof.
  intros Ht Hc Hv.
  unfold pixelStage, pixelBody, presence, vibranceBlock, retouchBlock,
    blendFactor.
  replace (Qneqb texture 0) with false by (symmetry; now apply Qneqb_false).
  replace (Qneqb clarity 0) with false by (symmetry; now apply Qneqb_false).
  replace (Qneqb vibrance 1) with false by (symmetry; now apply Qneqb_false).
  replace (Qltb texture 0) with false
    by (symmetry; apply Qltb_false; rewrite Ht; apply Qle_refl).
  reflexivity.
Qed.

(** C3, as far as it holds.  Disabling a section renders the same picture
    as putting the controls of that section's panel back to their inert
    values with the flag off: always so for [detail], [grading] and
    [watermark]; for [retouch] when texture is not negative; for [effects]
    when the vignette is not positive; and for [basic] only when the preset
    contributes no temp and no tint and the controls of the panel that act
    outside the block the flag guards (contrast, saturation, vibrance,
    texture and clarity) stand at their inert values already.  Contrast
    and saturation are handed to the canvas as they are and are compared
    as such. *)
Theorem section_toggle_equiv `{Canvas}
    (key : string) (preset : PresetSettings) (m : ManualSettings)
    (img : Image) (st : PromiseState) :
  key ∈ sectionKeys ->
  Forall is_byte (data img) ->
  (key = "basic"%string ->
   ToneSpec.presetTemp preset == 0 /\ ToneSpec.presetTint preset == 0
   /\ Locals.contrast (destructure (Some m)) = 1
   /\ Locals.saturation (destructure (Some m)) = 1
   /\ Locals.vibrance (destructure (Some m)) == 1
   /\ Locals.texture (destructure (Some m)) == 0
   /\ Locals.clarity (destructure (Some m)) == 0) ->
  (key = "retouch"%string -> 0 <= Locals.texture (destructure (Some m))) ->
  (key = "effects"%string -> Locals.vignette (destructure (Some m)) <= 0) ->
  onloadHandler preset (Some (setDisabled key true m)) img st
  = onloadHandler preset
      (Some (setDisabled key false (resetSection key m))) img st.
Proof.
  intros Hkey Hbytes Hbasic Hretouch Heffects.
  unfold onloadHandler. do 2 f_equal.
  unfold sectionKeys in Hkey.
  repeat (apply elem_of_cons in Hkey; destruct Hkey as [->|Hkey]);
    [..|now apply elem_of_nil in Hkey];
    apply render_stepwise; try same_step.
  - (* basic: the tone block *)
    destruct (Hbasic eq_refl) as (HT & HTn & _).
    unfold basicStep, toneStage.
    cbn -[pixelLoop isDisabled]. rewrite !isDisabled_insert_eq. simpl.
    symmetry. apply pixelLoop_id; [|assumption].
    intros _ r g b Hr Hg Hb. now apply toneBody_neutral.
  - (* basic: the filter pass *)
    destruct (Hbasic eq_refl) as (_ & _ & Hc & Hs & _).
    simpl in Hc, Hs. intros c. unfold cssBase. simpl.
    now rewrite Hc, Hs.
  - (* basic: the pixel engine *)
    destruct (Hbasic eq_refl) as (_ & _ & _ & _ & Hv & Ht & Hcl).
    simpl in Hv, Ht, Hcl. intros c.
    unfold pixelEngine, detailStage.
    cbn -[pixelStage pixelLoop isDisabled Qltb].
    rewrite !isDisabled_insert_ne by discriminate.
    rewrite (pixelStage_presence_off _ _ _ _ _ _ _ _ _ _ Ht Hcl Hv).
    apply pixelStage_flag.
    now rewrite !isDisabled_insert_ne by discriminate.
  - (* detail *)
    intros c. unfold pixelEngine, detailStage.
    cbn -[pixelStage pixelLoop isDisabled Qltb].
    rewrite !isDisabled_insert_eq. simpl.
    apply pixelStage_flag.
    now rewrite !isDisabled_insert_ne by discriminate.
  - (* effects *)
    intros c. specialize (Heffects eq_refl). simpl in Heffects.
    apply Qltb_false in Heffects.
    unfold effectsStep. cbn -[isDisabled Qltb].
    rewrite !isDisabled_insert_eq, Heffects. reflexivity.
  - (* retouch *)
    intros c. specialize (Hretouch eq_refl). simpl in Hretouch.
    unfold pixelEngine, detailStage.
    cbn -[pixelStage pixelLoop isDisabled Qltb].
    rewrite !isDisabled_insert_ne by discriminate.
    unfold pixelStage. apply pixelLoop_ext. intros k r g b.
    unfold pixelBody. decide_keys. simpl (default _ _).
    destruct (presence _ _ _ _ k r g b) as [[r1 g1] b1].
    destruct (vibranceBlock _ r1 g1 b1) as [[r2 g2] b2].
    rewrite retouchBlock_disabled by apply isDisabled_insert_eq.
    pose proof (retouchBlock_neutral
                  (<["retouch" := false]> (default ∅ (disabledSections m)))
                  (drawBlurred (width img) (height img) (fsRadius preset) c)
                  (default 0 (num m Texture)) k r2 g2 b2 Hretouch) as Hn.
    destruct (retouchBlock _ _ 0 _ 0 k r2 g2 b2) as [[r3 g3] b3].
    destruct Hn as (Er & Eg & Eb). now rewrite Er, Eg, Eb.
  - (* watermark *)
    intros c. unfold watermarkStep. cbn -[isDisabled Qltb].
    now rewrite !isDisabled_insert_eq.
Qed.

Lemma section_toggle_equiv_witness :
  @onloadHandler (sketchCanvas studio) barePreset
    (Some (setDisabled "basic" true toned)) skinRow Pending
  = @onloadHandler (sketchCanvas studio) barePreset
      (Some (setDisabled "basic" false (resetSection "basic" toned)))
      skinRow Pending
  /\ @onloadHandler (sketchCanvas studio) warmPreset
       (Some (setDisabled "detail" true sharpened)) skinRow Pending
     = @onloadHandler (sketchCanvas studio) warmPreset
         (Some (setDisabled "detail" false (resetSection "detail" sharpened)))
         skinRow Pending
  /\ @onloadHandler (sketchCanvas studio) warmPreset
       (Some (setDisabled "grading" true graded)) skinRow Pending
     = @onloadHandler (sketchCanvas studio) warmPreset
         (Some (setDisabled "grading" false (resetSection "grading" graded)))
         skinRow Pending
  /\ @onloadHandler (sketchCanvas studio) warmPreset
       (Some (setDisabled "effects" true overlaid)) skinRow Pending
     = @onloadHandler (sketchCanvas studio) warmPreset
         (Some (setDisabled "effects" false (resetSection "effects" overlaid)))
         skinRow Pending
  /\ @onloadHandler (sketchCanvas studio) barePreset
       (Some (setDisabled "retouch" true sculpted)) skinRow Pending
     = @onloadHandler (sketchCanvas studio) barePreset
         (Some (setDisabled "retouch" false (resetSection "retouch" sculpted)))
         skinRow Pending
  /\ @onloadHandler (sketchCanvas studio) warmPreset
       (Some (setDisabled "watermark" true signed)) skinRow Pending
     = @onloadHandler (sketchCanvas studio) warmPreset
         (Some (setDisabled "watermark" false
                  (resetSection "watermark" signed)))
         skinRow Pending.
Proof.
  assert (Hb : Forall is_byte (data skinRow))
    by (repeat constructor; unfold is_byte; simpl; lia).
  split; [|split; [|split; [|split; [|split]]]].
  - apply (@section_toggle_equiv (sketchCanvas studio) "basic" barePreset
             toned skinRow Pending);
      [ unfold sectionKeys; repeat constructor | exact Hb
      | intros _; repeat split; reflexivity
      | discriminate | discriminate ].
  - apply (@section_toggle_equiv (sketchCanvas studio) "detail" warmPreset
             sharpened skinRow Pending);
      [ unfold sectionKeys; repeat constructor | exact Hb
      | discriminate | discriminate | discriminate ].
  - apply (@section_toggle_equiv (sketchCanvas studio) "grading" warmPreset
             graded skinRow Pending);
      [ unfold sectionKeys; repeat constructor | exact Hb
      | discriminate | discriminate | discriminate ].
  - apply (@section_toggle_equiv (sketchCanvas studio) "effects" warmPreset
             overlaid skinRow Pending);
      [ unfold sectionKeys; repeat constructor | exact Hb
      | discriminate | discriminate
      | intros _; vm_compute; discriminate ].
  - apply (@section_toggle_equiv (sketchCanvas studio) "retouch" barePreset
             sculpted skinRow Pending);
      [ unfold sectionKeys; repeat constructor | exact Hb
      | discriminate
      | intros _; vm_compute; discriminate
      | discriminate ].
  - apply (@section_toggle_equiv (sketchCanvas studio) "watermark" warmPreset
             signed skinRow Pending);
      [ unfold sectionKeys; repeat constructor | exact Hb
      | discriminate | discriminate | discriminate ].
Defined.

(** On these inputs the sections are at work: with the flag off and the
    settings as they are, the picture is not the one rendered with the
    section disabled ([grading] apart, which the engine never reads). *)
Example sections_at_work :
  @render (sketchCanvas studio) barePreset (Some toned) skinRow
  <> @render (sketchCanvas studio) barePreset
       (Some (setDisabled "basic" true toned)) skinRow
  /\ @render (sketchCanvas studio) warmPreset (Some sharpened) skinRow
     <> @render (sketchCanvas studio) warmPreset
          (Some (setDisabled "detail" true sharpened)) skinRow
  /\ @render (sketchCanvas studio) warmPreset (Some overlaid) skinRow
     <> @render (sketchCanvas studio) warmPreset
          (Some (setDisabled "effects" true overlaid)) skinRow
  /\ @render (sketchCanvas studio) barePreset (Some sculpted) skinRow
     <> @render (sketchCanvas studio) barePreset
          (Some (setDisabled "retouch" true sculpted)) skinRow
  /\ @render (sketchCanvas studio) warmPreset (Some signed) skinRow
     <> @render (sketchCanvas studio) warmPreset
          (Some (setDisabled "watermark" true signed)) skinRow.
Proof.
  repeat split; vm_compute; discriminate.
Qed.

(** None of the side conditions can be dropped.  On the same backend and
    picture the two runs differ for [basic] with a preset without colour
    balance as soon as texture is 1 (texture acts in the second loop,
    outside the guarded block), for [effects] with a vignette of 0.5 (the
    vignette is drawn whatever the flag), and for [retouch] with texture
    at -0.5 (which enters the blend though it is no control of that
    panel). *)
Example section_toggle_limits :
  @render (sketchCanvas studio) barePreset
    (Some (setDisabled "basic" true (setNum Texture 1 emptySettings))) skinRow
  <> @render (sketchCanvas studio) barePreset
       (Some (setDisabled "basic" false
                (resetSection "basic" (setNum Texture 1 emptySettings))))
       skinRow
  /\ @render (sketchCanvas studio) barePreset
       (Some (setDisabled "effects" true (setNum Vignette 0.5 emptySettings)))
       skinRow
     <> @render (sketchCanvas studio) barePreset
          (Some (setDisabled "effects" false
                   (resetSection "effects"
                      (setNum Vignette 0.5 emptySettings))))
          skinRow
  /\ @render (sketchCanvas studio) barePreset
       (Some (setDisabled "retouch" true (setNum Texture (-0.5) emptySettings)))
       skinRow
     <> @render (sketchCanvas studio) barePreset
          (Some (setDisabled "retouch" false
                   (resetSection "retouch"
                      (setNum Texture (-0.5) emptySettings))))
          skinRow.
Proof.
  repeat split; vm_compute; discriminate.
Qed.

(** C3 as stated fails for [basic].  A preset that warms the picture by 20
    keeps doing so when every basic parameter is inert and the flag is off,
    whereas the disabled section skips the white balance altogether: a gray
    pixel (100,100,100) stays as it is in the first run and becomes
    (110,100,90) in the second. *)
Lemma section_toggle_basic_differs :
  "basic"%string ∈ sectionKeys
  /\ @render (plainCanvas gallery) warmPreset
       (Some (setDisabled "basic" true emptySettings)) grayPixel
     = [100; 100; 100; 255]%Z
  /\ @render (plainCanvas gallery) warmPreset
       (Some (setDisabled "basic" false (resetSection "basic" emptySettings)))
       grayPixel
     = [110; 100; 90; 255]%Z
  /\ @onloadHandler (plainCanvas gallery) warmPreset
       (Some (setDisabled "basic" true emptySettings)) grayPixel Pending
     <> @onloadHandler (plainCanvas gallery) warmPreset
          (Some (setDisabled "basic" false (resetSection "basic" emptySettings)))
          grayPixel Pending.
Proof.
  split; [unfold sectionKeys; constructor|].
  split; [vm_compute; reflexivity|].
  split; [vm_compute; reflexivity|].
  vm_compute. discriminate.
Qed.

(** ** The structured members of a preset *)

Lemma render_ignores_structured `{Canvas} (preset : PresetSettings)
    (tr : option TonalRange.t) (tc : option ToneCurve.t)
    (gl : option Glow.t) (ov : option Overlay.t)
    (manualSettings : option ManualSettings) (img : Image) :
  render (withStructured tr tc gl ov preset) manualSettings img
  = render preset manualSettings img.
Proof. reflexivity. Qed.

Lemma processImage_ignores_structured `{Canvas} (imageSrc : string)
    (preset : PresetSettings)
    (tr : option TonalRange.t) (tc : option ToneCurve.t)
    (gl : option Glow.t) (ov : option Overlay.t)
    (manualSettings : option ManualSettings) :
  processImage imageSrc (withStructured tr tc gl ov preset) manualSettings
  = processImage imageSrc preset manualSettings.
Proof.
  unfold processImage. destruct (loadImage imageSrc) as [img|]; [|reflexivity].
  simpl. unfold onloadHandler. now rewrite render_ignores_structured.
Qed.

(** C4, as the code has it.  The pipeline reads none of [tonalRange],
    [toneCurve], [glow] and [overlay]: whatever these four members hold, set
    or absent, the call settles in the same way with the same picture. *)
Theorem structured_fields_not_consulted `{Canvas} (imageSrc : string)
    (preset : PresetSettings)
    (tr tr' : option TonalRange.t) (tc tc' : option ToneCurve.t)
    (gl gl' : option Glow.t) (ov ov' : option Overlay.t)
    (manualSettings : option ManualSettings) :
  processImage imageSrc (withStructured tr tc gl ov preset) manualSettings
  = processImage imageSrc (withStructured tr' tc' gl' ov' preset) manualSettings.
Proof.
  now rewrite !processImage_ignores_structured.
Qed.

(** C4 as stated fails: there is no backend, picture, settings object and
    preset for which setting any of the four members changes the outcome. *)
Lemma no_structured_field_changes_output :
  ~ exists (cv : Canvas) (imageSrc : string) (preset : PresetSettings)
      (manualSettings : option ManualSettings)
      (tr : option TonalRange.t) (tc : option ToneCurve.t)
      (gl : option Glow.t) (ov : option Overlay.t),
      @processImage cv imageSrc (withStructured tr tc gl ov preset) manualSettings
      <> @processImage cv imageSrc (withStructured None None None None preset)
           manualSettings.
Proof.
  intros (cv & imageSrc & preset & manualSettings & tr & tc & gl & ov & Hne).
  apply Hne. now rewrite !processImage_ignores_structured.
Qed.

(** ** A source that fails to decode *)

Lemma deliver_errors_pending (h : Handlers) (evs : list ImageEvent) :
  onerror h = None -> Forall (fun ev => ev = error) evs ->
  deliver h evs Pending = Pending.
Proof.
  intros Hh Hevs. unfold deliver.
  induction Hevs as [|ev evs -> _ IH]; simpl; [reflexivity|].
  now rewrite Hh.
Qed.

(** C5, what the code does.  When the source fails to decode, the promise
    returned by [processImage] is left pending: it is neither fulfilled nor
    rejected, and no number of further [error] events settles it. *)
Theorem decode_failure_leaves_promise_pending `{Canvas} (imageSrc : string)
    (preset : PresetSettings) (manualSettings : option ManualSettings) :
  loadImage imageSrc = None ->
  processImage imageSrc preset manualSettings = Pending
  /\ (forall reason, processImage imageSrc preset manualSettings <> Rejected reason)
  /\ (forall value, processImage imageSrc preset manualSettings <> Fulfilled value)
  /\ (forall evs, Forall (fun ev => ev = error) evs ->
        deliver (imageHandlers preset manualSettings) evs
          (processImage imageSrc preset manualSettings)
        = Pending).
Proof.
  intros Hload.
  assert (E : processImage imageSrc preset manualSettings = Pending).
  { unfold processImage. now rewrite Hload. }
  rewrite E. repeat split; try discriminate.
  intros evs Hevs. now apply deliver_errors_pending.
Qed.

Lemma decode_failure_leaves_promise_pending_witness :
  @processImage (plainCanvas gallery) "broken.png" barePreset None = Pending
  /\ (forall reason,
        @processImage (plainCanvas gallery) "broken.png" barePreset None
        <> Rejected reason)
  /\ (forall value,
        @processImage (plainCanvas gallery) "broken.png" barePreset None
        <> Fulfilled value)
  /\ (forall evs, Forall (fun ev => ev = error) evs ->
        deliver (@imageHandlers (plainCanvas gallery) barePreset None) evs
          (@processImage (plainCanvas gallery) "broken.png" barePreset None)
        = Pending).
Proof.
  apply (@decode_failure_leaves_promise_pending (plainCanvas gallery)
           "broken.png" barePreset None).
  reflexivity.
Defined.
(** ** The radius of the frequency-separation blur *)

(** The second loop on a skin pixel of an enabled retouch section, with
    presence, vibrance and dodge and burn idle. *)
Lemma pixelBody_skin (ds : gmap string bool)
    (fineBlurred mediumBlurred fsBlurred : list Z)
    (texture clarity vibrance skinSoftening dodgeBurn : Q)
    (i : nat) (r g b : Q) :
  texture == 0 -> clarity == 0 -> vibrance == 1 -> dodgeBurn <= 0 ->
  isDisabled ds "retouch" = false -> isSkin r g b = true ->
  pixelBody ds fineBlurred mediumBlurred fsBlurred
    texture clarity vibrance skinSoftening dodgeBurn i r g b
  = (clamp255 (r * (1 - blendFactor skinSoftening texture)
               + sample fsBlurred i * blendFactor skinSoftening texture),
     clamp255 (g * (1 - blendFactor skinSoftening texture)
               + sample fsBlurred (i + 1) * blendFactor skinSoftening texture),
     clamp255 (b * (1 - blendFactor skinSoftening texture)
               + sample fsBlurred (i + 2) * blendFactor skinSoftening texture)).
Proof.
  intros Ht Hc Hv Hdb Hen Hskin.
  unfold pixelBody, presence, vibranceBlock, retouchBlock.
  replace (Qneqb texture 0) with false by (symmetry; now apply Qneqb_false).
  replace (Qneqb clarity 0) with false by (symmetry; now apply Qneqb_false).
  replace (Qneqb vibrance 1) with false by (symmetry; now apply Qneqb_false).
  replace (Qltb 0 dodgeBurn) with false by (symmetry; now apply Qltb_false).
  now rewrite Hen, Hskin.
Qed.

(** C10.  A preset whose [frequencySeparation.radius] is 0 has its blur
    drawn at radius 8.  The radius read by the pipeline is 8; the blurred
    copy handed to the second loop for the skin retouch is the one the
    canvas draws at 8, beside the copies at 2 and at 12; a skin pixel comes
    out of step 3 blended with what that copy, drawn at 8, shows at its
    place (with sharpening, presence, vibrance and dodge and burn idle, so
    that nothing else acts on it); and the picture rendered is the one
    rendered for the same preset with the radius set to 8. *)
Theorem zero_radius_falls_back_to_8 `{Canvas}
    (preset : PresetSettings) (fs : FrequencySeparation.t)
    (manualSettings : option ManualSettings) (img : Image)
    (L : Locals.t) (w h : Z) (bufferCanvas : list Z) :
  frequencySeparation preset = Some fs ->
  FrequencySeparation.radius fs == 0 ->
  fsRadius preset = 8
  /\ pixelEngine preset L w h bufferCanvas
     = pixelStage (Locals.disabledSections L)
         (drawBlurred w h 2 bufferCanvas)
         (drawBlurred w h 12 bufferCanvas)
         (drawBlurred w h 8 bufferCanvas)
         (Locals.texture L) (Locals.clarity L) (Locals.vibrance L)
         (Locals.skinSoftening L) (Locals.dodgeBurn L)
         (detailStage (Locals.disabledSections L)
            (Locals.sharpness L) (Locals.sharpenDetail L)
            (drawBlurred w h (Locals.sharpenRadius L) bufferCanvas)
            bufferCanvas)
  /\ (forall (k : nat) (r g b a : Z),
        bufferCanvas !! (4 * k)%nat = Some r ->
        bufferCanvas !! (4 * k + 1)%nat = Some g ->
        bufferCanvas !! (4 * k + 2)%nat = Some b ->
        bufferCanvas !! (4 * k + 3)%nat = Some a ->
        Locals.sharpness L <= 0 ->
        Locals.texture L == 0 -> Locals.clarity L == 0 ->
        Locals.vibrance L == 1 -> Locals.dodgeBurn L <= 0 ->
        isDisabled (Locals.disabledSections L) "retouch" = false ->
        isSkin (inject_Z r) (inject_Z g) (inject_Z b) = true ->
        pixelEngine preset L w h bufferCanvas !! (4 * k)%nat
        = Some (toUint8Clamp
                  (inject_Z r
                   * (1 - blendFactor (Locals.skinSoftening L)
                            (Locals.texture L))
                   + sample (drawBlurred w h 8 bufferCanvas) (4 * k)
                     * blendFactor (Locals.skinSoftening L)
                         (Locals.texture L)))
        /\ pixelEngine preset L w h bufferCanvas !! (4 * k + 1)%nat
           = Some (toUint8Clamp
                     (inject_Z g
                      * (1 - blendFactor (Locals.skinSoftening L)
                               (Locals.texture L))
                      + sample (drawBlurred w h 8 bufferCanvas) (4 * k + 1)
                        * blendFactor (Locals.skinSoftening L)
                            (Locals.texture L)))
        /\ pixelEngine preset L w h bufferCanvas !! (4 * k + 2)%nat
           = Some (toUint8Clamp
                     (inject_Z b
                      * (1 - blendFactor (Locals.skinSoftening L)
                               (Locals.texture L))
                      + sample (drawBlurred w h 8 bufferCanvas) (4 * k + 2)
                        * blendFactor (Locals.skinSoftening L)
                            (Locals.texture L)))
        /\ pixelEngine preset L w h bufferCanvas !! (4 * k + 3)%nat = Some a)
  /\ render preset manualSettings img
     = render
         (withFrequencySeparation
            (Some {| FrequencySeparation.radius := 8;
                     FrequencySeparation.intensity :=
                       FrequencySeparation.intensity fs;
                     FrequencySeparation.toneSmoothing :=
                       FrequencySeparation.toneSmoothing fs |})
            preset)
         manualSettings img.
Proof.
  intros Hfs Hr.
  assert (E : fsRadius preset = 8).
  { unfold fsRadius. rewrite Hfs. simpl.
    apply Qeq_bool_iff in Hr. now rewrite Hr. }
  split; [exact E|]. split; [|split].
  - unfold pixelEngine. cbv zeta. now rewrite E.
  - intros k r g b a Er Eg Eb Ea Hsh Ht Hc Hv Hdb Hen Hskin.
    unfold pixelEngine, detailStage. cbv zeta. rewrite E.
    replace (Qltb 0 (Locals.sharpness L)) with false
      by (symmetry; now apply Qltb_false).
    rewrite andb_false_r. unfold pixelStage.
    pose proof (pixelLoop_lookup
                  (pixelBody (Locals.disabledSections L)
                     (drawBlurred w h 2 bufferCanvas)
                     (drawBlurred w h 12 bufferCanvas)
                     (drawBlurred w h 8 bufferCanvas)
                     (Locals.texture L) (Locals.clarity L)
                     (Locals.vibrance L) (Locals.skinSoftening L)
                     (Locals.dodgeBurn L))
                  k 0%nat bufferCanvas r g b a Er Eg Eb Ea) as Hl.
    cbn [Nat.add] in Hl.
    rewrite (pixelBody_skin _ _ _ _ _ _ _ _ _ _ _ _ _ Ht Hc Hv Hdb Hen Hskin)
      in Hl.
    rewrite !toUint8Clamp_clamp255 in Hl. exact Hl.
  - unfold render, pixelEngine. rewrite E. reflexivity.
Qed.

Lemma zero_radius_falls_back_to_8_witness :
  fsRadius zeroRadiusPreset = 8
  /\ @pixelEngine (sketchCanvas studio) zeroRadiusPreset
       (destructure softened) 3 1 (data skinRow)
     = pixelStage (Locals.disabledSections (destructure softened))
         (@drawBlurred (sketchCanvas studio) 3 1 2 (data skinRow))
         (@drawBlurred (sketchCanvas studio) 3 1 12 (data skinRow))
         (@drawBlurred (sketchCanvas studio) 3 1 8 (data skinRow))
         (Locals.texture (destructure softened))
         (Locals.clarity (destructure softened))
         (Locals.vibrance (destructure softened))
         (Locals.skinSoftening (destructure softened))
         (Locals.dodgeBurn (destructure softened))
         (detailStage (Locals.disabledSections (destructure softened))
            (Locals.sharpness (destructure softened))
            (Locals.sharpenDetail (destructure softened))
            (@drawBlurred (sketchCanvas studio) 3 1
               (Locals.sharpenRadius (destructure softened)) (data skinRow))
            (data skinRow))
  /\ (forall (k : nat) (r g b a : Z),
        data skinRow !! (4 * k)%nat = Some r ->
        data skinRow !! (4 * k + 1)%nat = Some g ->
        data skinRow !! (4 * k + 2)%nat = Some b ->
        data skinRow !! (4 * k + 3)%nat = Some a ->
        Locals.sharpness (destructure softened) <= 0 ->
        Locals.texture (destructure softened) == 0 ->
        Locals.clarity (destructure softened) == 0 ->
        Locals.vibrance (destructure softened) == 1 ->
        Locals.dodgeBurn (destructure softened) <= 0 ->
        isDisabled (Locals.disabledSections (destructure softened)) "retouch"
        = false ->
        isSkin (inject_Z r) (inject_Z g) (inject_Z b) = true ->
        @pixelEngine (sketchCanvas studio) zeroRadiusPreset
          (destructure softened) 3 1 (data skinRow) !! (4 * k)%nat
        = Some (toUint8Clamp
                  (inject_Z r
                   * (1 - blendFactor
                            (Locals.skinSoftening (destructure softened))
                            (Locals.texture (destructure softened)))
                   + sample
                       (@drawBlurred (sketchCanvas studio) 3 1 8
                          (data skinRow)) (4 * k)
                     * blendFactor
                         (Locals.skinSoftening (destructure softened))
                         (Locals.texture (destructure softened))))
        /\ @pixelEngine (sketchCanvas studio) zeroRadiusPreset
             (destructure softened) 3 1 (data skinRow) !! (4 * k + 1)%nat
           = Some (toUint8Clamp
                     (inject_Z g
                      * (1 - blendFactor
                               (Locals.skinSoftening (destructure softened))
                               (Locals.texture (destructure softened)))
                      + sample
                          (@drawBlurred (sketchCanvas studio) 3 1 8
                             (data skinRow)) (4 * k + 1)
                        * blendFactor
                            (Locals.skinSoftening (destructure softened))
                            (Locals.texture (destructure softened))))
        /\ @pixelEngine (sketchCanvas studio) zeroRadiusPreset
             (destructure softened) 3 1 (data skinRow) !! (4 * k + 2)%nat
           = Some (toUint8Clamp
                     (inject_Z b
                      * (1 - blendFactor
                               (Locals.skinSoftening (destructure softened))
                               (Locals.texture (destructure softened)))
                      + sample
                          (@drawBlurred (sketchCanvas studio) 3 1 8
                             (data skinRow)) (4 * k + 2)
                        * blendFactor
                            (Locals.skinSoftening (destructure softened))
                            (Locals.texture (destructure softened))))
        /\ @pixelEngine (sketchCanvas studio) zeroRadiusPreset
             (destructure softened) 3 1 (data skinRow) !! (4 * k + 3)%nat
           = Some a)
  /\ @render (sketchCanvas studio) zeroRadiusPreset softened skinRow
     = @render (sketchCanvas studio)
         (withFrequencySeparation
            (Some {| FrequencySeparation.radius := 8;
                     FrequencySeparation.intensity :=
                       FrequencySeparation.intensity zeroRadiusFS;
                     FrequencySeparation.toneSmoothing :=
                       FrequencySeparation.toneSmoothing zeroRadiusFS |})
            zeroRadiusPreset)
         softened skinRow.
Proof.
  apply (@zero_radius_falls_back_to_8 (sketchCanvas studio) zeroRadiusPreset
           zeroRadiusFS softened skinRow (destructure softened) 3 1
           (data skinRow)); reflexivity.
Defined.

(** On the backend whose blur is the box blur the radius shows in the
    picture.  The skin pixel (200,150,100) is blended with the blur at 8,
    which is (21,18,23) there, and becomes (157,118,82); a blur at 0 is the
    picture itself and would leave the pixel as it is; and a preset asking
    for radius 3 gets another picture. *)
Example zero_radius_shows :
  @render (sketchCanvas studio) zeroRadiusPreset softened skinRow
  = [157; 118; 82; 255; 120; 110; 100; 255; 40; 60; 200; 255]%Z
  /\ @drawBlurred (sketchCanvas studio) 3 1 8 (data skinRow)
     = [21; 18; 23; 45; 21; 18; 23; 45; 21; 18; 23; 45]%Z
  /\ @drawBlurred (sketchCanvas studio) 3 1 0 (data skinRow) = data skinRow
  /\ pixelStage ∅ (data skinRow) (data skinRow) (data skinRow)
       0 0 1 0.5 0 (data skinRow)
     = data skinRow
  /\ @render (sketchCanvas studio)
       (withFrequencySeparation
          (Some {| FrequencySeparation.radius := 3;
                   FrequencySeparation.intensity := 0.85;
                   FrequencySeparation.toneSmoothing := None |})
          barePreset)
       softened skinRow
     <> @render (sketchCanvas studio) zeroRadiusPreset softened skinRow.
Proof.
  repeat split; try (vm_compute; reflexivity).
  vm_compute. discriminate.
Qed.


(** * Further properties of the engine *)

(** ** Shape of the buffers *)

(** X1.  The three pixel loops return a buffer of the length they were
    given. *)
Theorem stages_preserve_length
    (preset : PresetSettings) (disabledSections : gmap string bool)
    (exposure whites blacks dehaze temp tint : Q)
    (sharpness sharpenDetail : Q) (blurredData : list Z)
    (fineBlurred mediumBlurred fsBlurred : list Z)
    (texture clarity vibrance skinSoftening dodgeBurn : Q)
    (data : list Z) :
  length (toneStage preset disabledSections exposure whites blacks dehaze
            temp tint data) = length data
  /\ length (detailStage disabledSections sharpness sharpenDetail blurredData
               data) = length data
  /\ length (pixelStage disabledSections fineBlurred mediumBlurred fsBlurred
               texture clarity vibrance skinSoftening dodgeBurn data)
     = length data.
Proof.
  unfold toneStage, detailStage, pixelStage. repeat split.
  - destruct (negb (isDisabled disabledSections "basic"));
      [apply pixelLoop_length | reflexivity].
  - destruct (negb (isDisabled disabledSections "detail") && Qltb 0 sharpness);
      [apply pixelLoop_length | reflexivity].
  - apply pixelLoop_length.
Qed.

(** X2.  The unsharp mask keeps the buffer a buffer of bytes; so does the
    whole of step 3, whatever the blurred copies hold. *)
Theorem pixelEngine_outputs_bytes `{Canvas}
    (preset : PresetSettings) (L : Locals.t) (w h : Z)
    (blurredData : list Z) (bufferCanvas : list Z) :
  Forall is_byte bufferCanvas ->
  Forall is_byte
    (detailStage (Locals.disabledSections L) (Locals.sharpness L)
       (Locals.sharpenDetail L) blurredData bufferCanvas)
  /\ Forall is_byte (pixelEngine preset L w h bufferCanvas).
Proof.
  intros Hb.
  assert (Hd : forall bl,
    Forall is_byte
      (detailStage (Locals.disabledSections L) (Locals.sharpness L)
         (Locals.sharpenDetail L) bl bufferCanvas)).
  { intros bl. unfold detailStage.
    destruct (negb (isDisabled (Locals.disabledSections L) "detail")
              && Qltb 0 (Locals.sharpness L));
      [now apply pixelLoop_bytes | assumption]. }
  split; [apply Hd|].
  unfold pixelEngine, pixelStage. apply pixelLoop_bytes, Hd.
Qed.

Lemma pixelEngine_outputs_bytes_witness :
  Forall is_byte
    (detailStage ∅ 2 25 [0; 0; 0; 0]%Z [250; 3; 128; 255]%Z)
  /\ Forall is_byte
       (@pixelEngine (plainCanvas gallery) warmPreset
          (destructure (Some (setNum Sharpness 2 emptySettings))) 1 1
          [250; 3; 128; 255]%Z).
Proof.
  apply (@pixelEngine_outputs_bytes (plainCanvas gallery) warmPreset
           (destructure (Some (setNum Sharpness 2 emptySettings))) 1 1
           [0; 0; 0; 0]%Z [250; 3; 128; 255]%Z).
  repeat constructor; unfold is_byte; lia.
Defined.

(** ** White balance *)

(** X3.  The white balance moves light between the channels without
    adding or removing any: the sum of the three channels is kept, for
    every temp and tint. *)
Theorem applyWB_preserves_sum (r g b t tn : Q) :
  let '(r', g', b') := applyWB r g b t tn in
  r' + g' + b' == r + g + b.
Proof. unfold applyWB. ring. Qed.

(** ** The radius of the wide blur *)

(** X4.  The frequency-separation blur is never drawn at radius 0: the
    radius is 8 when the preset has no [frequencySeparation] or a zero
    radius, and the preset's own radius otherwise. *)
Theorem fsRadius_never_zero (preset : PresetSettings) :
  ~ fsRadius preset == 0
  /\ (frequencySeparation preset = None -> fsRadius preset = 8)
  /\ (forall fs, frequencySeparation preset = Some fs ->
        ~ FrequencySeparation.radius fs == 0 ->
        fsRadius preset = FrequencySeparation.radius fs).
Proof.
  unfold fsRadius. repeat split.
  - destruct (frequencySeparation preset) as [fs|]; simpl.
    + destruct (Qeq_bool (FrequencySeparation.radius fs) 0) eqn:E.
      * intros H8. vm_compute in H8. discriminate.
      * intros H0. apply Qeq_bool_iff in H0. congruence.
    + intros H8. vm_compute in H8. discriminate.
  - intros ->. reflexivity.
  - intros fs -> Hnz. simpl.
    destruct (Qeq_bool (FrequencySeparation.radius fs) 0) eqn:E;
      [|reflexivity].
    apply Qeq_bool_iff in E. contradiction.
Qed.

(** ** The skin test *)

(** X5.  A pixel passes the skin test exactly when red exceeds 95, green
    exceeds 40, blue exceeds 20, red exceeds green by more than 15, and red
    exceeds blue. *)
Theorem isSkin_spec (r g b : Q) :
  isSkin r g b = true
  <-> 95 < r /\ 40 < g /\ 20 < b /\ g + 15 < r /\ b < r.
Proof.
  unfold isSkin. rewrite !andb_true_iff, !Qltb_true. split.
  - intros (((((H1 & H2) & H3) & H4) & H5) & H6).
    repeat split; try assumption.
    rewrite Qabs_pos in H6 by lra. lra.
  - intros (H1 & H2 & H3 & H4 & H5).
    repeat split; try assumption; try lra.
    rewrite Qabs_pos by lra. lra.
Qed.

(** ** What the pipeline reads *)

Lemma toneBody_frame (p p' : PresetSettings) :
  colorBalance p = colorBalance p' -> toneBody p = toneBody p'.
Proof. intros E. unfold toneBody. now rewrite E. Qed.

(** X6.  Of a preset the pipeline reads the filter string, the colour
    balance and the radius of the wide blur, nothing else: two presets that
    agree on these three render the same picture.  The name, the category,
    the overlay, the subject flag, the intensity and tone smoothing of the
    frequency separation and the preset's own section flags make no
    difference. *)
Theorem render_reads_three_preset_members `{Canvas}
    (p p' : PresetSettings) (manualSettings : option ManualSettings)
    (img : Image) :
  filters p = filters p' ->
  colorBalance p = colorBalance p' ->
  fsRadius p = fsRadius p' ->
  render p manualSettings img = render p' manualSettings img.
Proof.
  intros Hf Hcb Hfs.
  unfold render, basicStep, cssBase, pixelEngine, toneStage.
  now rewrite Hf, Hfs, (toneBody_frame p p' Hcb).
Qed.

Lemma render_reads_three_preset_members_witness :
  @render (plainCanvas gallery) barePreset
    (Some (setNum Exposure 1.2 emptySettings)) grayPixel
  = @render (plainCanvas gallery) namedPreset
      (Some (setNum Exposure 1.2 emptySettings)) grayPixel.
Proof.
  apply (@render_reads_three_preset_members (plainCanvas gallery)
           barePreset namedPreset
           (Some (setNum Exposure 1.2 emptySettings)) grayPixel);
    reflexivity.
Defined.

Lemma destructure_unread_num (k : NumKey) (v : Q) (m : ManualSettings) :
  k ∈ unreadNumKeys ->
  destructure (Some (setNum k v m)) = destructure (Some m).
Proof.
  unfold unreadNumKeys. intros Hk.
  repeat (apply elem_of_cons in Hk; destruct Hk as [->|Hk]);
    [..|now apply elem_of_nil in Hk]; reflexivity.
Qed.

(** X7.  Setting highlights, shadows, brightness, noise reduction, hue, the
    two levels, auto brush, curves, skin tone or grain to any value, and
    the two tint colours to any colours, leaves the rendered picture as it
    was. *)
Theorem render_ignores_unread_settings `{Canvas}
    (preset : PresetSettings) (m : ManualSettings) (img : Image)
    (k : NumKey) (v : Q) (c c' : string) :
  k ∈ unreadNumKeys ->
  render preset (Some (setNum k v m)) img = render preset (Some m) img
  /\ render preset
       (Some (setStr TintShadows c (setStr TintHighlights c' m))) img
     = render preset (Some m) img.
Proof.
  intros Hk. unfold render. split.
  - now rewrite (destructure_unread_num k v m Hk).
  - reflexivity.
Qed.

Lemma render_ignores_unread_settings_witness :
  @render (plainCanvas gallery) warmPreset
    (Some (setNum Highlights 0.2 (setNum Exposure 1.2 emptySettings)))
    grayPixel
  = @render (plainCanvas gallery) warmPreset
      (Some (setNum Exposure 1.2 emptySettings)) grayPixel
  /\ @render (plainCanvas gallery) warmPreset
       (Some (setStr TintShadows "#112233"
                (setStr TintHighlights "#445566"
                   (setNum Exposure 1.2 emptySettings))))
       grayPixel
     = @render (plainCanvas gallery) warmPreset
         (Some (setNum Exposure 1.2 emptySettings)) grayPixel.
Proof.
  apply (@render_ignores_unread_settings (plainCanvas gallery) warmPreset
           (setNum Exposure 1.2 emptySettings) grayPixel Highlights 0.2
           "#112233" "#445566").
  unfold unreadNumKeys. constructor.
Defined.

(** ** Default settings *)

Lemma pixelBody_neutral (ds : gmap string bool)
    (fineBlurred mediumBlurred fsBlurred : list Z) (i : nat) (r g b : Q) :
  0 <= r <= 255 -> 0 <= g <= 255 -> 0 <= b <= 255 ->
  let '(r', g', b') :=
    pixelBody ds fineBlurred mediumBlurred fsBlurred 0 0 1 0 0 i r g b in
  r' == r /\ g' == g /\ b' == b.
Proof.
  intros Hr Hg Hb. unfold pixelBody, presence, vibranceBlock.
  change (Qneqb 0 0) with false. change (Qneqb 1 1) with false.
  cbv iota beta.
  pose proof (retouchBlock_neutral ds fsBlurred 0 i r g b (Qle_refl 0)) as Hn.
  destruct (retouchBlock ds fsBlurred 0 0 0 i r g b) as [[r' g'] b'].
  destruct Hn as (Er & Eg & Eb).
  rewrite Er, Eg, Eb. repeat split; now apply clamp255_id.
Qed.

(** X8.  Without manual settings, and with a preset whose colour balance
    contributes nothing, the picture rendered is exactly the picture the
    CSS base pass produces from the source: no stage of the engine alters a
    byte.  (The backend is taken to return bytes.) *)
Theorem render_defaults_is_css_base `{Canvas}
    (preset : PresetSettings) (img : Image) :
  ToneSpec.presetTemp preset == 0 ->
  ToneSpec.presetTint preset == 0 ->
  Forall is_byte (data img) ->
  Forall is_byte
    (drawFiltered (width img) (height img) (filters preset) 1 1 (data img)) ->
  render preset None img
  = drawFiltered (width img) (height img) (filters preset) 1 1 (data img).
Proof.
  intros HT HTn Hd Hf.
  unfold render. cbv zeta.
  assert (E1 : basicStep preset (destructure None) (data img) = data img).
  { unfold basicStep, toneStage. simpl.
    apply pixelLoop_id; [|assumption].
    intros _ r g b Hr Hg Hb. now apply toneBody_neutral. }
  rewrite E1. unfold cssBase. simpl.
  unfold pixelEngine, detailStage, effectsStep, watermarkStep. simpl.
  unfold pixelStage. apply pixelLoop_id; [|assumption].
  intros k r g b Hr Hg Hb. now apply pixelBody_neutral.
Qed.

Lemma render_defaults_is_css_base_witness :
  @render (plainCanvas gallery) barePreset None midGray4x4
  = @drawFiltered (plainCanvas gallery) (width midGray4x4) (height midGray4x4)
      (filters barePreset) 1 1 (data midGray4x4).
Proof.
  apply (@render_defaults_is_css_base (plainCanvas gallery) barePreset
           midGray4x4); try reflexivity;
    simpl; repeat constructor; unfold is_byte; lia.
Defined.

(** ** The promise *)

(** X9.  [processImage] never rejects.  It fulfils exactly when the source
    decodes, and then with the data URL of the rendered buffer at the
    dimensions of the picture. *)
Theorem processImage_outcome `{Canvas} (imageSrc : string)
    (preset : PresetSettings) (manualSettings : option ManualSettings) :
  (forall reason,
     processImage imageSrc preset manualSettings <> Rejected reason)
  /\ (forall value,
        processImage imageSrc preset manualSettings = Fulfilled value
        <-> exists img,
              loadImage imageSrc = Some img
              /\ value = toDataURL (width img) (height img)
                           (render preset manualSettings img)).
Proof.
  unfold processImage.
  destruct (loadImage imageSrc) as [img|]; simpl; unfold onloadHandler; simpl.
  - split; [discriminate|]. intros value. split.
    + intros [= <-]. now exists img.
    + intros (img' & [= <-] & ->). reflexivity.
  - split; [discriminate|]. intros value. split; [discriminate|].
    intros (img' & Hx & _). discriminate.
Qed.

(** ** Order *)

Lemma clamp255_mono (x y : Q) : x <= y -> clamp255 x <= clamp255 y.
Proof.
  intros Hxy. unfold clamp255.
  destruct (Q.min_spec 255 x) as [[? E1]|[? E1]];
    destruct (Q.min_spec 255 y) as [[? E2]|[? E2]];
    destruct (Q.max_spec 0 (Qmin 255 x)) as [[? E3]|[? E3]];
    destruct (Q.max_spec 0 (Qmin 255 y)) as [[? E4]|[? E4]]; lra.
Qed.

Lemma toUint8Clamp_same_clamped (x y : Q) :
  Qmin (Qmax x 0) 255 == Qmin (Qmax y 0) 255 ->
  toUint8Clamp x = toUint8Clamp y.
Proof.
  intros Ec. unfold toUint8Clamp.
  rewrite (Qfloor_comp _ _ Ec). now rewrite !Ec.
Qed.

(** The store is monotone. *)
Lemma toUint8Clamp_mono (x y : Q) :
  x <= y -> (toUint8Clamp x <= toUint8Clamp y)%Z.
Proof.
  intros Hxy.
  destruct (Z.le_gt_cases (toUint8Clamp x) (toUint8Clamp y)) as [Hle|Hgt];
    [assumption|].
  assert (Hc : Qmin (Qmax x 0) 255 <= Qmin (Qmax y 0) 255).
  { destruct (Q.max_spec x 0) as [[? E1]|[? E1]];
      destruct (Q.max_spec y 0) as [[? E2]|[? E2]];
      destruct (Q.min_spec (Qmax x 0) 255) as [[? E3]|[? E3]];
      destruct (Q.min_spec (Qmax y 0) 255) as [[? E4]|[? E4]]; lra. }
  pose proof (toUint8Clamp_near x) as Hx.
  pose proof (toUint8Clamp_near y) as Hy.
  assert (Hz : inject_Z (toUint8Clamp y) + 1 <= inject_Z (toUint8Clamp x)).
  { change 1 with (inject_Z 1). rewrite <- inject_Z_plus, <- Zle_Qle. lia. }
  assert (Ec : Qmin (Qmax x 0) 255 == Qmin (Qmax y 0) 255) by lra.
  rewrite (toUint8Clamp_same_clamped x y Ec). lia.
Qed.

Lemma pixelLoop_mono body i (data1 data2 : list Z) :
  (forall k r1 g1 b1 r2 g2 b2,
      r1 <= r2 -> g1 <= g2 -> b1 <= b2 ->
      let '(r1', g1', b1') := body k r1 g1 b1 in
      let '(r2', g2', b2') := body k r2 g2 b2 in
      r1' <= r2' /\ g1' <= g2' /\ b1' <= b2') ->
  Forall2 Z.le data1 data2 ->
  Forall2 Z.le (pixelLoop body i data1) (pixelLoop body i data2).
Proof.
  intros Hb. revert i data2.
  induction data1 as [| | | |r g b a rest IH] using buffer_ind;
    intros i data2 Hd; try (inversion Hd; subst; clear Hd;
      repeat match goal with
        | H : Forall2 _ (_ :: _) _ |- _ => inversion H; subst; clear H
        | H : Forall2 _ [] _ |- _ => inversion H; subst; clear H
        end; simpl; repeat constructor; assumption).
  inversion Hd as [|? r2 ? d2a Hr Hd1]; subst.
  inversion Hd1 as [|? g2 ? d2b Hg Hd2]; subst.
  inversion Hd2 as [|? b2 ? d2c Hbl Hd3]; subst.
  inversion Hd3 as [|? a2 ? d2d Ha Hd4]; subst.
  simpl.
  specialize (Hb i (inject_Z r) (inject_Z g) (inject_Z b)
                 (inject_Z r2) (inject_Z g2) (inject_Z b2)).
  rewrite <- !Zle_Qle in Hb. specialize (Hb Hr Hg Hbl).
  destruct (body i (inject_Z r) (inject_Z g) (inject_Z b)) as [[r1' g1'] b1'].
  destruct (body i (inject_Z r2) (inject_Z g2) (inject_Z b2)) as [[r2' g2'] b2'].
  destruct Hb as (Hr' & Hg' & Hb').
  repeat (constructor; [now apply toUint8Clamp_mono|]).
  constructor; [assumption|]. now apply IH.
Qed.

Lemma toneBody_mono (preset : PresetSettings)
    (exposure whites blacks dehaze temp tint : Q)
    (r1 g1 b1 r2 g2 b2 : Q) :
  0 <= exposure -> 0 <= whites -> -1 <= dehaze ->
  r1 <= r2 -> g1 <= g2 -> b1 <= b2 ->
  let '(r1', g1', b1') :=
    toneBody preset exposure whites blacks dehaze temp tint r1 g1 b1 in
  let '(r2', g2', b2') :=
    toneBody preset exposure whites blacks dehaze temp tint r2 g2 b2 in
  r1' <= r2' /\ g1' <= g2' /\ b1' <= b2'.
Proof.
  intros He Hw Hd Hr Hg Hb. unfold toneBody, applyWB.
  set (T := orElse (ColorBalance.temp <$> colorBalance preset) 0 + temp).
  set (Tn := orElse (ColorBalance.tint <$> colorBalance preset) 0 + tint).
  assert (Hgain : forall x y, x <= y -> x * exposure * whites <= y * exposure * whites).
  { intros x y Hxy. apply Qmult_le_compat_r; [|assumption].
    now apply Qmult_le_compat_r. }
  assert (Hdz : forall x y, x <= y ->
            (x - 128) * (1 + dehaze * 0.3) + 128 + dehaze * 15
            <= (y - 128) * (1 + dehaze * 0.3) + 128 + dehaze * 15).
  { intros x y Hxy.
    assert ((x - 128) * (1 + dehaze * 0.3) <= (y - 128) * (1 + dehaze * 0.3))
      by (apply Qmult_le_compat_r; lra).
    lra. }
  pose proof (Hgain (r1 + T * 0.5 + Tn * 0.25) (r2 + T * 0.5 + Tn * 0.25)) as Gr.
  pose proof (Hgain (g1 - Tn * 0.5) (g2 - Tn * 0.5)) as Gg.
  pose proof (Hgain (b1 - T * 0.5 + Tn * 0.25) (b2 - T * 0.5 + Tn * 0.25)) as Gb.
  destruct (Qneqb dehaze 0); cbv beta iota zeta;
    repeat split; apply clamp255_mono; try apply Hdz; lra.
Qed.

(** X10.  With exposure and whites not negative and dehaze at least -1, the
    tone stage keeps the order of brightness: if one buffer is below
    another byte by byte, so are the two results. *)
Theorem toneStage_preserves_order
    (preset : PresetSettings) (disabledSections : gmap string bool)
    (exposure whites blacks dehaze temp tint : Q) (data1 data2 : list Z) :
  0 <= exposure -> 0 <= whites -> -1 <= dehaze ->
  Forall2 Z.le data1 data2 ->
  Forall2 Z.le
    (toneStage preset disabledSections exposure whites blacks dehaze temp tint
       data1)
    (toneStage preset disabledSections exposure whites blacks dehaze temp tint
       data2).
Proof.
  intros He Hw Hd H12. unfold toneStage.
  destruct (negb (isDisabled disabledSections "basic")); [|assumption].
  apply pixelLoop_mono; [|assumption].
  intros _ r1 g1 b1 r2 g2 b2 Hr Hg Hb. now apply toneBody_mono.
Qed.

Lemma toneStage_preserves_order_witness :
  Forall2 Z.le
    (toneStage warmPreset ∅ 1.3 1.1 0.9 0.5 5 (-3) [10; 20; 30; 255]%Z)
    (toneStage warmPreset ∅ 1.3 1.1 0.9 0.5 5 (-3) [10; 90; 31; 255]%Z).
Proof.
  apply (toneStage_preserves_order warmPreset ∅ 1.3 1.1 0.9 0.5 5 (-3)
           [10; 20; 30; 255]%Z [10; 90; 31; 255]%Z);
    try (vm_compute; discriminate).
  repeat constructor; lia.
Defined.

(** ** Vibrance *)

Lemma Qmax_increasing (f : Q -> Q) (x y : Q) :
  (forall u v, u <= v -> f u <= f v) -> Qmax (f x) (f y) == f (Qmax x y).
Proof.
  intros Hf.
  assert (Hp : forall u v, u == v -> f u == f v).
  { intros u v E. apply Qle_antisym; apply Hf; lra. }
  destruct (Q.max_spec x y) as [[Hlt E]|[Hle E]]; rewrite (Hp _ _ E).
  - apply Q.max_r, Hf. lra.
  - apply Q.max_l, Hf. lra.
Qed.

Lemma Qmin_increasing (f : Q -> Q) (x y : Q) :
  (forall u v, u <= v -> f u <= f v) -> Qmin (f x) (f y) == f (Qmin x y).
Proof.
  intros Hf.
  assert (Hp : forall u v, u == v -> f u == f v).
  { intros u v E. apply Qle_antisym; apply Hf; lra. }
  destruct (Q.min_spec x y) as [[Hlt E]|[Hle E]]; rewrite (Hp _ _ E).
  - apply Q.min_l, Hf. lra.
  - apply Q.min_r, Hf. lra.
Qed.

Lemma Qmax_decreasing (f : Q -> Q) (x y : Q) :
  (forall u v, u <= v -> f v <= f u) -> Qmax (f x) (f y) == f (Qmin x y).
Proof.
  intros Hf.
  assert (Hp : forall u v, u == v -> f u == f v).
  { intros u v E. apply Qle_antisym; apply Hf; lra. }
  destruct (Q.min_spec x y) as [[Hlt E]|[Hle E]]; rewrite (Hp _ _ E).
  - apply Q.max_l, Hf. lra.
  - apply Q.max_r, Hf. lra.
Qed.

Lemma Qmin_decreasing (f : Q -> Q) (x y : Q) :
  (forall u v, u <= v -> f v <= f u) -> Qmin (f x) (f y) == f (Qmax x y).
Proof.
  intros Hf.
  assert (Hp : forall u v, u == v -> f u == f v).
  { intros u v E. apply Qle_antisym; apply Hf; lra. }
  destruct (Q.max_spec x y) as [[Hlt E]|[Hle E]]; rewrite (Hp _ _ E).
  - apply Q.min_r, Hf. lra.
  - apply Q.min_l, Hf. lra.
Qed.

(** The largest and the smallest image of three numbers under a map that
    pulls every number toward, or pushes it away from, a centre. *)
Lemma scaled_extremes (A k r g b : Q) :
  max3 (A + (r - A) * k) (A + (g - A) * k) (A + (b - A) * k)
  + min3 (A + (r - A) * k) (A + (g - A) * k) (A + (b - A) * k)
  == (A + (max3 r g b - A) * k) + (A + (min3 r g b - A) * k).
Proof.
  unfold max3, min3.
  set (f := fun c : Q => A + (c - A) * k).
  change (Qmax (Qmax (f r) (f g)) (f b) + Qmin (Qmin (f r) (f g)) (f b)
          == f (Qmax (Qmax r g) b) + f (Qmin (Qmin r g) b)).
  destruct (Qlt_le_dec k 0) as [Hneg|Hpos].
  - assert (Hf : forall u v, u <= v -> f v <= f u).
    { intros u v Huv. unfold f.
      assert ((u - A) * (- k) <= (v - A) * (- k))
        by (apply Qmult_le_compat_r; lra).
      lra. }
    rewrite (Qmax_decreasing f r g Hf), (Qmax_decreasing f _ b Hf).
    rewrite (Qmin_decreasing f r g Hf), (Qmin_decreasing f _ b Hf).
    ring.
  - assert (Hf : forall u v, u <= v -> f u <= f v).
    { intros u v Huv. unfold f.
      assert ((u - A) * k <= (v - A) * k)
        by (apply Qmult_le_compat_r; lra).
      lra. }
    rewrite (Qmax_increasing f r g Hf), (Qmax_increasing f _ b Hf).
    rewrite (Qmin_increasing f r g Hf), (Qmin_increasing f _ b Hf).
    ring.
Qed.

(** X11.  Vibrance never changes the lightness of a pixel: for channels in
    [0,255] the sum of the largest and the smallest channel is the same
    before and after, for every vibrance. *)
Theorem vibrance_preserves_lightness (vibrance r g b : Q) :
  0 <= r <= 255 -> 0 <= g <= 255 -> 0 <= b <= 255 ->
  let '(r', g', b') := vibranceBlock vibrance r g b in
  max3 r' g' b' + min3 r' g' b' == max3 r g b + min3 r g b.
Proof.
  intros _ _ _. unfold vibranceBlock.
  destruct (Qneqb vibrance 1); [|reflexivity].
  cbv zeta.
  set (M := max3 r g b). set (m := min3 r g b).
  set (s := if Qeq_bool M m then 0
            else if Qltb 0.5 ((M + m) / 510) then (M - m) / (510 - M - m)
                 else (M - m) / (M + m)).
  rewrite scaled_extremes. fold M m. field.
Qed.

Lemma vibrance_preserves_lightness_witness :
  let '(r', g', b') := vibranceBlock 1.7 200 90 30 in
  max3 r' g' b' + min3 r' g' b' == max3 200 90 30 + min3 200 90 30.
Proof.
  apply (vibrance_preserves_lightness 1.7 200 90 30);
    split; vm_compute; discriminate.
Defined.

Lemma max3_bounds (r g b : Q) :
  r <= max3 r g b /\ g <= max3 r g b /\ b <= max3 r g b
  /\ (max3 r g b == r \/ max3 r g b == g \/ max3 r g b == b).
Proof.
  unfold max3.
  destruct (Q.max_spec r g) as [[? E1]|[? E1]];
    destruct (Q.max_spec (Qmax r g) b) as [[? E2]|[? E2]];
    repeat split; try lra;
    first [ left; lra | right; left; lra | right; right; lra ].
Qed.

Lemma min3_bounds (r g b : Q) :
  min3 r g b <= r /\ min3 r g b <= g /\ min3 r g b <= b
  /\ (min3 r g b == r \/ min3 r g b == g \/ min3 r g b == b).
Proof.
  unfold min3.
  destruct (Q.min_spec r g) as [[? E1]|[? E1]];
    destruct (Q.min_spec (Qmin r g) b) as [[? E2]|[? E2]];
    repeat split; try lra;
    first [ left; lra | right; left; lra | right; right; lra ].
Qed.

(** X12.  A pixel of full saturation is a fixed point of vibrance: when
    the channels lie in [0,255] and the smallest is 0 or the largest is
    255, the block returns the channels it was given, for every
    vibrance. *)
Theorem vibrance_fixes_saturated (vibrance r g b : Q) :
  0 <= r <= 255 -> 0 <= g <= 255 -> 0 <= b <= 255 ->
  min3 r g b == 0 \/ max3 r g b == 255 ->
  let '(r', g', b') := vibranceBlock vibrance r g b in
  r' == r /\ g' == g /\ b' == b.
Proof.
  intros Hr Hg Hb Hsat. unfold vibranceBlock.
  destruct (Qneqb vibrance 1); [|repeat split; reflexivity].
  cbv zeta.
  destruct (max3_bounds r g b) as (M1 & M2 & M3 & Mx).
  destruct (min3_bounds r g b) as (m1 & m2 & m3 & mx).
  set (M := max3 r g b) in *. set (m := min3 r g b) in *.
  assert (HM : 0 <= M <= 255) by (destruct Mx as [E|[E|E]]; lra).
  assert (Hm : 0 <= m <= 255) by (destruct mx as [E|[E|E]]; lra).
  destruct (Qeq_bool M m) eqn:Eq.
  - apply Qeq_bool_iff in Eq.
    assert (Er : r == M) by lra.
    assert (Eg : g == M) by lra.
    assert (Eb : b == M) by lra.
    assert (HL : (M + m) / 510 * 255 == M) by (rewrite <- Eq; field).
    rewrite HL, Er, Eg, Eb. repeat split; ring.
  - assert (Hne : ~ M == m).
    { intros E. apply Qeq_bool_iff in E. congruence. }
    assert (Hlt : m < M).
    { destruct (Qle_lt_or_eq m M) as [Hl|He]; [lra|assumption|].
      exfalso. apply Hne. now symmetry. }
    assert (Hs :
      (if Qltb 0.5 ((M + m) / 510) then (M - m) / (510 - M - m)
       else (M - m) / (M + m)) == 1).
    { destruct (Qltb 0.5 ((M + m) / 510)) eqn:El; cbv iota.
      - apply Qltb_true in El.
        assert (255 < M + m).
        { apply (Qmult_lt_compat_r _ _ 510) in El; [|reflexivity].
          assert (E510 : (M + m) / 510 * 510 == M + m) by field.
          rewrite E510 in El. lra. }
        assert (E255 : M == 255) by (destruct Hsat; lra).
        rewrite E255. field. lra.
      - apply Qltb_false in El.
        assert (M + m <= 255).
        { apply (Qmult_le_compat_r _ _ 510) in El; [|discriminate].
          assert (E510 : (M + m) / 510 * 510 == M + m) by field.
          rewrite E510 in El. lra. }
        assert (E0 : m == 0) by (destruct Hsat; lra).
        rewrite E0. field. lra. }
    rewrite Hs. repeat split; ring.
Qed.

Lemma vibrance_fixes_saturated_witness :
  let '(r', g', b') := vibranceBlock 1.7 255 90 30 in
  r' == 255 /\ g' == 90 /\ b' == 30.
Proof.
  apply (vibrance_fixes_saturated 1.7 255 90 30);
    try (split; vm_compute; discriminate).
  right. reflexivity.
Defined.

(** ** Pictures equal to their blur *)

(** The loop over the tail of a buffer, with a body that returns the
    numbers it reads wherever it is run on the buffer itself. *)
Lemma pixelLoop_id_within body (full : list Z) :
  (forall k r g b,
      full !! k = Some r -> full !! (k + 1)%nat = Some g ->
      full !! (k + 2)%nat = Some b ->
      is_byte r -> is_byte g -> is_byte b ->
      let '(r', g', b') := body k (inject_Z r) (inject_Z g) (inject_Z b) in
      r' == inject_Z r /\ g' == inject_Z g /\ b' == inject_Z b) ->
  forall pre rest,
    full = pre ++ rest -> Forall is_byte rest ->
    pixelLoop body (length pre) rest = rest.
Proof.
  intros Hbody pre rest. revert pre.
  induction rest as [| | | |r g b a rest IH] using buffer_ind;
    intros pre Hfull Hbytes; simpl; try reflexivity.
  inversion Hbytes as [|? ? Hr Hb1]; subst.
  inversion Hb1 as [|? ? Hg Hb2]; subst.
  inversion Hb2 as [|? ? Hbl Hb3]; subst.
  inversion Hb3 as [|? ? Ha Hb4]; subst.
  specialize (Hbody (length pre) r g b).
  rewrite !lookup_app_r in Hbody by lia.
  replace (length pre - length pre)%nat with 0%nat in Hbody by lia.
  replace (length pre + 1 - length pre)%nat with 1%nat in Hbody by lia.
  replace (length pre + 2 - length pre)%nat with 2%nat in Hbody by lia.
  specialize (Hbody eq_refl eq_refl eq_refl Hr Hg Hbl).
  destruct (body (length pre) (inject_Z r) (inject_Z g) (inject_Z b))
    as [[r' g'] b'].
  destruct Hbody as (Er & Eg & Eb).
  rewrite Er, Eg, Eb, !toUint8Clamp_byte by assumption.
  do 4 f_equal.
  replace (length pre + 4)%nat with (length (pre ++ [r; g; b; a]))
    by (rewrite length_app; reflexivity).
  apply IH; [|assumption].
  now rewrite <- app_assoc.
Qed.

Lemma sample_lookup (buf : list Z) (i : nat) (z : Z) :
  buf !! i = Some z -> sample buf i = inject_Z z.
Proof. intros E. unfold sample. now rewrite E. Qed.

Lemma detailStage_self (disabledSections : gmap string bool)
    (sharpness sharpenDetail : Q) (pixels : list Z) :
  Forall is_byte pixels ->
  detailStage disabledSections sharpness sharpenDetail pixels pixels = pixels.
Proof.
  intros Hb. unfold detailStage.
  destruct (negb (isDisabled disabledSections "detail") && Qltb 0 sharpness);
    [|reflexivity].
  apply (pixelLoop_id_within _ pixels) with (pre := []);
    [|reflexivity|assumption].
  intros k r g b Er Eg Eb _ _ _. unfold detailBody.
  rewrite (sample_lookup _ _ _ Er), (sample_lookup _ _ _ Eg),
    (sample_lookup _ _ _ Eb).
  repeat split; ring.
Qed.

(** X13.  Where the blur changes nothing there is nothing to sharpen: the
    unsharp mask run against a blurred copy equal to the picture returns
    the picture, for every sharpness and detail. *)
Theorem detailStage_flat (disabledSections : gmap string bool)
    (sharpness sharpenDetail : Q) (pixels : list Z) :
  Forall is_byte pixels ->
  detailStage disabledSections sharpness sharpenDetail pixels pixels = pixels.
Proof. apply detailStage_self. Qed.

Lemma detailStage_flat_witness :
  detailStage ∅ 2 25 [250; 3; 128; 255; 7; 7; 9; 255]%Z
    [250; 3; 128; 255; 7; 7; 9; 255]%Z
  = [250; 3; 128; 255; 7; 7; 9; 255]%Z.
Proof.
  apply (detailStage_flat ∅ 2 25 [250; 3; 128; 255; 7; 7; 9; 255]%Z).
  repeat constructor; unfold is_byte; lia.
Defined.

(** The body of the second loop on a pixel that the three blurred copies
    show as the picture does. *)
Lemma pixelBody_flat (disabledSections : gmap string bool)
    (fineBlurred mediumBlurred fsBlurred : list Z)
    (texture clarity vibrance skinSoftening dodgeBurn : Q)
    (i : nat) (r g b : Z) :
  sample fineBlurred i = inject_Z r ->
  sample fineBlurred (i + 1) = inject_Z g ->
  sample fineBlurred (i + 2) = inject_Z b ->
  sample mediumBlurred i = inject_Z r ->
  sample mediumBlurred (i + 1) = inject_Z g ->
  sample mediumBlurred (i + 2) = inject_Z b ->
  sample fsBlurred i = inject_Z r ->
  sample fsBlurred (i + 1) = inject_Z g ->
  sample fsBlurred (i + 2) = inject_Z b ->
  vibrance == 1 -> dodgeBurn <= 0 ->
  is_byte r -> is_byte g -> is_byte b ->
  let '(r', g', b') :=
    pixelBody disabledSections fineBlurred mediumBlurred fsBlurred
      texture clarity vibrance skinSoftening dodgeBurn
      i (inject_Z r) (inject_Z g) (inject_Z b) in
  r' == inject_Z r /\ g' == inject_Z g /\ b' == inject_Z b.
Proof.
  intros F0 F1 F2 M0 M1 M2 S0 S1 S2 Hv Hdb Hr Hg Hbl.
  unfold pixelBody, presence, retouchBlock.
  rewrite F0, F1, F2, M0, M1, M2, S0, S1, S2.
  set (p1 := if Qneqb texture 0 then _ else _).
  assert (E1 : let '(r1, g1, b1) := p1 in
               r1 == inject_Z r /\ g1 == inject_Z g /\ b1 == inject_Z b).
  { unfold p1. destruct (Qneqb texture 0); repeat split; ring. }
  destruct p1 as [[r1 g1] b1]. destruct E1 as (Er1 & Eg1 & Eb1).
  set (p2 := if Qneqb clarity 0 then _ else _).
  assert (E2 : let '(r2, g2, b2) := p2 in
               r2 == inject_Z r /\ g2 == inject_Z g /\ b2 == inject_Z b).
  { unfold p2. destruct (Qneqb clarity 0);
      repeat split; rewrite ?Er1, ?Eg1, ?Eb1; try ring; reflexivity. }
  destruct p2 as [[r2 g2] b2]. destruct E2 as (Er2 & Eg2 & Eb2).
  unfold vibranceBlock.
  replace (Qneqb vibrance 1) with false by (symmetry; now apply Qneqb_false).
  pose proof (byte_Q r Hr). pose proof (byte_Q g Hg).
  pose proof (byte_Q b Hbl).
  destruct (negb (isDisabled disabledSections "retouch"));
    [|rewrite Er2, Eg2, Eb2; repeat split; now apply clamp255_id].
  destruct (isSkin r2 g2 b2);
    [|rewrite Er2, Eg2, Eb2; repeat split; now apply clamp255_id].
  replace (Qltb 0 dodgeBurn) with false by (symmetry; now apply Qltb_false).
  cbv zeta.
  repeat split; rewrite ?Er2, ?Eg2, ?Eb2;
    (rewrite clamp255_id; [ring|]);
    match goal with
    | |- 0 <= ?x <= 255 =>
        let E := fresh in
        assert (E : x == inject_Z r \/ x == inject_Z g \/ x == inject_Z b)
          by (first [ left; ring | right; left; ring | right; right; ring ]);
        destruct E as [E|[E|E]]; rewrite E; assumption
    end.
Qed.

(** X14.  Inside a flat area there is nothing for texture, clarity,
    sharpening and skin softening to act on.  At a pixel where the four
    blurred copies drawn by the engine (at 2, at 12, at the
    frequency-separation radius and at the sharpening radius) show on the
    colour channels what the picture shows, step 3 leaves the pixel as it
    is, with vibrance 1 and no dodge and burn, for every value of the
    other settings.  Nothing is said of the other pixels, nor of what a
    blur returns. *)
Theorem pixelEngine_flat `{Canvas}
    (preset : PresetSettings) (L : Locals.t) (w h : Z)
    (bufferCanvas : list Z) (k : nat) (r g b a : Z) :
  bufferCanvas !! (4 * k)%nat = Some r ->
  bufferCanvas !! (4 * k + 1)%nat = Some g ->
  bufferCanvas !! (4 * k + 2)%nat = Some b ->
  bufferCanvas !! (4 * k + 3)%nat = Some a ->
  is_byte r -> is_byte g -> is_byte b ->
  agreesAt (drawBlurred w h 2 bufferCanvas) bufferCanvas (4 * k) ->
  agreesAt (drawBlurred w h 12 bufferCanvas) bufferCanvas (4 * k) ->
  agreesAt (drawBlurred w h (fsRadius preset) bufferCanvas) bufferCanvas
    (4 * k) ->
  agreesAt (drawBlurred w h (Locals.sharpenRadius L) bufferCanvas) bufferCanvas
    (4 * k) ->
  Locals.vibrance L == 1 ->
  Locals.dodgeBurn L <= 0 ->
  pixelEngine preset L w h bufferCanvas !! (4 * k)%nat = Some r
  /\ pixelEngine preset L w h bufferCanvas !! (4 * k + 1)%nat = Some g
  /\ pixelEngine preset L w h bufferCanvas !! (4 * k + 2)%nat = Some b
  /\ pixelEngine preset L w h bufferCanvas !! (4 * k + 3)%nat = Some a.
Proof.
  intros Er Eg Eb Ea Hr Hg Hbl (F0 & F1 & F2) (M0 & M1 & M2) (S0 & S1 & S2)
    (D0 & D1 & D2) Hv Hdb.
  rewrite (sample_lookup _ _ _ Er) in F0, M0, S0, D0.
  rewrite (sample_lookup _ _ _ Eg) in F1, M1, S1, D1.
  rewrite (sample_lookup _ _ _ Eb) in F2, M2, S2, D2.
  unfold pixelEngine. cbv zeta.
  set (sharp := detailStage _ _ _ _ bufferCanvas).
  assert (Hs : sharp !! (4 * k)%nat = Some r
               /\ sharp !! (4 * k + 1)%nat = Some g
               /\ sharp !! (4 * k + 2)%nat = Some b
               /\ sharp !! (4 * k + 3)%nat = Some a).
  { unfold sharp, detailStage.
    destruct (negb (isDisabled (Locals.disabledSections L) "detail")
              && Qltb 0 (Locals.sharpness L)); [|now repeat split].
    cbv zeta.
    pose proof (pixelLoop_lookup
                  (detailBody
                     (drawBlurred w h (Locals.sharpenRadius L) bufferCanvas)
                     (Locals.sharpness L * (0.5 + Locals.sharpenDetail L / 50)))
                  k 0%nat bufferCanvas r g b a Er Eg Eb Ea) as Hl.
    cbn [Nat.add] in Hl.
    change (detailBody ?bl ?int ?i ?x ?y ?z)
      with (x + (x - sample bl i) * int,
            y + (y - sample bl (i + 1)) * int,
            z + (z - sample bl (i + 2)) * int) in Hl.
    cbv beta iota in Hl. rewrite D0, D1, D2 in Hl.
    destruct Hl as (L0 & L1 & L2 & L3).
    rewrite L0, L1, L2, L3.
    repeat split; f_equal; rewrite <- toUint8Clamp_byte by assumption;
      apply toUint8Clamp_proper; ring. }
  destruct Hs as (Sr & Sg & Sb & Sa).
  unfold pixelStage.
  pose proof (pixelLoop_lookup
                (pixelBody (Locals.disabledSections L)
                   (drawBlurred w h 2 bufferCanvas)
                   (drawBlurred w h 12 bufferCanvas)
                   (drawBlurred w h (fsRadius preset) bufferCanvas)
                   (Locals.texture L) (Locals.clarity L) (Locals.vibrance L)
                   (Locals.skinSoftening L) (Locals.dodgeBurn L))
                k 0%nat sharp r g b a Sr Sg Sb Sa) as Hl.
  cbn [Nat.add] in Hl.
  pose proof (pixelBody_flat (Locals.disabledSections L)
                (drawBlurred w h 2 bufferCanvas)
                (drawBlurred w h 12 bufferCanvas)
                (drawBlurred w h (fsRadius preset) bufferCanvas)
                (Locals.texture L) (Locals.clarity L) (Locals.vibrance L)
                (Locals.skinSoftening L) (Locals.dodgeBurn L)
                (4 * k)%nat r g b F0 F1 F2 M0 M1 M2 S0 S1 S2 Hv Hdb
                Hr Hg Hbl) as Hf.
  destruct (pixelBody _ _ _ _ _ _ _ _ _ (4 * k)%nat _ _ _) as [[r' g'] b'].
  destruct Hl as (L0 & L1 & L2 & L3).
  destruct Hf as (Fr & Fg & Fb).
  rewrite L0, L1, L2, L3, Fr, Fg, Fb, !toUint8Clamp_byte by assumption.
  now repeat split.
Qed.

(** The engine at full strength on the row of 27 skin pixels, on the
    backend whose blur is the box blur: the pixel in the middle, 13, has
    twelve equal neighbours on either side and is left as it is. *)
Lemma pixelEngine_flat_witness :
  @pixelEngine (sketchCanvas studio) warmPreset (destructure (Some strong))
    27 1 (data flatSkinRow) !! (4 * 13)%nat = Some 200%Z
  /\ @pixelEngine (sketchCanvas studio) warmPreset (destructure (Some strong))
       27 1 (data flatSkinRow) !! (4 * 13 + 1)%nat = Some 150%Z
  /\ @pixelEngine (sketchCanvas studio) warmPreset (destructure (Some strong))
       27 1 (data flatSkinRow) !! (4 * 13 + 2)%nat = Some 100%Z
  /\ @pixelEngine (sketchCanvas studio) warmPreset (destructure (Some strong))
       27 1 (data flatSkinRow) !! (4 * 13 + 3)%nat = Some 255%Z.
Proof.
  apply (@pixelEngine_flat (sketchCanvas studio) warmPreset
           (destructure (Some strong)) 27 1 (data flatSkinRow) 13%nat
           200 150 100 255)%Z;
    try reflexivity; try (unfold is_byte; lia);
    try (vm_compute; repeat split; reflexivity).
  vm_compute. discriminate.
Defined.

(** On that row the blur is no identity and the engine is at work: the
    first pixel, at the rim, loses light to the outside in every blurred
    copy and does not come back as it was. *)
Example pixelEngine_flat_rim :
  @drawBlurred (sketchCanvas studio) 27 1 2 (data flatSkinRow)
  <> data flatSkinRow
  /\ @pixelEngine (sketchCanvas studio) warmPreset (destructure (Some strong))
       27 1 (data flatSkinRow) !! 0%nat
     <> Some 200%Z.
Proof.
  split; vm_compute; discriminate.
Qed.

(** ** Pixels are processed independently *)

Lemma pixelLoop_app body i (data1 data2 : list Z) :
  (length data1 mod 4 = 0)%nat ->
  pixelLoop body i (data1 ++ data2)
  = pixelLoop body i data1 ++ pixelLoop body (i + length data1) data2.
Proof.
  revert i. induction data1 as [| | | |r g b a rest IH] using buffer_ind;
    intros i Hlen; try discriminate.
  - simpl. now rewrite Nat.add_0_r.
  - simpl.
    destruct (body i (inject_Z r) (inject_Z g) (inject_Z b)) as [[r' g'] b'].
    simpl. do 4 f_equal.
    rewrite IH.
    + do 2 f_equal. lia.
    + replace (length (r :: g :: b :: a :: rest))
        with (length rest + 1 * 4)%nat in Hlen by (simpl; lia).
      now rewrite Nat.Div0.mod_add in Hlen.
Qed.

Lemma pixelLoop_const_index (f : Q -> Q -> Q -> Q * Q * Q) (i j : nat)
    (data : list Z) :
  pixelLoop (fun _ => f) i data = pixelLoop (fun _ => f) j data.
Proof.
  revert i j. induction data as [| | | |r g b a rest IH] using buffer_ind;
    intros i j; simpl; try reflexivity.
  destruct (f (inject_Z r) (inject_Z g) (inject_Z b)) as [[r' g'] b'].
  now rewrite (IH (i + 4)%nat (j + 4)%nat).
Qed.

(** X15.  Each pixel is processed on its own.  The tone stage of two
    buffers laid end to end, the first a whole number of pixels, is the two
    tone stages laid end to end; the second loop of the engine splits in
    the same way, the second part being run from the index where it
    starts. *)
Theorem stages_split_at_pixel_boundaries
    (preset : PresetSettings) (disabledSections : gmap string bool)
    (exposure whites blacks dehaze temp tint : Q)
    (fineBlurred mediumBlurred fsBlurred : list Z)
    (texture clarity vibrance skinSoftening dodgeBurn : Q)
    (data1 data2 : list Z) :
  (length data1 mod 4 = 0)%nat ->
  toneStage preset disabledSections exposure whites blacks dehaze temp tint
    (data1 ++ data2)
  = toneStage preset disabledSections exposure whites blacks dehaze temp tint
      data1
    ++ toneStage preset disabledSections exposure whites blacks dehaze temp
         tint data2
  /\ pixelStage disabledSections fineBlurred mediumBlurred fsBlurred
       texture clarity vibrance skinSoftening dodgeBurn (data1 ++ data2)
     = pixelStage disabledSections fineBlurred mediumBlurred fsBlurred
         texture clarity vibrance skinSoftening dodgeBurn data1
       ++ pixelLoop
            (pixelBody disabledSections fineBlurred mediumBlurred fsBlurred
               texture clarity vibrance skinSoftening dodgeBurn)
            (length data1) data2.
Proof.
  intros Hlen. split.
  - unfold toneStage.
    destruct (negb (isDisabled disabledSections "basic")); [|reflexivity].
    rewrite pixelLoop_app by assumption. f_equal.
    apply pixelLoop_const_index.
  - unfold pixelStage. now rewrite pixelLoop_app.
Qed.

Lemma stages_split_at_pixel_boundaries_witness :
  toneStage warmPreset ∅ 1.2 1 1 0.5 0 0
    ([250; 3; 128; 255] ++ [9; 9; 9; 7])%Z
  = toneStage warmPreset ∅ 1.2 1 1 0.5 0 0 [250; 3; 128; 255]%Z
    ++ toneStage warmPreset ∅ 1.2 1 1 0.5 0 0 [9; 9; 9; 7]%Z
  /\ pixelStage ∅ [] [] [] 0 0 2 0 0 ([250; 3; 128; 255] ++ [9; 9; 9; 7])%Z
     = pixelStage ∅ [] [] [] 0 0 2 0 0 [250; 3; 128; 255]%Z
       ++ pixelLoop (pixelBody ∅ [] [] [] 0 0 2 0 0)
            (length [250; 3; 128; 255]%Z) [9; 9; 9; 7]%Z.
Proof.
  apply (stages_split_at_pixel_boundaries warmPreset ∅ 1.2 1 1 0.5 0 0
           [] [] [] 0 0 2 0 0 [250; 3; 128; 255]%Z [9; 9; 9; 7]%Z).
  reflexivity.
Defined.

(** ** The skin retouch *)

Lemma blend_between (x f bl : Q) :
  0 <= bl <= 1 ->
  Qmin x f <= x * (1 - bl) + f * bl <= Qmax x f.
Proof.
  intros [H0 H1].
  assert (E : x * (1 - bl) + f * bl == x + (f - x) * bl) by ring.
  rewrite E.
  destruct (Q.min_spec x f) as [[Hlt Em]|[Hle Em]];
    destruct (Q.max_spec x f) as [[Hlt' EM]|[Hle' EM]];
    rewrite Em, EM; try lra.
  - assert (0 <= (f - x) * bl) by (apply Qmult_le_0_compat; lra).
    assert ((f - x) * bl <= (f - x) * 1)
      by (rewrite !(Qmult_comm (f - x)); apply Qmult_le_compat_r; lra).
    lra.
  - assert (0 <= (x - f) * bl) by (apply Qmult_le_0_compat; lra).
    assert ((x - f) * bl <= (x - f) * 1)
      by (rewrite !(Qmult_comm (x - f)); apply Qmult_le_compat_r; lra).
    lra.
Qed.

(** X16.  The skin retouch acts on skin pixels of an enabled section and on
    nothing else: with the section disabled, or on a pixel that fails the
    skin test, the block returns the channels it was given, for every
    setting; on a skin pixel of an enabled section, dodge and burn off, it
    returns the blend of each channel with the wide blur at that place by
    the blend factor.  While that factor stays within [0,1] (skin softening
    in [0,1] with a texture that is not negative is such a case) and dodge
    and burn is off, softening never overshoots: every channel returned
    lies between the channel given and the value of the wide blur. *)
Theorem retouch_blend_between (disabledSections : gmap string bool)
    (fsBlurred : list Z) (skinSoftening texture dodgeBurn : Q)
    (i : nat) (r g b : Q) :
  let '(r', g', b') :=
    retouchBlock disabledSections fsBlurred skinSoftening texture dodgeBurn
      i r g b in
  (isDisabled disabledSections "retouch" = true \/ isSkin r g b = false ->
   (r', g', b') = (r, g, b))
  /\ (isDisabled disabledSections "retouch" = false -> isSkin r g b = true ->
      dodgeBurn <= 0 ->
      r' == r * (1 - blendFactor skinSoftening texture)
            + sample fsBlurred i * blendFactor skinSoftening texture
      /\ g' == g * (1 - blendFactor skinSoftening texture)
               + sample fsBlurred (i + 1) * blendFactor skinSoftening texture
      /\ b' == b * (1 - blendFactor skinSoftening texture)
               + sample fsBlurred (i + 2) * blendFactor skinSoftening texture)
  /\ (0 <= blendFactor skinSoftening texture <= 1 -> dodgeBurn <= 0 ->
      Qmin r (sample fsBlurred i) <= r' <= Qmax r (sample fsBlurred i)
      /\ Qmin g (sample fsBlurred (i + 1)) <= g'
         <= Qmax g (sample fsBlurred (i + 1))
      /\ Qmin b (sample fsBlurred (i + 2)) <= b'
         <= Qmax b (sample fsBlurred (i + 2))).
Proof.
  unfold retouchBlock.
  assert (Hself : forall x f, Qmin x f <= x <= Qmax x f).
  { intros x f.
    destruct (Q.min_spec x f) as [[? Em]|[? Em]];
      destruct (Q.max_spec x f) as [[? EM]|[? EM]]; lra. }
  destruct (isDisabled disabledSections "retouch"); cbn [negb].
  { split; [reflexivity|]. split; [discriminate|].
    intros _ _. repeat split; apply Hself. }
  destruct (isSkin r g b).
  2:{ split; [reflexivity|]. split; [discriminate|].
      intros _ _. repeat split; apply Hself. }
  cbv zeta. destruct (Qltb 0 dodgeBurn) eqn:Edb.
  { apply Qltb_true in Edb.
    split; [intros [E|E]; discriminate|].
    split; [intros _ _ Hdb; lra | intros _ Hdb; lra]. }
  split; [intros [E|E]; discriminate|].
  split.
  - intros _ _ _. repeat split; reflexivity.
  - intros Hbl _. repeat split; now apply blend_between.
Qed.

(** A skin pixel blended at 0.24, and a gray pixel, which is no skin and
    comes back as it is even with the softening at full strength. *)
Lemma retouch_blend_between_witness :
  (let '(r', g', b') :=
     retouchBlock ∅ [180; 140; 110; 255]%Z 0.5 0 0 0 200 150 100 in
   (isDisabled ∅ "retouch" = true \/ isSkin 200 150 100 = false ->
    (r', g', b') = (200, 150, 100))
   /\ (isDisabled ∅ "retouch" = false -> isSkin 200 150 100 = true ->
       0 <= 0 ->
       r' == 200 * (1 - blendFactor 0.5 0)
             + sample [180; 140; 110; 255]%Z 0 * blendFactor 0.5 0
       /\ g' == 150 * (1 - blendFactor 0.5 0)
                + sample [180; 140; 110; 255]%Z (0 + 1) * blendFactor 0.5 0
       /\ b' == 100 * (1 - blendFactor 0.5 0)
                + sample [180; 140; 110; 255]%Z (0 + 2) * blendFactor 0.5 0)
   /\ (0 <= blendFactor 0.5 0 <= 1 -> 0 <= 0 ->
       Qmin 200 (sample [180; 140; 110; 255]%Z 0) <= r'
       <= Qmax 200 (sample [180; 140; 110; 255]%Z 0)
       /\ Qmin 150 (sample [180; 140; 110; 255]%Z (0 + 1)) <= g'
          <= Qmax 150 (sample [180; 140; 110; 255]%Z (0 + 1))
       /\ Qmin 100 (sample [180; 140; 110; 255]%Z (0 + 2)) <= b'
          <= Qmax 100 (sample [180; 140; 110; 255]%Z (0 + 2))))
  /\ (let '(r', g', b') :=
        retouchBlock ∅ [180; 140; 110; 255]%Z 1 0 0 0 100 100 100 in
      (isDisabled ∅ "retouch" = true \/ isSkin 100 100 100 = false ->
       (r', g', b') = (100, 100, 100))
      /\ (isDisabled ∅ "retouch" = false -> isSkin 100 100 100 = true ->
          0 <= 0 ->
          r' == 100 * (1 - blendFactor 1 0)
                + sample [180; 140; 110; 255]%Z 0 * blendFactor 1 0
          /\ g' == 100 * (1 - blendFactor 1 0)
                   + sample [180; 140; 110; 255]%Z (0 + 1) * blendFactor 1 0
          /\ b' == 100 * (1 - blendFactor 1 0)
                   + sample [180; 140; 110; 255]%Z (0 + 2) * blendFactor 1 0)
      /\ (0 <= blendFactor 1 0 <= 1 -> 0 <= 0 ->
          Qmin 100 (sample [180; 140; 110; 255]%Z 0) <= r'
          <= Qmax 100 (sample [180; 140; 110; 255]%Z 0)
          /\ Qmin 100 (sample [180; 140; 110; 255]%Z (0 + 1)) <= g'
             <= Qmax 100 (sample [180; 140; 110; 255]%Z (0 + 1))
          /\ Qmin 100 (sample [180; 140; 110; 255]%Z (0 + 2)) <= b'
             <= Qmax 100 (sample [180; 140; 110; 255]%Z (0 + 2)))).
Proof.
  split.
  - exact (retouch_blend_between ∅ [180; 140; 110; 255]%Z 0.5 0 0 0%nat
             200 150 100).
  - exact (retouch_blend_between ∅ [180; 140; 110; 255]%Z 1 0 0 0%nat
             100 100 100).
Defined.

(** The numbers of the two cases: the skin pixel becomes
    (195.2, 147.6, 102.4), the gray pixel stays (100, 100, 100). *)
Example retouch_worked :
  isSkin 200 150 100 = true /\ isSkin 100 100 100 = false
  /\ (let '(r', g', b') :=
        retouchBlock ∅ [180; 140; 110; 255]%Z 0.5 0 0 0 200 150 100 in
      r' == 195.2 /\ g' == 147.6 /\ b' == 102.4)
  /\ retouchBlock ∅ [180; 140; 110; 255]%Z 1 0 0 0 100 100 100
     = (100, 100, 100).
Proof. vm_compute. repeat split. Qed.


(** * The subject mask *)

Lemma maskLoop_length (segData : list Z) (i : nat) (mask : list Z) :
  length (maskLoop segData i mask) = length mask.
Proof.
  revert i mask. induction segData as [|s rest IH]; intros i mask; simpl;
    [reflexivity|].
  now rewrite IH, !length_insert.
Qed.

Lemma maskLoop_lookup (segData : list Z) (i : nat) (mask : list Z)
    (p c : nat) :
  (c < 4)%nat ->
  maskLoop segData i mask !! (p * 4 + c)%nat
  = if decide (i <= p < i + length segData
               /\ p * 4 + c < length mask)%nat
    then Some (maskValue segData (p - i))
    else mask !! (p * 4 + c)%nat.
Proof.
  intros Hc. revert i mask.
  induction segData as [|s rest IH]; intros i mask; simpl.
  - destruct (decide _) as [[? ?]|?]; [lia|reflexivity].
  - rewrite IH, !length_insert.
    set (v := if (s =? 1)%Z then 255%Z else 0%Z).
    destruct (decide (S i <= p < S i + length rest
                      /\ p * 4 + c < length mask)%nat) as [[H1 H2]|Hn].
    + rewrite decide_True by lia.
      unfold maskValue.
      replace (p - i)%nat with (S (p - S i)) by lia. reflexivity.
    + destruct (decide (p = i)) as [->|Hpi].
      * destruct (decide (i * 4 + c < length mask)%nat) as [Hlt|Hge].
        -- rewrite decide_True by lia.
           unfold maskValue. rewrite Nat.sub_diag. simpl. fold v.
           destruct c as [|[|[|[|c]]]]; try lia.
           ++ rewrite Nat.add_0_r.
              rewrite !list_lookup_insert_ne by lia.
              apply list_lookup_insert_eq. lia.
           ++ rewrite !list_lookup_insert_ne by lia.
              apply list_lookup_insert_eq. rewrite !length_insert. lia.
           ++ rewrite !list_lookup_insert_ne by lia.
              apply list_lookup_insert_eq. rewrite !length_insert. lia.
           ++ apply list_lookup_insert_eq. rewrite !length_insert. lia.
        -- rewrite decide_False by lia.
           rewrite !lookup_ge_None_2; try reflexivity;
             rewrite ?length_insert; lia.
      * rewrite decide_False by lia.
        now rewrite !list_lookup_insert_ne by lia.
Qed.

(** X17.  The mask has [width * height * 4] bytes, whatever the length of
    the segmentation, and for every pixel inside it each of the four
    channels holds 255 when the segmentation marks the pixel with 1, and 0
    when it marks it otherwise or does not reach it. *)
Theorem createMask_spec (segData : list Z) (width height p c : nat) :
  (p < width * height)%nat -> (c < 4)%nat ->
  length (createMask segData width height) = (width * height * 4)%nat
  /\ createMask segData width height !! (p * 4 + c)%nat
     = Some (maskValue segData p).
Proof.
  intros Hp Hc. unfold createMask. split.
  - now rewrite maskLoop_length, length_replicate.
  - rewrite maskLoop_lookup, length_replicate by assumption.
    destruct (decide _) as [[H1 H2]|Hn].
    + now rewrite Nat.sub_0_r.
    + rewrite lookup_replicate_2 by lia.
      unfold maskValue. rewrite lookup_ge_None_2; [reflexivity|lia].
Qed.

Lemma createMask_spec_witness :
  length (createMask [1; 0; 1]%Z 2 2) = (2 * 2 * 4)%nat
  /\ createMask [1; 0; 1]%Z 2 2 !! (2 * 4 + 3)%nat
     = Some (maskValue [1; 0; 1]%Z 2).
Proof.
  apply (createMask_spec [1; 0; 1]%Z 2 2 2 3); lia.
Defined.

Lemma maskLoop_values (segData : list Z) (i : nat) (mask : list Z) :
  Forall (fun z => z = 0%Z \/ z = 255%Z) mask ->
  Forall (fun z => z = 0%Z \/ z = 255%Z) (maskLoop segData i mask).
Proof.
  revert i mask. induction segData as [|s rest IH]; intros i mask Hm; simpl;
    [assumption|].
  apply IH.
  repeat (apply Forall_insert;
          [|destruct (s =? 1)%Z; [right|left]; reflexivity]).
  assumption.
Qed.

(** X18.  A mask holds no other bytes than 0 and 255, whatever numbers the
    segmentation holds, and an empty segmentation gives the all-zero
    mask. *)
Theorem createMask_values (segData : list Z) (width height : nat) :
  Forall (fun z => z = 0%Z \/ z = 255%Z) (createMask segData width height)
  /\ createMask [] width height = replicate (width * height * 4) 0%Z.
Proof.
  split; [|reflexivity].
  unfold createMask. apply maskLoop_values.
  apply Forall_replicate. now left.
Qed.

(** * The editor around the engine *)

(** ** Settings objects that read alike *)

(** The picture depends on a settings object through the members it
    carries and the truth of its section flags only. *)
Lemma render_settings_ext `{Canvas} (preset : PresetSettings)
    (a b : ManualSettings) (img : Image) :
  (forall k, num a k = num b k) ->
  (forall k, str a k = str b k) ->
  (forall key,
     isDisabled (default ∅ (disabledSections a)) key
     = isDisabled (default ∅ (disabledSections b)) key) ->
  render preset (Some a) img = render preset (Some b) img.
Proof.
  intros Hn Hs Hd.
  apply render_stepwise; intros;
    unfold basicStep, cssBase, pixelEngine, effectsStep, watermarkStep,
      toneStage, detailStage;
    cbn -[pixelStage pixelLoop isDisabled Qltb];
    rewrite ?Hn, ?Hs, ?Hd;
    first [ reflexivity | apply pixelStage_flag, Hd ].
Qed.

(** ** The editor's own defaults *)

(** X29.  The defaults of the editor are not inert: with them, and a
    preset whose colour balance contributes nothing, the picture rendered
    is the CSS base pass of the source with the signature "Akins_studio"
    drawn on it, in white at opacity 0.8 and a font size of a fifth of the
    width.  Every other stage leaves the bytes alone.  (The backend is
    taken to return bytes.) *)
Theorem render_editor_defaults `{Canvas}
    (preset : PresetSettings) (img : Image) :
  ToneSpec.presetTemp preset == 0 ->
  ToneSpec.presetTint preset == 0 ->
  Forall is_byte (data img) ->
  Forall is_byte
    (drawFiltered (width img) (height img) (filters preset) 1 1 (data img)) ->
  render preset (Some DEFAULT_MANUAL_SETTINGS) img
  = fillWatermark (width img) (height img) "Akins_studio"
      (inject_Z (width img) / 100 * 20) "#ffffff" 0.8
      (drawFiltered (width img) (height img) (filters preset) 1 1 (data img)).
Proof.
  intros HT HTn Hd Hf.
  unfold render. cbv zeta.
  assert (E1 : basicStep preset (destructure (Some DEFAULT_MANUAL_SETTINGS))
                 (data img) = data img).
  { unfold basicStep, toneStage. simpl.
    apply pixelLoop_id; [|assumption].
    intros _ r g b Hr Hg Hb. now apply toneBody_neutral. }
  rewrite E1. unfold cssBase. simpl.
  unfold pixelEngine, detailStage, effectsStep, watermarkStep. simpl.
  f_equal.
  unfold pixelStage. apply pixelLoop_id; [|assumption].
  intros k r g b Hr Hg Hb. now apply pixelBody_neutral.
Qed.

Lemma render_editor_defaults_witness :
  @render (plainCanvas gallery) barePreset (Some DEFAULT_MANUAL_SETTINGS)
    midGray4x4
  = @fillWatermark (plainCanvas gallery) (width midGray4x4)
      (height midGray4x4) "Akins_studio"
      (inject_Z (width midGray4x4) / 100 * 20) "#ffffff" 0.8
      (@drawFiltered (plainCanvas gallery) (width midGray4x4)
         (height midGray4x4) (filters barePreset) 1 1 (data midGray4x4)).
Proof.
  apply (@render_editor_defaults (plainCanvas gallery) barePreset midGray4x4);
    try reflexivity;
    simpl; repeat constructor; unfold is_byte; lia.
Defined.

(** ** Section toggles *)

Lemma toggleSection_effect (sectionId : string) (prev m : ManualSettings) :
  toggleSection sectionId prev = Some m ->
  isDisabled (default ∅ (disabledSections m)) sectionId
  = negb (isDisabled (default ∅ (disabledSections prev)) sectionId)
  /\ (forall key, key <> sectionId ->
        isDisabled (default ∅ (disabledSections m)) key
        = isDisabled (default ∅ (disabledSections prev)) key)
  /\ (forall k, num m k = num prev k)
  /\ (forall k, str m k = str prev k).
Proof.
  unfold toggleSection.
  destruct (disabledSections prev) as [ds|] eqn:E; [|discriminate].
  intros [= <-]. simpl. repeat split.
  - apply isDisabled_insert_eq.
  - intros key Hkey. now apply isDisabled_insert_ne.
Qed.

(** X19.  Toggling a section flips the flag the engine reads for that
    section and leaves every other flag and every other member as it was;
    a flag that was never set counts as off and becomes on. *)
Theorem toggleSection_flips (sectionId : string) (prev m : ManualSettings) :
  toggleSection sectionId prev = Some m ->
  isDisabled (default ∅ (disabledSections m)) sectionId
  = negb (isDisabled (default ∅ (disabledSections prev)) sectionId)
  /\ (forall key, key <> sectionId ->
        isDisabled (default ∅ (disabledSections m)) key
        = isDisabled (default ∅ (disabledSections prev)) key)
  /\ (forall k, num m k = num prev k)
  /\ (forall k, str m k = str prev k).
Proof. apply toggleSection_effect. Qed.

Lemma toggleSection_flips_witness :
  isDisabled
    (default ∅
       (disabledSections
          {| num := num DEFAULT_MANUAL_SETTINGS;
             str := str DEFAULT_MANUAL_SETTINGS;
             disabledSections := Some (<["detail" := true]> ∅) |}))
    "detail"
  = negb (isDisabled (default ∅ (disabledSections DEFAULT_MANUAL_SETTINGS))
            "detail")
  /\ (forall key, key <> "detail"%string ->
        isDisabled
          (default ∅
             (disabledSections
                {| num := num DEFAULT_MANUAL_SETTINGS;
                   str := str DEFAULT_MANUAL_SETTINGS;
                   disabledSections := Some (<["detail" := true]> ∅) |}))
          key
        = isDisabled (default ∅ (disabledSections DEFAULT_MANUAL_SETTINGS))
            key)
  /\ (forall k, num DEFAULT_MANUAL_SETTINGS k = num DEFAULT_MANUAL_SETTINGS k)
  /\ (forall k, str DEFAULT_MANUAL_SETTINGS k = str DEFAULT_MANUAL_SETTINGS k).
Proof.
  apply (toggleSection_flips "detail" DEFAULT_MANUAL_SETTINGS
           {| num := num DEFAULT_MANUAL_SETTINGS;
              str := str DEFAULT_MANUAL_SETTINGS;
              disabledSections := Some (<["detail" := true]> ∅) |}).
  reflexivity.
Defined.

(** X20.  Toggling a section twice gives back the picture: the settings
    after the second toggle render exactly as those before the first. *)
Theorem toggleSection_twice_renders_same `{Canvas}
    (sectionId : string) (prev m1 m2 : ManualSettings)
    (preset : PresetSettings) (img : Image) :
  toggleSection sectionId prev = Some m1 ->
  toggleSection sectionId m1 = Some m2 ->
  render preset (Some m2) img = render preset (Some prev) img.
Proof.
  intros H1 H2.
  destruct (toggleSection_effect _ _ _ H1) as (F1 & O1 & N1 & S1).
  destruct (toggleSection_effect _ _ _ H2) as (F2 & O2 & N2 & S2).
  apply render_settings_ext.
  - intros k. now rewrite N2, N1.
  - intros k. now rewrite S2, S1.
  - intros key. destruct (decide (key = sectionId)) as [->|Hne].
    + rewrite F2, F1. apply negb_involutive.
    + now rewrite O2, O1.
Qed.

Lemma toggleSection_twice_renders_same_witness :
  @render (plainCanvas gallery) warmPreset
    (Some {| num := num DEFAULT_MANUAL_SETTINGS;
             str := str DEFAULT_MANUAL_SETTINGS;
             disabledSections :=
               Some (<["basic" := false]> (<["basic" := true]> ∅)) |})
    grayPixel
  = @render (plainCanvas gallery) warmPreset (Some DEFAULT_MANUAL_SETTINGS)
      grayPixel.
Proof.
  apply (@toggleSection_twice_renders_same (plainCanvas gallery) "basic"
           DEFAULT_MANUAL_SETTINGS
           {| num := num DEFAULT_MANUAL_SETTINGS;
              str := str DEFAULT_MANUAL_SETTINGS;
              disabledSections := Some (<["basic" := true]> ∅) |}
           {| num := num DEFAULT_MANUAL_SETTINGS;
              str := str DEFAULT_MANUAL_SETTINGS;
              disabledSections :=
                Some (<["basic" := false]> (<["basic" := true]> ∅)) |}
           warmPreset grayPixel); reflexivity.
Defined.

(** ** Undo and redo *)

Lemma sliceLast_length {A : Type} (n : nat) (l : list A) :
  length (sliceLast n l) = Nat.min n (length l).
Proof. unfold sliceLast. rewrite length_drop. lia. Qed.

Lemma sliceLast_snoc {A : Type} (n : nat) (l : list A) (x : A) :
  sliceLast (S n) (l ++ [x]) = sliceLast n l ++ [x].
Proof.
  unfold sliceLast. rewrite length_app. simpl.
  replace (length l + 1 - S n)%nat with (length l - n)%nat by lia.
  rewrite drop_app_le by lia. reflexivity.
Qed.

Lemma take_init_snoc {A : Type} (l : list A) (x : A) :
  take (length (l ++ [x]) - 1) (l ++ [x]) = l.
Proof.
  rewrite length_app. simpl.
  replace (length l + 1 - 1)%nat with (length l) by lia.
  now rewrite take_app_length.
Qed.

Lemma DEFAULT_complete : complete DEFAULT_MANUAL_SETTINGS.
Proof. repeat split; intros; eexists; reflexivity. Qed.

Lemma spread_complete_l (a b : ManualSettings) :
  complete a -> complete (spread a b).
Proof.
  intros (Hn & Hs & Hd). repeat split; simpl.
  - intros k. destruct (num b k); [now eexists|apply Hn].
  - intros k. destruct (str b k); [now eexists|apply Hs].
  - destruct (disabledSections b); [now eexists|apply Hd].
Qed.

(** Laying the defaults under a settings object that carries every member
    changes no member. *)
Lemma spread_complete_r (a m : ManualSettings) :
  complete m ->
  (forall k, num (spread a m) k = num m k)
  /\ (forall k, str (spread a m) k = str m k)
  /\ disabledSections (spread a m) = disabledSections m.
Proof.
  intros (Hn & Hs & Hd). repeat split; simpl.
  - intros k. destruct (Hn k) as [v ->]. reflexivity.
  - intros k. destruct (Hs k) as [v ->]. reflexivity.
  - destruct Hd as [ds ->]. reflexivity.
Qed.

Lemma render_spread_defaults `{Canvas} (preset : PresetSettings)
    (m : ManualSettings) (img : Image) :
  complete m ->
  render preset (Some (spread DEFAULT_MANUAL_SETTINGS m)) img
  = render preset (Some m) img.
Proof.
  intros Hc.
  destruct (spread_complete_r DEFAULT_MANUAL_SETTINGS m Hc) as (Hn & Hs & Hd).
  apply render_settings_ext; [assumption|assumption|].
  intros key. now rewrite Hd.
Qed.

(** The bound on the two stacks and the completeness of the settings. *)
Definition historyInvariant (s : AppState) : Prop :=
  (length (history s) + length (redoStack s) <= 50)%nat
  /\ complete (manualSettings s).

Lemma step_keeps_invariant (s : AppState) (a : Action) :
  historyInvariant s -> historyInvariant (step s a).
Proof.
  intros [Hlen Hc]. destruct a as [p|settings|sectionId|stored| |]; simpl.
  - split; [|assumption]. simpl. rewrite sliceLast_length. lia.
  - split; [assumption|]. simpl. now apply spread_complete_l.
  - destruct (toggleSection sectionId (manualSettings s)) as [m|] eqn:Et;
      [|now split].
    split; [assumption|]. simpl.
    destruct (toggleSection_effect _ _ _ Et) as (_ & _ & Hn & Hs).
    destruct Hc as (Cn & Cs & Cd). repeat split.
    + intros k. rewrite Hn. apply Cn.
    + intros k. rewrite Hs. apply Cs.
    + unfold toggleSection in Et.
      destruct (disabledSections (manualSettings s)); [|discriminate].
      injection Et as <-. now eexists.
  - split; [assumption|]. simpl. apply spread_complete_l, DEFAULT_complete.
  - unfold undo. destruct (last (history s)) as [e|] eqn:El;
      [|now split].
    split; simpl.
    + rewrite length_take.
      destruct (history s) as [|x h]; [discriminate|]. simpl in *. lia.
    + apply spread_complete_l, DEFAULT_complete.
  - unfold redo. destruct (redoStack s) as [|next rest] eqn:Er.
    { split; [rewrite Er; simpl in *; lia | assumption]. }
    split; simpl.
    + rewrite length_app. simpl in *. lia.
    + apply spread_complete_l, DEFAULT_complete.
Qed.

(** X21.  Whatever happens, presets selected, sliders moved, sections
    toggled, stored settings loaded, undo, redo, in any order, the history and the redo stack never
    hold more than 50 entries together, and the settings object carries
    every member, so that none of the defaults written in [processImage]
    is ever the one in force. *)
Theorem history_is_bounded (p : PresetSettings) (actions : list Action) :
  (length (history (fold_left step actions (initialState p)))
   + length (redoStack (fold_left step actions (initialState p))) <= 50)%nat
  /\ complete (manualSettings (fold_left step actions (initialState p))).
Proof.
  assert (Hinv : forall s, historyInvariant s ->
                           historyInvariant (fold_left step actions s)).
  { induction actions as [|a actions IH]; intros s Hs; simpl; [assumption|].
    apply IH, step_keeps_invariant, Hs. }
  apply (Hinv (initialState p)).
  split; [simpl; lia | apply DEFAULT_complete].
Qed.

Lemma last_snoc_some {A : Type} (l : list A) (x : A) :
  last (l ++ [x]) = Some x.
Proof. apply last_snoc. Qed.

(** X22.  Undo right after selecting a preset brings back the preset that
    was selected before, settings that read member for member as before,
    and with them the picture; the preset just left is the one entry of the
    redo stack, and the history holds what it held, cut to its last 49
    entries. *)
Theorem undo_after_selectPreset `{Canvas} (p : PresetSettings) (s : AppState)
    (img : Image) :
  complete (manualSettings s) ->
  selectedPreset (undo (selectPreset p s)) = selectedPreset s
  /\ (forall k, num (manualSettings (undo (selectPreset p s))) k
                = num (manualSettings s) k)
  /\ (forall k, str (manualSettings (undo (selectPreset p s))) k
                = str (manualSettings s) k)
  /\ render (selectedPreset (undo (selectPreset p s)))
       (Some (manualSettings (undo (selectPreset p s)))) img
     = render (selectedPreset s) (Some (manualSettings s)) img
  /\ redoStack (undo (selectPreset p s))
     = [{| Entry.preset := p; Entry.manual := manualSettings s |}]
  /\ history (undo (selectPreset p s)) = sliceLast 49 (history s).
Proof.
  intros Hc.
  unfold undo, selectPreset, pushToHistory. cbn [history selectedPreset
    manualSettings redoStack].
  rewrite sliceLast_snoc, last_snoc_some. cbn [history selectedPreset
    manualSettings redoStack Entry.preset Entry.manual current].
  destruct (spread_complete_r DEFAULT_MANUAL_SETTINGS (manualSettings s) Hc)
    as (Hn & Hs & Hd).
  repeat split; try assumption.
  - now apply render_spread_defaults.
  - apply take_init_snoc.
Qed.

(** X23.  Redo right after undo brings back the preset, settings that read
    member for member as before, the picture, the redo stack, and a history
    of the same length with the same entries below the top. *)
Theorem redo_after_undo `{Canvas} (s : AppState) (img : Image) :
  history s <> [] ->
  complete (manualSettings s) ->
  selectedPreset (redo (undo s)) = selectedPreset s
  /\ (forall k, num (manualSettings (redo (undo s))) k
                = num (manualSettings s) k)
  /\ (forall k, str (manualSettings (redo (undo s))) k
                = str (manualSettings s) k)
  /\ render (selectedPreset (redo (undo s)))
       (Some (manualSettings (redo (undo s)))) img
     = render (selectedPreset s) (Some (manualSettings s)) img
  /\ redoStack (redo (undo s)) = redoStack s
  /\ length (history (redo (undo s))) = length (history s)
  /\ take (length (history s) - 1) (history (redo (undo s)))
     = take (length (history s) - 1) (history s).
Proof.
  intros Hh Hc.
  destruct (history s) as [|x h] eqn:Eh using rev_ind; [contradiction|].
  clear IHh Hh.
  unfold undo. rewrite Eh, last_snoc_some.
  unfold redo. cbn [history selectedPreset manualSettings redoStack
    Entry.preset Entry.manual current].
  destruct (spread_complete_r DEFAULT_MANUAL_SETTINGS (manualSettings s) Hc)
    as (Hn & Hs & Hd).
  rewrite take_init_snoc.
  repeat split; try assumption.
  - now apply render_spread_defaults.
  - now rewrite !length_app.
  - rewrite !length_app. simpl.
    replace (length h + 1 - 1)%nat with (length h) by lia.
    now rewrite !take_app_length.
Qed.

Lemma undo_after_selectPreset_witness :
  selectedPreset (undo (selectPreset namedPreset sampleSession))
  = selectedPreset sampleSession
  /\ (forall k,
        num (manualSettings (undo (selectPreset namedPreset sampleSession))) k
        = num (manualSettings sampleSession) k)
  /\ (forall k,
        str (manualSettings (undo (selectPreset namedPreset sampleSession))) k
        = str (manualSettings sampleSession) k)
  /\ @render (plainCanvas gallery)
       (selectedPreset (undo (selectPreset namedPreset sampleSession)))
       (Some (manualSettings (undo (selectPreset namedPreset sampleSession))))
       grayPixel
     = @render (plainCanvas gallery) (selectedPreset sampleSession)
         (Some (manualSettings sampleSession)) grayPixel
  /\ redoStack (undo (selectPreset namedPreset sampleSession))
     = [{| Entry.preset := namedPreset;
           Entry.manual := manualSettings sampleSession |}]
  /\ history (undo (selectPreset namedPreset sampleSession))
     = sliceLast 49 (history sampleSession).
Proof.
  apply (@undo_after_selectPreset (plainCanvas gallery) namedPreset
           sampleSession grayPixel).
  repeat split; intros; eexists; reflexivity.
Defined.

Lemma redo_after_undo_witness :
  selectedPreset (redo (undo sampleSession)) = selectedPreset sampleSession
  /\ (forall k, num (manualSettings (redo (undo sampleSession))) k
                = num (manualSettings sampleSession) k)
  /\ (forall k, str (manualSettings (redo (undo sampleSession))) k
                = str (manualSettings sampleSession) k)
  /\ @render (plainCanvas gallery) (selectedPreset (redo (undo sampleSession)))
       (Some (manualSettings (redo (undo sampleSession)))) grayPixel
     = @render (plainCanvas gallery) (selectedPreset sampleSession)
         (Some (manualSettings sampleSession)) grayPixel
  /\ redoStack (redo (undo sampleSession)) = redoStack sampleSession
  /\ length (history (redo (undo sampleSession)))
     = length (history sampleSession)
  /\ take (length (history sampleSession) - 1)
       (history (redo (undo sampleSession)))
     = take (length (history sampleSession) - 1) (history sampleSession).
Proof.
  apply (@redo_after_undo (plainCanvas gallery) sampleSession grayPixel).
  - discriminate.
  - repeat split; intros; eexists; reflexivity.
Defined.

(** ** The preset kept across sessions *)

Lemma find_by_id (l : list PresetSettings) (p : PresetSettings) :
  NoDup (map id l) -> p ∈ l ->
  find (fun q => String.eqb (id q) (id p)) l = Some p.
Proof.
  induction l as [|q l IH]; intros Hnd Hp; [now apply elem_of_nil in Hp|].
  simpl in Hnd. apply NoDup_cons in Hnd as [Hq Hnd].
  simpl. apply elem_of_cons in Hp as [->|Hp].
  - now rewrite String.eqb_refl.
  - destruct (String.eqb (id q) (id p)) eqn:E; [|now apply IH].
    apply String.eqb_eq in E. exfalso. apply Hq. rewrite E.
    apply list_elem_of_fmap. now exists p.
Qed.

Lemma find_in (l : list PresetSettings) (f : PresetSettings -> bool)
    (p : PresetSettings) :
  find f l = Some p -> p ∈ l.
Proof.
  induction l as [|q l IH]; simpl; [discriminate|].
  destruct (f q); [intros [= ->]; apply elem_of_cons; now left|].
  intros Hf. apply elem_of_cons. right. now apply IH.
Qed.

Lemma presets_ids : NoDup (map id presets) /\ Forall (fun p => id p <> ""%string) presets.
Proof.
  split.
  - apply (bool_decide_unpack _). vm_compute. exact I.
  - apply (bool_decide_unpack _). vm_compute. exact I.
Qed.

(** X24.  The selection survives a reload.  Every preset of the table is
    found again from the id written to the store, because the ids of the
    table are distinct and none is empty; and whatever the store holds,
    nothing, an empty string or an id of no preset, the editor opens on a
    preset of the table. *)
Theorem preset_selection_round_trip (p : PresetSettings) :
  p ∈ presets ->
  initialPreset presets (Some (id p)) = Some p
  /\ (forall saved, exists q,
        q ∈ presets /\ initialPreset presets saved = Some q).
Proof.
  intros Hp. destruct presets_ids as [Hnd Hne]. split.
  - unfold initialPreset.
    rewrite Forall_forall in Hne. specialize (Hne p Hp).
    destruct (String.eqb (id p) "") eqn:E;
      [apply String.eqb_eq in E; contradiction|].
    now rewrite find_by_id.
  - assert (Hhead : exists q, q ∈ presets /\ head presets = Some q).
    { eexists. split; [|reflexivity]. unfold presets. apply elem_of_cons.
      now left. }
    intros [s|]; unfold initialPreset; [|exact Hhead].
    destruct (String.eqb s ""); [exact Hhead|].
    destruct (find (fun q => String.eqb (id q) s) presets) as [q|] eqn:Ef;
      [|exact Hhead].
    exists q. split; [|reflexivity]. eapply find_in, Ef.
Qed.

Lemma preset_selection_round_trip_witness :
  initialPreset presets (Some (id (mkPreset "pro-base" "Pro Base (Exposure)"
                                     Cinematic
                                     "brightness(1.02) contrast(1.02)"
                                     None None
                                     (tonalRangeOf 1.05 0.95 0.9 1.1 None)
                                     None None None)))
  = Some (mkPreset "pro-base" "Pro Base (Exposure)" Cinematic
            "brightness(1.02) contrast(1.02)" None None
            (tonalRangeOf 1.05 0.95 0.9 1.1 None) None None None)
  /\ (forall saved, exists q,
        q ∈ presets /\ initialPreset presets saved = Some q).
Proof.
  apply (preset_selection_round_trip
           (mkPreset "pro-base" "Pro Base (Exposure)" Cinematic
              "brightness(1.02) contrast(1.02)" None None
              (tonalRangeOf 1.05 0.95 0.9 1.1 None) None None None)).
  unfold presets.
  repeat (apply elem_of_cons; first [ left; reflexivity | right ]).
Defined.

(** ** The catalogue and its selection *)

Lemma find_is_Some {A : Type} (f : A -> bool) (l : list A) (x : A) :
  x ∈ l -> f x = true -> is_Some (find f l).
Proof.
  induction l as [|y l IH]; intros Hx Hf; [now apply elem_of_nil in Hx|].
  simpl. destruct (f y) eqn:E; [now eexists|].
  apply elem_of_cons in Hx as [->|Hx]; [congruence|now apply IH].
Qed.

Lemma find_head_id (first : FileWithId) (rest : list FileWithId) :
  is_Some (find (fun img => String.eqb (fileId img) (fileId first))
             (first :: rest)).
Proof. simpl. rewrite String.eqb_refl. now eexists. Qed.

(** X25.  Removing an image never leaves the selection dangling: if an
    image was selected before and any image is left, an image is selected
    afterwards; and no image with the removed id is left. *)
Theorem removeImage_keeps_selection (id : string) (images : list FileWithId)
    (selectedImageId : option string) :
  is_Some (selectedImage images selectedImageId) ->
  (fst (removeImage id images selectedImageId) <> [] ->
   is_Some (selectedImage (fst (removeImage id images selectedImageId))
              (snd (removeImage id images selectedImageId))))
  /\ (forall img, img ∈ fst (removeImage id images selectedImageId) ->
        fileId img <> id /\ img ∈ images).
Proof.
  intros Hsel. unfold removeImage. cbn [fst snd]. split.
  - destruct (filter (fun img => fileId img <> id) images)
      as [|first rest] eqn:Ef; [contradiction|]. intros _.
    assert (Hfirst : is_Some (selectedImage (first :: rest)
                                (Some (fileId first)))).
    { unfold selectedImage. simpl.
      destruct (String.eqb (fileId first) ""); apply find_head_id. }
    assert (Hnone : is_Some (selectedImage (first :: rest) None)).
    { unfold selectedImage. simpl. apply find_head_id. }
    destruct (decide (selectedImageId = Some id)) as [->|Hne];
      [exact Hfirst|].
    destruct selectedImageId as [s|]; [|exact Hnone].
    unfold selectedImage in *.
    destruct (String.eqb s "") eqn:Es; [exact Hnone|].
    destruct Hsel as [x Hx]. apply find_some in Hx as [Hin Hid].
    apply String.eqb_eq in Hid.
    apply (find_is_Some _ _ x); [|now apply String.eqb_eq].
    rewrite <- Ef. apply list_elem_of_filter. split.
    + rewrite Hid. intros ->. now apply Hne.
    + now apply list_elem_of_In.
  - intros img Himg. now apply list_elem_of_filter in Himg.
Qed.

Lemma removeImage_keeps_selection_witness :
  (fst (removeImage "a1" sampleCatalogue (Some "a1"%string)) <> [] ->
   is_Some (selectedImage (fst (removeImage "a1" sampleCatalogue
                                  (Some "a1"%string)))
              (snd (removeImage "a1" sampleCatalogue (Some "a1"%string)))))
  /\ (forall img,
        img ∈ fst (removeImage "a1" sampleCatalogue (Some "a1"%string)) ->
        fileId img <> "a1"%string /\ img ∈ sampleCatalogue).
Proof.
  apply (removeImage_keeps_selection "a1" sampleCatalogue (Some "a1"%string)).
  vm_compute. now eexists.
Defined.

(** ** The assistant *)

Lemma analyze_after_saturation (v : Q) (m : ManualSettings) :
  analyze (setNum Saturation v m) = analyze m.
Proof. reflexivity. Qed.

Lemma analyze_after_exposure (m : ManualSettings) :
  analyze (setNum Exposure 1.2 m)
  = if below (num m SkinSoftening) 0.2 then SkinPolish else LookingGood.
Proof. reflexivity. Qed.

Lemma analyze_after_softening (m : ManualSettings) :
  analyze (setNum SkinSoftening 0.6 m)
  = if below (num m Exposure) 0.8 then BrightnessBoost else LookingGood.
Proof. reflexivity. Qed.

(** X26.  Accepting what the assistant suggests leads to "Looking Good!"
    after at most two suggestions, from any settings, and accepting that
    last suggestion keeps it. *)
Theorem assistant_settles (m : ManualSettings) :
  analyze (accept (analyze (accept (analyze m) m)) (accept (analyze m) m))
  = LookingGood
  /\ analyze (accept LookingGood
               (accept (analyze (accept (analyze m) m))
                  (accept (analyze m) m)))
     = LookingGood.
Proof.
  assert (Hmain :
    analyze (accept (analyze (accept (analyze m) m)) (accept (analyze m) m))
    = LookingGood).
  { destruct (below (num m Exposure) 0.8) eqn:E1;
      destruct (below (num m SkinSoftening) 0.2) eqn:E2;
      match goal with
      | |- _ =>
          let Em := fresh "Em" in
          assert (Em : analyze m
                       = if below (num m Exposure) 0.8 then BrightnessBoost
                         else if below (num m SkinSoftening) 0.2
                              then SkinPolish else LookingGood)
            by reflexivity;
          rewrite E1, ?E2 in Em;
          do 4 (rewrite ?Em; cbn [accept];
                rewrite ?analyze_after_saturation, ?analyze_after_exposure,
                  ?analyze_after_softening, ?E1, ?E2)
      end;
      reflexivity. }
  split; [exact Hmain|].
  cbn [accept]. now rewrite analyze_after_saturation.
Qed.

(** ** Export *)

Lemma processImage_cases `{Canvas} (imageSrc : string)
    (preset : PresetSettings) (manualSettings : option ManualSettings) :
  match loadImage imageSrc with
  | Some img =>
      processImage imageSrc preset manualSettings
      = Fulfilled (toDataURL (width img) (height img)
                     (render preset manualSettings img))
  | None => processImage imageSrc preset manualSettings = Pending
  end.
Proof.
  unfold processImage. destruct (loadImage imageSrc); reflexivity.
Qed.

Lemma exportLoop_downloaded `{Canvas} (preset : PresetSettings)
    (m : ManualSettings) (items : list FileWithId)
    (zip : gmap string string) (count : nat) :
  (exists z, exportLoop preset m items zip count = Downloaded z)
  <-> Forall (fun item => is_Some (loadImage (preview item))) items.
Proof.
  revert zip count. induction items as [|item rest IH]; intros zip count.
  - simpl. split; [constructor|]. intros _. now exists zip.
  - simpl.
    pose proof (processImage_cases (preview item) preset (Some m)) as Hc.
    destruct (loadImage (preview item)) as [img|] eqn:El.
    + rewrite Hc. rewrite IH. split.
      * intros Hr. constructor; [rewrite El; now eexists|assumption].
      * intros Hall. now inversion Hall.
    + rewrite Hc. split.
      * intros [z Hz]. discriminate.
      * intros Hall. inversion Hall as [|? ? [x Hx] _].
        rewrite El in Hx. discriminate.
Qed.

Lemma exportLoop_hung `{Canvas} (preset : PresetSettings)
    (m : ManualSettings) (before : list FileWithId) (bad : FileWithId)
    (after : list FileWithId) (zip : gmap string string) (count : nat) :
  Forall (fun item => is_Some (loadImage (preview item))) before ->
  loadImage (preview bad) = None ->
  exists z,
    exportLoop preset m (before ++ bad :: after) zip count
    = Hung (count + length before) z.
Proof.
  intros Hb Hbad. revert zip count.
  induction Hb as [|item before [img Himg] _ IH]; intros zip count; simpl.
  - pose proof (processImage_cases (preview bad) preset (Some m)) as Hc.
    rewrite Hbad in Hc. rewrite Hc, Nat.add_0_r. now exists zip.
  - pose proof (processImage_cases (preview item) preset (Some m)) as Hc.
    rewrite Himg in Hc. rewrite Hc.
    replace (count + S (length before))%nat
      with (S count + length before)%nat by lia.
    apply IH.
Qed.

(** X27.  The export produces its archive exactly when the catalogue is
    not empty and every image decodes.  One image that fails to decode
    stops it for good: the call stays at that image, the count of processed
    images stands at the number of images before it, and nothing is
    downloaded.  ([loadModels], awaited first for the presets that ask for
    it, is taken to have returned.) *)
Theorem export_completes_iff_all_decode `{Canvas} (preset : PresetSettings)
    (m : ManualSettings) (images : list FileWithId) :
  ((exists z, processAndDownload preset m images = Downloaded z)
   <-> images <> []
       /\ Forall (fun item => is_Some (loadImage (preview item))) images)
  /\ (forall before bad after,
        images = before ++ bad :: after ->
        Forall (fun item => is_Some (loadImage (preview item))) before ->
        loadImage (preview bad) = None ->
        exists z,
          processAndDownload preset m images = Hung (length before) z).
Proof.
  unfold processAndDownload. split; [split|].
  - destruct images as [|item rest]; [intros [z Hz]; discriminate|].
    intros Hd. split; [discriminate|]. now apply exportLoop_downloaded in Hd.
  - intros [Hne Hall]. destruct images as [|item rest]; [contradiction|].
    now apply exportLoop_downloaded.
  - intros before bad after -> Hb Hbad.
    destruct (exportLoop_hung preset m before bad after ∅ 0 Hb Hbad)
      as [z Hz].
    exists z. destruct before; exact Hz.
Qed.

Lemma splitComma_commaFree (s : string) :
  commaFree s = true -> splitComma s = [s].
Proof.
  induction s as [|c s IH]; simpl; [reflexivity|].
  intros Hc. apply andb_true_iff in Hc as [Hc Hs].
  apply negb_true_iff in Hc. now rewrite Hc, (IH Hs).
Qed.

Lemma splitComma_two (a b : string) :
  commaFree a = true -> commaFree b = true ->
  splitComma (a ++ String comma b) = [a; b].
Proof.
  intros Ha Hb. induction a as [|c a IH]; simpl.
  - rewrite ?Ascii.eqb_refl. now rewrite splitComma_commaFree.
  - simpl in Ha. apply andb_true_iff in Ha as [Hc Ha].
    apply negb_true_iff in Hc. now rewrite Hc, (IH Ha).
Qed.

(** X28.  What goes into the archive for an image is the part of its data
    URL after the comma, under the name [edited_] followed by the file
    name; an image whose data URL holds no comma is left out without
    notice. *)
Theorem export_entry `{Canvas} (preset : PresetSettings) (m : ManualSettings)
    (item : FileWithId) (img : Image) (head payload : string) :
  loadImage (preview item) = Some img ->
  commaFree head = true -> commaFree payload = true ->
  (toDataURL (width img) (height img) (render preset (Some m) img)
   = (head ++ String comma payload)%string ->
   processAndDownload preset m [item]
   = Downloaded (<[("edited_" ++ fileName item)%string := payload]> ∅))
  /\ (toDataURL (width img) (height img) (render preset (Some m) img) = head ->
      processAndDownload preset m [item] = Downloaded ∅).
Proof.
  intros Hl Hh Hp.
  pose proof (processImage_cases (preview item) preset (Some m)) as Hc.
  rewrite Hl in Hc.
  unfold processAndDownload. simpl. rewrite Hc. split; intros ->.
  - now rewrite splitComma_two.
  - now rewrite splitComma_commaFree.
Qed.

Lemma export_entry_witness :
  (@toDataURL exportCanvas (width grayPixel) (height grayPixel)
     (@render exportCanvas barePreset (Some DEFAULT_MANUAL_SETTINGS) grayPixel)
   = ("data:image/jpeg;base64" ++ String comma "QUJD")%string ->
   @processAndDownload exportCanvas barePreset DEFAULT_MANUAL_SETTINGS
     [firstImage]
   = Downloaded (<[("edited_" ++ fileName firstImage)%string := "QUJD"%string]> ∅))
  /\ (@toDataURL exportCanvas (width grayPixel) (height grayPixel)
        (@render exportCanvas barePreset (Some DEFAULT_MANUAL_SETTINGS)
           grayPixel)
      = "data:image/jpeg;base64"%string ->
      @processAndDownload exportCanvas barePreset DEFAULT_MANUAL_SETTINGS
        [firstImage]
      = Downloaded ∅).
Proof.
  apply (@export_entry exportCanvas barePreset DEFAULT_MANUAL_SETTINGS
           firstImage grayPixel "data:image/jpeg;base64" "QUJD");
    reflexivity.
Defined.
